(** * scripts/package.py: the PULSAR KiCad library packager

    A shallow embedding of the packaging script and the properties its
    specification states about it.

    The script is sequential file I/O around three libraries (json,
    zipfile, hashlib).  The embedding keeps the script's own control flow
    (the loops, the order of the reads and writes, the points at which an
    exception is raised) and takes the libraries' byte formats as an
    interface, [Library], with the two round-trip facts the script relies
    on stated in [LibraryLaws].

    The operating system and the libraries fail here only for what is at a
    path: nothing, a directory in place of a file, a regular file in place
    of a directory, text [json.load] does not return on, a file that is no
    archive.  Permissions, symbolic links and files that [ZipFile.write] or
    [json.dump] would refuse are left out. *)

From Stdlib Require Import Strings.String Strings.Ascii Strings.Byte ZArith List Lia.
From Stdlib Require Import DecimalString.
From stdpp Require Import base list sorting strings.
From Equations Require Import Equations.

Local Open Scope Z_scope.
Local Open Scope string_scope.
Local Open Scope list_scope.

(** ** Python values *)

(** The exceptions the script can run into. *)
Inductive exn :=
  | KeyError | IndexError | TypeError | AttributeError | ValueError
  | FileNotFoundError | IsADirectoryError | NotADirectoryError
  | JSONDecodeError | UnicodeDecodeError | RecursionError | BadZipFile.

Inductive result (A : Type) :=
  | Ok (a : A)
  | Raise (e : exn).
Arguments Ok {A} a.
Arguments Raise {A} e.

(** What [json.load] returns: a dict keeps its keys in insertion order, so
    it is an association list; a float is carried by its literal, the
    script never looks inside one. *)
#[local] Unset Elimination Schemes.
Inductive json :=
  | JNull
  | JBool (b : bool)
  | JInt (n : Z)
  | JFloat (lit : string)
  | JStr (s : string)
  | JArr (items : list json)
  | JObj (fields : list (string * json)).
#[local] Set Elimination Schemes.

Definition dict := list (string * json).

(** [d.get(k)] *)
Fixpoint dict_get (k : string) (d : dict) : option json :=
  match d with
  | [] => None
  | (k', v) :: d' => if String.eqb k' k then Some v else dict_get k d'
  end.

(** [d[k] = v]: an existing key keeps its place, a new key goes last. *)
Fixpoint dict_set (k : string) (v : json) (d : dict) : dict :=
  match d with
  | [] => [(k, v)]
  | (k', v') :: d' =>
      if String.eqb k' k then (k', v) :: d' else (k', v') :: dict_set k v d'
  end.

(** [x[k]] for a string [k], on any value. *)
Definition getitem_str (x : json) (k : string) : result json :=
  match x with
  | JObj d => match dict_get k d with Some v => Ok v | None => Raise KeyError end
  | _ => Raise TypeError
  end.

(** [x[0]], on any value.  Indexing a non-empty [str] gives its first
    character; every use below raises on a [str] next, whatever it is. *)
Definition getitem_0 (x : json) : result json :=
  match x with
  | JArr (v :: _) => Ok v
  | JArr [] => Raise IndexError
  | JObj _ => Raise KeyError
  | JStr (String c _) => Ok (JStr (String c EmptyString))
  | JStr EmptyString => Raise IndexError
  | _ => Raise TypeError
  end.

(** [x.get(k, default)]: only a dict has the method. *)
Definition method_get (x : json) (k : string) (default : json) : result json :=
  match x with
  | JObj d => Ok (match dict_get k d with Some v => v | None => default end)
  | _ => Raise AttributeError
  end.

(** [x == s] for a [str] s. *)
Definition eq_str (x : json) (s : string) : bool :=
  match x with
  | JStr s' => String.eqb s' s
  | _ => false
  end.

(** Sequencing of steps that may raise. *)
#[global] Instance result_bind : MBind result := fun A B k r =>
  match r with
  | Ok a => k a
  | Raise e => Raise e
  end.

(** [x ← m; k] and [m;; k] run [m] first, then [k]. *)
Definition and_then {T : Type -> Type} `{MBind T} {A B} (m : T A) (k : A -> T B) : T B :=
  mbind k m.

Declare Scope py_scope.
Notation "x ← y ; z" := (and_then y (fun x => z))
  (at level 20, y at level 100, z at level 200, only parsing) : py_scope.
Notation "x ;; z" := (and_then x (fun _ => z))
  (at level 100, z at level 200, only parsing, right associativity) : py_scope.
Local Open Scope py_scope.

(** ** Formatting *)

(** [str(n)] of an int. *)
Definition str_int (n : Z) : string := NilZero.string_of_int (Z.to_int n).

(** Commas between groups of three digits, on the digits in reverse. *)
Fixpoint group3 (fuel : nat) (rev_digits : list ascii) : list ascii :=
  match fuel, rev_digits with
  | S fuel', a :: b :: c :: (_ :: _) as rest =>
      a :: b :: c :: ascii_of_nat 44 :: group3 fuel' rest
  | _, _ => rev_digits
  end.

(** [f"{n:,}"] of a non-negative int. *)
Definition str_int_commas (n : Z) : string :=
  let digits := list_ascii_of_string (str_int n) in
  string_of_list_ascii (rev (group3 (length digits) (rev digits))).

Definition hex_digit (n : N) : ascii :=
  match String.get (N.to_nat n) "0123456789abcdef" with
  | Some c => c
  | None => ascii_of_nat 48
  end.

(** [data.hex()] *)
Fixpoint hex (data : list byte) : string :=
  match data with
  | [] => EmptyString
  | b :: data' =>
      let n := Byte.to_N b in
      String (hex_digit (n / 16)%N) (String (hex_digit (n mod 16)%N) (hex data'))
  end.

(** [name.startswith(prefix)] *)
Definition startswith (name prefix : string) : bool := String.prefix prefix name.

(** ** The libraries *)

Definition bytes := list byte.

(** json, zipfile and hashlib, up to their byte formats.  [content] is what
    a regular file holds (for a zip member, together with the metadata
    [ZipFile.write] copies from the file). *)
Class Library := {
  content : Type;
  (** a file just opened for writing *)
  c_empty : content;
  (** the byte stream of a file opened with ["rb"] *)
  c_bytes : content -> bytes;
  (** [json.load(f)]; [None] when it raises instead of returning *)
  json_load : content -> option json;
  (** the exception [json.load(f)] raises when it does not return:
      [JSONDecodeError] for text that is not JSON, [UnicodeDecodeError]
      for bytes that are not UTF-8, [ValueError] for an integer beyond the
      digit limit, [RecursionError] for nesting that is too deep *)
  json_load_error : content -> exn;
  (** what [json.dump(data, f, indent=4); f.write(newline)] leaves in [f] *)
  json_dump : json -> content;
  (** the archive a [ZipFile] holds once closed, from the members written *)
  zip_archive : list (string * content) -> content;
  (** [ZipFile(path, "r").namelist()]; [None] when the file is no archive *)
  zip_namelist : content -> option (list string);
  (** [hashlib.sha256(data).digest()] *)
  sha256_digest : bytes -> bytes;
  (** the [st_size] the operating system reports for a directory *)
  dir_size : Z
}.

(** What the libraries document and the script relies on: a dumped
    document loads back, and an archive lists the names it was given. *)
Class LibraryLaws (L : Library) := {
  json_load_dump : forall d, json_load (json_dump d) = Some d;
  zip_namelist_archive :
    forall ms, zip_namelist (zip_archive ms) = Some (map fst ms)
}.

(** ** Paths *)

(** An absolute path, as its components below the filesystem root. *)
Definition path := list string.

Definition newline : string := String (ascii_of_nat 10) EmptyString.
Definition slash : ascii := ascii_of_nat 47.

(** [p.as_posix()] of a relative path. *)
Definition as_posix (p : path) : string := String.concat "/" p.

(** [str(p)] of an absolute path. *)
Definition path_str (p : path) : string := "/" +:+ String.concat "/" p.

(** The components of a string: split at ["/"]; empty components and
    ["."] are dropped, as pathlib does. *)
Fixpoint split_slash (s : string) (cur : string) : list string :=
  match s with
  | EmptyString => [cur]
  | String c s' =>
      if Ascii.eqb c slash then cur :: split_slash s' EmptyString
      else split_slash s' (cur +:+ String c EmptyString)
  end.

Definition keep_part (s : string) : bool :=
  negb (String.eqb s EmptyString || String.eqb s ".").

Definition parse_parts (s : string) : path :=
  List.filter keep_part (split_slash s EmptyString).

(** [p / s] *)
Definition joinpath (p : path) (s : string) : path :=
  match s with
  | String c _ => if Ascii.eqb c slash then parse_parts s else p ++ parse_parts s
  | EmptyString => p
  end.

(** [p.name] *)
Definition path_name (p : path) : string := List.last p EmptyString.

(** [p.relative_to(root)] *)
Fixpoint relative_to (p root : path) {struct root} : result path :=
  match root, p with
  | [], _ => Ok p
  | r :: root', x :: p' =>
      if String.eqb r x then relative_to p' root' else Raise ValueError
  | _ :: _, [] => Raise ValueError
  end.

(** [p] lies strictly below [d]. *)
Definition below (d p : path) : bool :=
  match relative_to p d with
  | Ok (_ :: _) => true
  | _ => false
  end.

(** The order of [Path] objects: component lists, compared at the first
    component that differs, each component as a string; a proper prefix
    comes first. *)
Fixpoint path_leb (p q : path) : bool :=
  match p, q with
  | [], _ => true
  | _ :: _, [] => false
  | x :: p', y :: q' => if String.eqb x y then path_leb p' q' else String.leb x y
  end.

Definition path_le (p q : path) : Prop := path_leb p q = true.

#[global] Instance path_le_dec : RelDecision path_le.
Proof. intros p q. unfold path_le. apply _. Defined.

(** [sorted(paths)] *)
Definition sorted (ps : list path) : list path := merge_sort path_le ps.

(** ** The world: a filesystem and the console *)

Section World.
Context {L : Library}.

Inductive entry :=
  | F (c : content)
  | D.

(** The filesystem lists each existing path with what is there.  The order
    of the list is the order in which the operating system happens to
    enumerate (what [os.scandir] and so [rglob] return): it carries no
    meaning, and the archive is shown below not to depend on it. *)
Definition filesystem := list (path * entry).

Record world := World {
  fs : filesystem;
  stdout : list string
}.

Fixpoint entry_at (p : path) (l : filesystem) : option entry :=
  match l with
  | [] => None
  | (q, e) :: l' => if decide (q = p) then Some e else entry_at p l'
  end.

(** What is at [p]; the filesystem root is a directory. *)
Definition lookup_path (p : path) (l : filesystem) : option entry :=
  match p with
  | [] => Some D
  | _ => entry_at p l
  end.

(** Replace what is at [p], keeping its place in the listing. *)
Fixpoint replace_entry (p : path) (e : entry) (l : filesystem) : filesystem :=
  match l with
  | [] => []
  | (q, e') :: l' =>
      if decide (q = p) then (q, e) :: l' else (q, e') :: replace_entry p e l'
  end.

Definition parent (p : path) : path := removelast p.

Definition is_file_in (l : filesystem) (p : path) : bool :=
  match lookup_path p l with
  | Some (F _) => true
  | _ => false
  end.

Definition is_dir_in (l : filesystem) (p : path) : bool :=
  match lookup_path p l with
  | Some D => true
  | _ => false
  end.

(** Everything strictly below [d], in the order of the listing. *)
Definition listing_below (l : filesystem) (d : path) : list path :=
  map fst (List.filter (fun pe => below d (fst pe)) l).

(** The proper prefixes of a path: the directories on the way to it. *)
Fixpoint ancestors (p : path) : list path :=
  match p with
  | [] => []
  | x :: p' => [] :: map (cons x) (ancestors p')
  end.

(** What [open] and [stat] raise on a path at which there is nothing: a
    regular file on the way is not a directory, otherwise some component
    does not exist. *)
Definition missing_error (l : filesystem) (p : path) : exn :=
  if existsb (is_file_in l) (ancestors p) then NotADirectoryError
  else FileNotFoundError.

(** A computation: may change the world, returns or raises. *)
Definition M (A : Type) : Type := world -> world * result A.

Definition ret {A} (a : A) : M A := fun w => (w, Ok a).
Definition raise {A} (e : exn) : M A := fun w => (w, Raise e).
Definition bind {A B} (m : M A) (k : A -> M B) : M B :=
  fun w =>
    match m w with
    | (w', Ok a) => k a w'
    | (w', Raise e) => (w', Raise e)
    end.
Definition lift {A} (r : result A) : M A := fun w => (w, r).

End World.

#[global] Instance M_bind {L : Library} : MBind M := fun A B k m => bind m k.
#[global] Instance M_ret {L : Library} : MRet M := fun A a => ret a.

Section Script.
Context {L : Library}.

(** [for x in xs: s = body(x, s)] *)
Fixpoint for_each {A S} (xs : list A) (body : A -> S -> M S) (s : S) : M S :=
  match xs with
  | [] => ret s
  | x :: xs' => s' ← body x s; for_each xs' body s'
  end.

Definition print (line : string) : M unit :=
  fun w => (World (fs w) (stdout w ++ [line]), Ok tt).

Definition is_file (p : path) : M bool :=
  fun w => (w, Ok (is_file_in (fs w) p)).

Definition is_dir (p : path) : M bool :=
  fun w => (w, Ok (is_dir_in (fs w) p)).

(** [d.rglob("*")]: everything strictly below [d], in the order the
    operating system enumerates it. *)
Definition rglob (d : path) : M (list path) :=
  fun w => (w, Ok (listing_below (fs w) d)).

(** The whole of a file opened for reading. *)
Definition read_file (p : path) : M content :=
  fun w =>
    match lookup_path p (fs w) with
    | Some (F c) => (w, Ok c)
    | Some D => (w, Raise IsADirectoryError)
    | None => (w, Raise (missing_error (fs w) p))
    end.

(** [p.stat().st_size] *)
Definition st_size (p : path) : M Z :=
  fun w =>
    match lookup_path p (fs w) with
    | Some (F c) => (w, Ok (Z.of_nat (length (c_bytes c))))
    | Some D => (w, Ok dir_size)
    | None => (w, Raise (missing_error (fs w) p))
    end.

(** [open(p, "w")]: the file is created in its directory, or emptied, at
    once. *)
Definition open_w (p : path) : M unit :=
  fun w =>
    match lookup_path p (fs w) with
    | Some (F _) => (World (replace_entry p (F c_empty) (fs w)) (stdout w), Ok tt)
    | Some D => (w, Raise IsADirectoryError)
    | None =>
        match lookup_path (parent p) (fs w) with
        | Some D => (World (fs w ++ [(p, F c_empty)]) (stdout w), Ok tt)
        | Some (F _) | None => (w, Raise (missing_error (fs w) p))
        end
    end.

(** What an open file holds once written and closed. *)
Definition write_file (p : path) (c : content) : M unit :=
  fun w => (World (replace_entry p (F c) (fs w)) (stdout w), Ok tt).

(** [with open(p, "r") as f: data = json.load(f)] *)
Definition load_json_file (p : path) : M json :=
  c ← read_file p;
  match json_load c with
  | Some d => ret d
  | None => raise (json_load_error c)
  end.

(** [with open(p, "w") as f: json.dump(data, f, indent=4); f.write(newline)] *)
Definition dump_json_file (p : path) (data : json) : M unit :=
  open_w p;;
  write_file p (json_dump data).

(** *** compute_install_size *)

Definition compute_install_size (directories : list path) : M Z :=
  for_each directories (fun d total =>
    d_is_dir ← is_dir d;
    if d_is_dir then
      found ← rglob d;
      for_each found (fun f total =>
        f_is_file ← is_file f;
        if f_is_file then size ← st_size f; mret (total + size)
        else mret total) total
    else
      d_is_file ← is_file d;
      if d_is_file then size ← st_size d; mret (total + size)
      else mret total) 0.

(** *** create_zip_archive *)

Definition member : Type := string * content.

Definition items_to_include (root : path) : list path :=
  [ root ++ ["metadata.json"];
    root ++ ["resources"];
    root ++ ["symbols"];
    root ++ ["footprints"];
    root ++ ["3dmodels"] ].

(** The output is none of the items and lies below none: the archive is
    not among the files it is built from. *)
Definition outside_items (root out : path) : bool :=
  forallb (fun item => negb (bool_decide (item = out)) && negb (below item out))
    (items_to_include root).

(** [zf.write(file_path, arcname)]: the archive gains one member.  A file
    that can be read is taken to be one [ZipFile.write] accepts. *)
Definition zf_write (file_path : path) (arcname : string) (zf : list member)
  : M (list member) :=
  c ← read_file file_path;
  mret (zf ++ [(arcname, c)]).

(** Opening the [ZipFile] for writing creates (or empties) the output file
    before anything is read; closing it leaves the archive of the members
    written.  While it is open the file is modelled as empty: what a member
    made of the output itself would hold is not modelled, and the
    properties that speak of the members' content take an output that is
    [outside_items]. *)
Definition create_zip_archive (output_path root : path) : M path :=
  open_w output_path;;
  zf ← for_each (items_to_include root) (fun item zf =>
    item_is_file ← is_file item;
    if item_is_file then
      rel ← lift (relative_to item root);
      zf_write item (as_posix rel) zf
    else
      item_is_dir ← is_dir item;
      if item_is_dir then
        found ← rglob item;
        for_each (sorted found) (fun file_path zf =>
          path_is_file ← is_file file_path;
          if path_is_file then
            rel ← lift (relative_to file_path root);
            zf_write file_path (as_posix rel) zf
          else mret zf) zf
      else mret zf) [];
  write_file output_path (zip_archive zf);;
  mret output_path.

(** *** compute_sha256 *)

(** A [hashlib.sha256()] object: what has been fed to it so far. *)
Record hasher := Hasher { fed : bytes }.

Definition sha256_new : hasher := Hasher [].
Definition sha256_update (h : hasher) (chunk : bytes) : hasher :=
  Hasher (fed h ++ chunk).
Definition sha256_hexdigest (h : hasher) : string := hex (sha256_digest (fed h)).

Definition CHUNK : nat := Z.to_nat 8192.

(** A value together with the fact that it is the one computed. *)
Definition inspect {A} (a : A) : {b | a = b} := exist _ a eq_refl.

(** [for chunk in iter(lambda: f.read(n), <empty bytes>): sha256.update(chunk)],
    with [rest] what the open file still has to give: [f.read(n)] returns
    [take n rest] and leaves [drop n rest]. *)
Equations? read_chunks (n : nat) (h : hasher) (rest : bytes) : hasher
  by wf (length rest) lt :=
  read_chunks n h rest with inspect (take n rest) := {
    | exist _ nil _ => h
    | exist _ (cons b chunk') Hchunk =>
        read_chunks n (sha256_update h (cons b chunk')) (drop n rest) }.
Proof.
  destruct n as [|n]; [discriminate|].
  destruct rest as [|b' rest]; [discriminate|].
  rewrite length_drop. simpl. lia.
Qed.

Definition compute_sha256 (file_path : path) : M string :=
  c ← read_file file_path;
  mret (sha256_hexdigest (read_chunks CHUNK sha256_new (c_bytes c))).

(** *** update_packages_json *)

Definition download_url (version tag : string) : string :=
  "https://github.com/Alex-C-EE/PULSAR-KiCad-Lib/releases/download/" +:+ tag +:+ "/"
  +:+ "PULSAR-KiCad-Lib-" +:+ version +:+ ".zip".

Definition new_version_entry (version tag sha256 : string)
    (download_size install_size : Z) : json :=
  JObj [ ("version", JStr version);
         ("status", JStr "stable");
         ("kicad_version", JStr "8.0");
         ("download_url", JStr (download_url version tag));
         ("download_sha256", JStr sha256);
         ("download_size", JInt download_size);
         ("install_size", JInt install_size) ].

(** The scan [for i, v in enumerate(versions): if v["version"] == version]:
    the index at which it breaks, [None] when it runs to the end. *)
Fixpoint find_version (version : string) (versions : list json) (i : nat)
  : result (option nat) :=
  match versions with
  | [] => Ok None
  | v :: rest =>
      ver ← getitem_str v "version";
      if eq_str ver version then Ok (Some i)
      else find_version version rest (S i)
  end.

(** Replace or append, on whatever [pkg.get("versions", [])] returned.  A
    dict or a str is iterated (keys, characters) and its elements, being
    strings, fail at [v["version"]]; when empty the loop does not run and
    [append] is missing; anything else cannot be enumerated. *)
Definition upsert_version (version : string) (entry : json) (versions : json)
  : result json :=
  match versions with
  | JArr vs =>
      found ← find_version version vs 0%nat;
      match found with
      | Some i => Ok (JArr (<[i := entry]> vs))
      | None => Ok (JArr (vs ++ [entry]))
      end
  | JObj [] | JStr EmptyString => Raise AttributeError
  | _ => Raise TypeError
  end.

(** Lines 91 to 118, on the loaded document.  [pkg] and [versions] are the
    objects inside [data], so the document read back at the end is [data]
    with the new list in its first package. *)
Definition update_document (version tag sha256 : string)
    (download_size install_size : Z) (data : json) : result json :=
  let entry := new_version_entry version tag sha256 download_size install_size in
  packages ← getitem_str data "packages";
  pkg ← getitem_0 packages;
  versions ← method_get pkg "versions" (JArr []);
  versions' ← upsert_version version entry versions;
  match data, packages, pkg with
  | JObj top, JArr (_ :: others), JObj fields =>
      Ok (JObj (dict_set "packages"
                  (JArr (JObj (dict_set "versions" versions' fields) :: others)) top))
  | _, _, _ => Raise TypeError
  end.

Definition update_packages_json (packages_json_path : path)
    (version tag sha256 : string) (download_size install_size : Z) : M unit :=
  data ← load_json_file packages_json_path;
  data' ← lift (update_document version tag sha256 download_size install_size data);
  dump_json_file packages_json_path data';;
  print ("Updated " +:+ path_str packages_json_path).

(** *** update_metadata_json *)

Definition metadata_version_entry (version : string) : json :=
  JObj [ ("version", JStr version);
         ("status", JStr "stable");
         ("kicad_version", JStr "8.0") ].

(** [data["versions"] = [...]] *)
Definition set_versions (version : string) (data : json) : result json :=
  match data with
  | JObj top => Ok (JObj (dict_set "versions" (JArr [metadata_version_entry version]) top))
  | _ => Raise TypeError
  end.

Definition update_metadata_json (metadata_path : path) (version : string) : M unit :=
  data ← load_json_file metadata_path;
  data' ← lift (set_versions version data);
  dump_json_file metadata_path data';;
  print ("Updated " +:+ path_str metadata_path).

(** *** main *)

Definition required : list string := ["metadata.json"].
Definition required_prefixes : list string := ["symbols/"; "footprints/"].

(** [req in names] *)
Definition name_in (req : string) (names : list string) : bool :=
  existsb (String.eqb req) names.

(** [any(n.startswith(prefix) for n in names)] *)
Definition any_startswith (prefix : string) (names : list string) : bool :=
  existsb (fun n => startswith n prefix) names.

(** The condition of the last line of the validation. *)
Definition structure_ok (names : list string) : bool :=
  forallb (fun req => name_in req names) required
  && forallb (fun p => any_startswith p names) required_prefixes.

(** Lines 188 to 204: the validation of the archive just written. *)
Definition validate_zip (output_zip : path) : M unit :=
  print (newline +:+ "Validating ZIP structure...");;
  c ← read_file output_zip;
  names ← lift (match zip_namelist c with
                | Some names => Ok names
                | None => Raise BadZipFile
                end);
  for_each required (fun req _ =>
    if negb (name_in req names)
    then print ("  WARNING: Missing required file: " +:+ req)
    else mret tt) tt;;
  for_each required_prefixes (fun prefix _ =>
    if negb (any_startswith prefix names)
    then print ("  WARNING: Missing required directory: " +:+ prefix)
    else mret tt) tt;;
  print ("  Archive contains " +:+ str_int (Z.of_nat (length names)) +:+ " files");;
  print (if structure_ok names then "  Structure looks good!"
         else "  WARNING: Archive may have issues").

(** [args.tag or f"v{version}"]: an empty tag counts as none. *)
Definition effective_tag (version : string) (tag : option string) : string :=
  match tag with
  | Some (String c t) => String c t
  | _ => "v" +:+ version
  end.

Definition output_zip_path (root : path) (version : string) : path :=
  joinpath root ("PULSAR-KiCad-Lib-" +:+ version +:+ ".zip").

(** Lines 153 to 185: everything [main] does before it validates.  [root]
    is what [get_repo_root()] returns, [version] and [tag] are the parsed
    arguments. *)
Definition package (root : path) (version : string) (tag : option string) : M unit :=
  let tag := effective_tag version tag in
  let output_zip := output_zip_path root version in
  print ("Packaging PULSAR KiCad Library v" +:+ version +:+ "...");;
  print ("  Repository root: " +:+ path_str root);;
  update_metadata_json (root ++ ["metadata.json"]) version;;
  install_size ← compute_install_size (items_to_include root);
  create_zip_archive output_zip root;;
  download_size ← st_size output_zip;
  sha256 ← compute_sha256 output_zip;
  print (newline +:+ "  Output:       " +:+ path_str output_zip);;
  print ("  SHA256:       " +:+ sha256);;
  print ("  Download size: " +:+ str_int_commas download_size +:+ " bytes");;
  print ("  Install size:  " +:+ str_int_commas install_size +:+ " bytes");;
  update_packages_json (root ++ ["docs"; "packages.json"]) version tag sha256
    download_size install_size.

Definition main (root : path) (version : string) (tag : option string) : M unit :=
  package root version tag;;
  validate_zip (output_zip_path root version);;
  print (newline +:+ "Done! Upload " +:+ path_name (output_zip_path root version)
         +:+ " as a GitHub Release asset for tag " +:+ effective_tag version tag).

(** The exit status of the process that ran [main]. *)
Definition exit_status {A} (r : result A) : Z :=
  match r with
  | Ok _ => 0
  | Raise _ => 1
  end.

End Script.

(** ** The specification's reading of the install size *)

Section InstallSizeSpec.
Context {L : Library}.

Definition file_size (l : filesystem) (p : path) : Z :=
  match lookup_path p l with
  | Some (F c) => Z.of_nat (length (c_bytes c))
  | _ => 0
  end.

(** The regular files reachable from one input: the input itself when it
    is a file, the files below it when it is a directory, nothing when it
    does not exist. *)
Definition reachable_from (l : filesystem) (d : path) : list path :=
  match lookup_path d l with
  | Some D => List.filter (is_file_in l) (listing_below l d)
  | Some (F _) => [d]
  | None => []
  end.

Definition sum_sizes (l : filesystem) (ps : list path) : Z :=
  foldr (fun p acc => file_size l p + acc) 0 ps.

(** The sum of the byte lengths of all regular files reachable from the
    inputs, each file counted once. *)
Definition reachable_size (l : filesystem) (inputs : list path) : Z :=
  sum_sizes l (remove_dups (concat (map (reachable_from l) inputs))).

End InstallSizeSpec.

(** ** What the loops of the script come to *)

Section ClosedForms.
Context {L : Library}.

Definition content_at (l : filesystem) (p : path) : content :=
  match lookup_path p l with
  | Some (F c) => c
  | _ => c_empty
  end.

(** The member name [create_zip_archive] gives the file at [p]. *)
Definition arcname (root p : path) : string :=
  match relative_to p root with
  | Ok rel => as_posix rel
  | Raise _ => EmptyString
  end.

Definition member_of (l : filesystem) (root p : path) : member :=
  (arcname root p, content_at l p).

(** The members one item of [items_to_include] brings: itself when it is a
    file, the files below it in sorted order when it is a directory,
    nothing otherwise. *)
Definition item_members (l : filesystem) (root item : path) : list member :=
  match lookup_path item l with
  | Some (F _) => [member_of l root item]
  | Some D =>
      map (member_of l root) (List.filter (is_file_in l) (sorted (listing_below l item)))
  | None => []
  end.

Definition archive_members (l : filesystem) (root : path) : list member :=
  concat (map (item_members l root) (items_to_include root)).

(** The lines the validation prints for an archive with these names. *)
Definition validation_lines (names : list string) : list string :=
  [newline +:+ "Validating ZIP structure..."]
  ++ concat (map (fun req =>
       if negb (name_in req names)
       then ["  WARNING: Missing required file: " +:+ req] else []) required)
  ++ concat (map (fun prefix =>
       if negb (any_startswith prefix names)
       then ["  WARNING: Missing required directory: " +:+ prefix] else [])
       required_prefixes)
  ++ [ "  Archive contains " +:+ str_int (Z.of_nat (length names)) +:+ " files";
       if structure_ok names then "  Structure looks good!"
       else "  WARNING: Archive may have issues" ].

End ClosedForms.

(** ** A library to run the script on *)

Module Demo.

(** Files tagged by what wrote them: raw bytes, a dumped JSON document, a
    closed archive. *)
#[local] Unset Elimination Schemes.
Inductive file :=
  | Raw (data : bytes)
  | JsonText (d : json)
  | Archive (members : list (string * file)).
#[local] Set Elimination Schemes.

Definition file_bytes (f : file) : bytes :=
  match f with
  | Raw data => data
  | JsonText _ => [Byte.x7b; Byte.x7d; Byte.x0a]
  | Archive members => [Byte.x50; Byte.x4b]
  end.

#[local] Instance library : Library := {|
  content := file;
  c_empty := Raw [];
  c_bytes := file_bytes;
  json_load := fun f => match f with JsonText d => Some d | _ => None end;
  json_load_error :=
    fun f => match f with Archive _ => UnicodeDecodeError | _ => JSONDecodeError end;
  json_dump := JsonText;
  zip_archive := Archive;
  zip_namelist := fun f => match f with Archive ms => Some (map fst ms) | _ => None end;
  sha256_digest := fun data => take 4 data;
  dir_size := 4096
|}.

Definition manifest (versions : list json) : json :=
  JObj [ ("packages",
          JArr [ JObj [ ("name", JStr "PULSAR"); ("versions", JArr versions) ] ]) ].

Definition record (version status : string) : json :=
  JObj [ ("version", JStr version); ("status", JStr status) ].

Definition root : path := ["repo"].

(** A repository with everything [main] needs but no footprints. *)
Definition repo : filesystem :=
  [ (["repo"], D);
    (["repo"; "symbols"], D);
    (["repo"; "symbols"; "b.kicad_sym"], F (Raw [Byte.x01; Byte.x02]));
    (["repo"; "symbols"; "a.kicad_sym"], F (Raw [Byte.x03]));
    (["repo"; "metadata.json"], F (JsonText (JObj [("name", JStr "PULSAR")])));
    (["repo"; "docs"], D);
    (["repo"; "docs"; "packages.json"], F (JsonText (manifest [record "0.9.0" "stable"]))) ].

End Demo.

(** ** Reading a manifest *)

(** [v["version"]], when [v] has one. *)
Definition version_of (v : json) : option json :=
  match v with
  | JObj d => dict_get "version" d
  | _ => None
  end.

(** [v] is a version record: an object with a ["version"] key. *)
Definition is_record (v : json) : bool :=
  match version_of v with
  | Some _ => true
  | None => false
  end.

(** The version string of [v] is [version]. *)
Definition has_version (version : string) (v : json) : bool :=
  match version_of v with
  | Some ver => eq_str ver version
  | None => false
  end.

(** What the top-level ["packages"] key maps to. *)
Definition packages_of (data : json) : option json :=
  match data with
  | JObj top => dict_get "packages" top
  | _ => None
  end.

(** The versions list of the first package. *)
Definition manifest_versions (data : json) : option (list json) :=
  match packages_of data with
  | Some (JArr (JObj fields :: _)) =>
      match dict_get "versions" fields with
      | Some (JArr vs) => Some vs
      | _ => None
      end
  | _ => None
  end.

(** The document with the versions list of its first package set. *)
Definition with_versions (vs : list json) (data : json) : json :=
  match data with
  | JObj top =>
      match dict_get "packages" top with
      | Some (JArr (JObj fields :: others)) =>
          JObj (dict_set "packages"
                  (JArr (JObj (dict_set "versions" (JArr vs) fields) :: others)) top)
      | _ => data
      end
  | _ => data
  end.

(** What the scan of [update_packages_json] has seen when it breaks at
    index [i]: a match at [i], and before it only records of other
    versions. *)
Definition first_match (version : string) (vs : list json) (i : nat) : Prop :=
  (exists v, vs !! i = Some v /\ has_version version v = true)
  /\ forall j v, (j < i)%nat -> vs !! j = Some v ->
       is_record v = true /\ has_version version v = false.

(** The list after the scan: replaced at the index found, or appended. *)
Definition upserted (entry : json) (vs : list json) (found : option nat) : list json :=
  match found with
  | Some i => <[i := entry]> vs
  | None => vs ++ [entry]
  end.

(** ** Measures used by the further properties *)

(** No component separator in the string. *)
Fixpoint no_slash (s : string) : bool :=
  match s with
  | EmptyString => true
  | String c s' => negb (Ascii.eqb c slash) && no_slash s'
  end.

Section Measures.
Context {L : Library}.

(** The total byte length of the members of an archive. *)
Definition members_size (ms : list member) : Z :=
  foldr (fun m acc => Z.of_nat (length (c_bytes (snd m))) + acc) 0 ms.

(** The paths of the files one item of [items_to_include] brings, in the
    order their members are written. *)
Definition item_paths (l : filesystem) (item : path) : list path :=
  match lookup_path item l with
  | Some (F _) => [item]
  | Some D => List.filter (is_file_in l) (sorted (listing_below l item))
  | None => []
  end.

(** The lines [main] prints between the archive and the manifest. *)
Definition summary_lines (out : path) (sha : string) (download_size install_size : Z)
  : list string :=
  [ newline +:+ "  Output:       " +:+ path_str out;
    "  SHA256:       " +:+ sha;
    "  Download size: " +:+ str_int_commas download_size +:+ " bytes";
    "  Install size:  " +:+ str_int_commas install_size +:+ " bytes" ].

End Measures.

(** More trees to run the script on. *)
Module DemoTrees.

Definition out : path := ["repo"; "out.zip"].

(** The demo repository with the output file open. *)
Definition opened : list (path * @entry Demo.library) :=
  Demo.repo ++ [(out, @F Demo.library (Demo.Raw []))].

(** A repository with symbols and footprints, the output file open. *)
Definition full_opened : list (path * @entry Demo.library) :=
  [ (["repo"], @D Demo.library);
    (["repo"; "metadata.json"],
     @F Demo.library (Demo.JsonText (JObj [("name", JStr "PULSAR")])));
    (["repo"; "symbols"], @D Demo.library);
    (["repo"; "symbols"; "x.kicad_sym"], @F Demo.library (Demo.Raw [Byte.x01]));
    (["repo"; "footprints"], @D Demo.library);
    (["repo"; "footprints"; "PULSAR.pretty"], @D Demo.library);
    (["repo"; "footprints"; "PULSAR.pretty"; "y.kicad_mod"],
     @F Demo.library (Demo.Raw [Byte.x02; Byte.x03]));
    (out, @F Demo.library (Demo.Raw [])) ].

(** A repository without a manifest. *)
Definition no_manifest : list (path * @entry Demo.library) :=
  [ (["repo"], @D Demo.library);
    (["repo"; "metadata.json"],
     @F Demo.library (Demo.JsonText (JObj [("name", JStr "PULSAR")]))) ].

(** A manifest whose second entry has no version, before an entry of the
    version asked for. *)
Definition bad_manifest : list (path * @entry Demo.library) :=
  [ (["m.json"],
     @F Demo.library
       (Demo.JsonText
          (Demo.manifest [ Demo.record "0.9.0" "stable";
                           JObj [("status", JStr "stable")];
                           Demo.record "1.0.0" "stable" ]))) ].

(** A metadata file that holds a list. *)
Definition list_document : list (path * @entry Demo.library) :=
  [ (["list.json"], @F Demo.library (Demo.JsonText (JArr []))) ].

(** A repository in which [docs] is a regular file. *)
Definition docs_is_file : list (path * @entry Demo.library) :=
  no_manifest ++ [ (["repo"; "docs"], @F Demo.library (Demo.Raw [])) ].

(** An archive that has the metadata and a symbol, and no footprint. *)
Definition with_archive : list (path * @entry Demo.library) :=
  [ (["a.zip"],
     @F Demo.library
       (Demo.Archive [ ("metadata.json", Demo.Raw []);
                       ("symbols/a.kicad_sym", Demo.Raw []) ])) ].

End DemoTrees.

(** * Properties *)

(** ** The script on small inputs *)

Section Examples.
#[local] Existing Instance Demo.library.

(** Versions [A, B]: upserting A replaces it where it stands. *)
Example upsert_existing :
  option_map (map (fun v => (version_of v, getitem_str v "status")))
    (match update_document "A" "vA" "ab" 1 2
             (Demo.manifest [Demo.record "A" "old"; Demo.record "B" "old"]) with
     | Ok data' => manifest_versions data'
     | Raise _ => None
     end)
  = Some [ (Some (JStr "A"), Ok (JStr "stable")); (Some (JStr "B"), Ok (JStr "old")) ].
Proof. reflexivity. Qed.

(** Versions [A, B]: upserting C appends it. *)
Example upsert_new :
  option_map (map version_of)
    (match update_document "C" "vC" "ab" 1 2
             (Demo.manifest [Demo.record "A" "old"; Demo.record "B" "old"]) with
     | Ok data' => manifest_versions data'
     | Raise _ => None
     end)
  = Some [ Some (JStr "A"); Some (JStr "B"); Some (JStr "C") ].
Proof. reflexivity. Qed.

(** An entry without a ["version"] key stops the scan with a [KeyError]. *)
Example upsert_entry_without_version :
  update_document "A" "vA" "ab" 1 2 (Demo.manifest [JObj [("status", JStr "old")]])
  = Raise KeyError.
Proof. reflexivity. Qed.

Example sorted_by_components :
  sorted [["a"; "b"]; ["a-b"; "x"]; ["a"]; ["A"]]
  = [["A"]; ["a"]; ["a"; "b"]; ["a-b"; "x"]].
Proof. reflexivity. Qed.

Example chunks_of_two :
  fed (read_chunks 2 sha256_new [Byte.x01; Byte.x02; Byte.x03; Byte.x04; Byte.x05])
  = [Byte.x01; Byte.x02; Byte.x03; Byte.x04; Byte.x05].
Proof. reflexivity. Qed.

Example commas : str_int_commas 1234567 = "1,234,567" /\ str_int_commas 999 = "999".
Proof. split; reflexivity. Qed.

Example output_name :
  output_zip_path ["repo"] "2.0.0" = ["repo"; "PULSAR-KiCad-Lib-2.0.0.zip"].
Proof. reflexivity. Qed.

(** [main] on the demo repository, which has no footprints: the run
    succeeds, the archive lists the metadata and the two symbol files in
    sorted order, and the warnings are printed. *)
Example main_without_footprints :
  let '(w, r) := main Demo.root "1.0.0" None (World Demo.repo []) in
  r = Ok tt
  /\ option_map (fun e => match e with
                          | F c => zip_namelist c
                          | D => None
                          end)
       (lookup_path ["repo"; "PULSAR-KiCad-Lib-1.0.0.zip"] (fs w))
     = Some (Some ["metadata.json"; "symbols/a.kicad_sym"; "symbols/b.kicad_sym"])
  /\ drop 8 (stdout w)
     = [ newline +:+ "Validating ZIP structure...";
         "  WARNING: Missing required directory: footprints/";
         "  Archive contains 3 files";
         "  WARNING: Archive may have issues";
         newline +:+ "Done! Upload PULSAR-KiCad-Lib-1.0.0.zip as a GitHub Release asset for tag v1.0.0" ].
Proof. vm_compute. repeat split; reflexivity. Qed.

End Examples.

(** ** Running a computation *)

Section Run.
Context {L : Library}.

Lemma run_bind {A B} (m : M A) (k : A -> M B) (w : world) :
  and_then m k w =
  match m w with
  | (w', Ok a) => k a w'
  | (w', Raise e) => (w', Raise e)
  end.
Proof. reflexivity. Qed.

Lemma run_bind_ok {A B} (m : M A) (k : A -> M B) (w w' : world) (a : A) :
  m w = (w', Ok a) -> and_then m k w = k a w'.
Proof. intros H. rewrite run_bind, H. reflexivity. Qed.

Lemma run_bind_raise {A B} (m : M A) (k : A -> M B) (w w' : world) (e : exn) :
  m w = (w', Raise e) -> and_then m k w = (w', Raise e).
Proof. intros H. rewrite run_bind, H. reflexivity. Qed.

Lemma run_ret {A} (a : A) (w : world) : (mret a : M A) w = (w, Ok a).
Proof. reflexivity. Qed.

End Run.

(** ** compute_sha256 *)

Section Hash.
Context {L : Library}.

(** Reading in chunks of any positive size feeds the hash object the whole
    stream, in order. *)
Lemma read_chunks_fed (n : nat) (h : hasher) (rest : bytes) :
  (0 < n)%nat -> fed (read_chunks n h rest) = fed h ++ rest.
Proof.
  intros Hn. funelim (read_chunks n h rest).
  - clear Heqcall. destruct rest as [|b rest].
    + rewrite app_nil_r. reflexivity.
    + destruct n; [lia | discriminate].
  - rewrite H by assumption.
    unfold sha256_update. simpl fed. rewrite <- Hchunk.
    rewrite <- app_assoc, take_drop. reflexivity.
Qed.

(** With a chunk size of zero the first read is already empty. *)
Lemma read_chunks_zero (h : hasher) (rest : bytes) : read_chunks 0 h rest = h.
Proof. funelim (read_chunks 0 h rest); [reflexivity | discriminate]. Qed.

Lemma CHUNK_pos : (0 < CHUNK)%nat.
Proof. unfold CHUNK. lia. Qed.

(** C8. For every regular file, [compute_sha256] returns (and cannot fail
    to return) the hex digest of the file's whole byte stream: hashing in
    chunks of 8192 bytes, or of any other positive size, equals hashing the
    content in one go; and two files with the same bytes get the same hex
    string. *)
Theorem compute_sha256_whole_stream (w : world) (file_path : path) (c : content) :
  lookup_path file_path (fs w) = Some (F c) ->
  compute_sha256 file_path w = (w, Ok (hex (sha256_digest (c_bytes c))))
  /\ (forall n, (0 < n)%nat ->
        sha256_hexdigest (read_chunks n sha256_new (c_bytes c))
        = hex (sha256_digest (c_bytes c)))
  /\ (forall w' file_path' c',
        lookup_path file_path' (fs w') = Some (F c') ->
        c_bytes c' = c_bytes c ->
        snd (compute_sha256 file_path' w') = snd (compute_sha256 file_path w)).
Proof.
  assert (Hone : forall w0 p0 c0, lookup_path p0 (fs w0) = Some (F c0) ->
            compute_sha256 p0 w0 = (w0, Ok (hex (sha256_digest (c_bytes c0))))).
  { intros w0 p0 c0 H0. unfold compute_sha256.
    rewrite (run_bind_ok _ _ w0 w0 c0) by (unfold read_file; rewrite H0; reflexivity).
    rewrite run_ret. unfold sha256_hexdigest.
    rewrite read_chunks_fed by apply CHUNK_pos. reflexivity. }
  intros Hp. split; [|split].
  - apply Hone, Hp.
  - intros n Hn. unfold sha256_hexdigest. rewrite read_chunks_fed by assumption.
    reflexivity.
  - intros w' p' c' Hp' Hb. rewrite (Hone _ _ _ Hp'), (Hone _ _ _ Hp), Hb.
    reflexivity.
Qed.

End Hash.

Lemma compute_sha256_whole_stream_witness :
  compute_sha256 (L := Demo.library) ["repo"; "symbols"; "b.kicad_sym"]
    (World Demo.repo [])
  = (World Demo.repo [], Ok "0102").
Proof.
  destruct (compute_sha256_whole_stream (L := Demo.library) (World Demo.repo [])
              ["repo"; "symbols"; "b.kicad_sym"] (Demo.Raw [Byte.x01; Byte.x02])
              eq_refl) as [H _].
  exact H.
Defined.

(** ** Dictionaries and the filesystem listing *)

Lemma dict_get_set_eq (k : string) (v : json) (d : dict) :
  dict_get k (dict_set k v d) = Some v.
Proof.
  induction d as [|[k' v'] d IH]; simpl.
  - rewrite String.eqb_refl. reflexivity.
  - destruct (String.eqb k' k) eqn:E; simpl; rewrite E; [reflexivity | exact IH].
Qed.

Lemma dict_get_set_ne (k k' : string) (v : json) (d : dict) :
  k <> k' -> dict_get k' (dict_set k v d) = dict_get k' d.
Proof.
  intros Hne. induction d as [|[k0 v0] d IH]; simpl.
  - apply String.eqb_neq in Hne. rewrite Hne. reflexivity.
  - destruct (String.eqb k0 k) eqn:E; simpl.
    + apply String.eqb_eq in E. subst k0.
      apply String.eqb_neq in Hne. rewrite Hne. reflexivity.
    + destruct (String.eqb k0 k'); [reflexivity | exact IH].
Qed.

Lemma dict_set_set (k : string) (v v' : json) (d : dict) :
  dict_set k v (dict_set k v' d) = dict_set k v d.
Proof.
  induction d as [|[k0 v0] d IH]; simpl.
  - rewrite String.eqb_refl. reflexivity.
  - destruct (String.eqb k0 k) eqn:E; simpl; rewrite E; [reflexivity|].
    rewrite IH. reflexivity.
Qed.

Lemma eq_str_true (x : json) (s : string) : eq_str x s = true <-> x = JStr s.
Proof.
  destruct x; simpl; try (split; [discriminate | intros [=]]).
  rewrite String.eqb_eq. split; [intros ->; reflexivity | intros [=]; assumption].
Qed.

Lemma has_version_spec (version : string) (v : json) :
  has_version version v = true <-> version_of v = Some (JStr version).
Proof.
  unfold has_version. destruct (version_of v) as [ver|].
  - rewrite eq_str_true. split; [intros ->; reflexivity | intros [=]; assumption].
  - split; discriminate.
Qed.

Lemma getitem_version (v : json) :
  match version_of v with
  | Some ver => getitem_str v "version" = Ok ver
  | None => exists e, getitem_str v "version" = Raise e
  end.
Proof.
  destruct v; simpl; eauto.
  destruct (dict_get "version" fields); eauto.
Qed.

Section Listing.
Context {L : Library}.

Lemma replace_entry_twice (p : path) (e e' : entry) (l : filesystem) :
  replace_entry p e (replace_entry p e' l) = replace_entry p e l.
Proof.
  induction l as [|[q e0] l IH]; simpl; [reflexivity|].
  destruct (decide (q = p)) as [->|Hne]; simpl.
  - rewrite decide_True by reflexivity. reflexivity.
  - rewrite decide_False by assumption. rewrite IH. reflexivity.
Qed.

Lemma entry_at_replace_eq (p : path) (e e0 : entry) (l : filesystem) :
  entry_at p l = Some e0 -> entry_at p (replace_entry p e l) = Some e.
Proof.
  induction l as [|[q e1] l IH]; simpl; [discriminate|].
  destruct (decide (q = p)) as [->|Hne]; simpl.
  - rewrite decide_True by reflexivity. reflexivity.
  - rewrite decide_False by assumption. exact IH.
Qed.

Lemma entry_at_replace_ne (p q : path) (e : entry) (l : filesystem) :
  q <> p -> entry_at q (replace_entry p e l) = entry_at q l.
Proof.
  intros Hne. induction l as [|[r e1] l IH]; simpl; [reflexivity|].
  destruct (decide (r = p)) as [->|Hrp]; simpl.
  - rewrite !decide_False by congruence. reflexivity.
  - destruct (decide (r = q)); [reflexivity | exact IH].
Qed.

Lemma lookup_replace_eq (p : path) (e : entry) (c : content) (l : filesystem) :
  lookup_path p l = Some (F c) -> lookup_path p (replace_entry p e l) = Some e.
Proof.
  destruct p as [|x p]; [discriminate|]. simpl. apply entry_at_replace_eq.
Qed.

Lemma lookup_replace_ne (p q : path) (e : entry) (l : filesystem) :
  q <> p -> lookup_path q (replace_entry p e l) = lookup_path q l.
Proof.
  intros Hne. destruct q as [|x q]; [reflexivity|]. simpl.
  apply entry_at_replace_ne, Hne.
Qed.

(** Writing a JSON document over an existing file. *)
Lemma dump_json_file_run (p : path) (data : json) (c : content) (w : world) :
  lookup_path p (fs w) = Some (F c) ->
  dump_json_file p data w
  = (World (replace_entry p (F (json_dump data)) (fs w)) (stdout w), Ok tt).
Proof.
  intros Hp. unfold dump_json_file. rewrite run_bind.
  unfold open_w at 1. rewrite Hp. unfold write_file. simpl.
  rewrite replace_entry_twice. reflexivity.
Qed.

Lemma load_json_file_run (p : path) (w : world) :
  load_json_file p w =
  match lookup_path p (fs w) with
  | Some (F c) =>
      match json_load c with
      | Some d => (w, Ok d)
      | None => (w, Raise (json_load_error c))
      end
  | Some D => (w, Raise IsADirectoryError)
  | None => (w, Raise (missing_error (fs w) p))
  end.
Proof.
  unfold load_json_file. rewrite run_bind. unfold read_file.
  destruct (lookup_path p (fs w)) as [[c|]|]; try reflexivity.
  destruct (json_load c); reflexivity.
Qed.

(** Every run of [update_packages_json], by what it finds. *)
Lemma update_packages_json_run (p : path) (version tag sha : string)
    (download_size install_size : Z) (w : world) :
  update_packages_json p version tag sha download_size install_size w =
  match lookup_path p (fs w) with
  | Some (F c) =>
      match json_load c with
      | Some data =>
          match update_document version tag sha download_size install_size data with
          | Ok data' =>
              (World (replace_entry p (F (json_dump data')) (fs w))
                 (stdout w ++ ["Updated " +:+ path_str p]), Ok tt)
          | Raise e => (w, Raise e)
          end
      | None => (w, Raise (json_load_error c))
      end
  | Some D => (w, Raise IsADirectoryError)
  | None => (w, Raise (missing_error (fs w) p))
  end.
Proof.
  unfold update_packages_json. rewrite run_bind, load_json_file_run.
  destruct (lookup_path p (fs w)) as [[c|]|] eqn:Hp; try reflexivity.
  destruct (json_load c) as [data|]; [|reflexivity].
  rewrite run_bind. unfold lift at 1.
  destruct (update_document _ _ _ _ _ data) as [data'|e]; [|reflexivity].
  rewrite run_bind, (dump_json_file_run _ _ c) by assumption. reflexivity.
Qed.

Lemma update_metadata_json_run (p : path) (version : string) (w : world) :
  update_metadata_json p version w =
  match lookup_path p (fs w) with
  | Some (F c) =>
      match json_load c with
      | Some data =>
          match set_versions version data with
          | Ok data' =>
              (World (replace_entry p (F (json_dump data')) (fs w))
                 (stdout w ++ ["Updated " +:+ path_str p]), Ok tt)
          | Raise e => (w, Raise e)
          end
      | None => (w, Raise (json_load_error c))
      end
  | Some D => (w, Raise IsADirectoryError)
  | None => (w, Raise (missing_error (fs w) p))
  end.
Proof.
  unfold update_metadata_json. rewrite run_bind, load_json_file_run.
  destruct (lookup_path p (fs w)) as [[c|]|] eqn:Hp; try reflexivity.
  destruct (json_load c) as [data|]; [|reflexivity].
  rewrite run_bind. unfold lift at 1.
  destruct (set_versions version data) as [data'|e]; [|reflexivity].
  rewrite run_bind, (dump_json_file_run _ _ c) by assumption. reflexivity.
Qed.

End Listing.

(** ** The scan of the versions list *)

Section Scan.
Variable version : string.

Lemma find_version_some (vs : list json) (k i : nat) :
  find_version version vs k = Ok (Some i) ->
  exists j, i = (k + j)%nat /\ first_match version vs j.
Proof.
  revert k. induction vs as [|v vs IH]; intros k; simpl; [discriminate|].
  pose proof (getitem_version v) as Hv. unfold and_then, mbind, result_bind.
  destruct (version_of v) as [ver|] eqn:Hver.
  - rewrite Hv. destruct (eq_str ver version) eqn:Heq.
    + intros [= <-]. exists 0%nat. split; [lia|]. split.
      * exists v. split; [reflexivity|]. unfold has_version. rewrite Hver. exact Heq.
      * intros j v' Hj. lia.
    + intros H. apply IH in H as (j & -> & [(v' & Hv' & Hhas) Hbefore]).
      exists (S j). split; [lia|]. split.
      * exists v'. split; assumption.
      * intros [|j'] v'' Hj Hl; simpl in Hl.
        -- injection Hl as <-. unfold is_record, has_version. rewrite Hver.
           split; [reflexivity | exact Heq].
        -- apply (Hbefore j'); [lia | exact Hl].
  - destruct Hv as [e ->]. discriminate.
Qed.

Lemma find_version_none (vs : list json) (k : nat) :
  find_version version vs k = Ok None ->
  Forall (fun v => is_record v = true /\ has_version version v = false) vs.
Proof.
  revert k. induction vs as [|v vs IH]; intros k; simpl; [constructor|].
  pose proof (getitem_version v) as Hv. unfold and_then, mbind, result_bind.
  destruct (version_of v) as [ver|] eqn:Hver.
  - rewrite Hv. destruct (eq_str ver version) eqn:Heq; [discriminate|].
    intros H. constructor; [|eapply IH, H].
    unfold is_record, has_version. rewrite Hver. split; [reflexivity | exact Heq].
  - destruct Hv as [e ->]. discriminate.
Qed.

(** On a list of version records the scan does not raise. *)
Lemma find_version_total (vs : list json) (k : nat) :
  Forall (fun v => is_record v = true) vs ->
  exists r, find_version version vs k = Ok r.
Proof.
  intros Hall. revert k. induction Hall as [|v vs Hv _ IH]; intros k; simpl; [eauto|].
  pose proof (getitem_version v) as Hg. unfold and_then, mbind, result_bind.
  unfold is_record in Hv. destruct (version_of v) as [ver|]; [|discriminate].
  rewrite Hg. destruct (eq_str ver version); eauto.
Qed.

(** The scan breaks at the first match. *)
Lemma find_version_hit (vs : list json) (k j : nat) :
  first_match version vs j -> find_version version vs k = Ok (Some (k + j)%nat).
Proof.
  revert k j. induction vs as [|v vs IH]; intros k j [(v' & Hv' & Hhas) Hbefore].
  - rewrite lookup_nil in Hv'. discriminate.
  - simpl. pose proof (getitem_version v) as Hg.
    unfold and_then, mbind, result_bind. destruct j as [|j].
    + simpl in Hv'. injection Hv' as <-. unfold has_version in Hhas.
      destruct (version_of v) as [ver|]; [|discriminate].
      rewrite Hg, Hhas. f_equal. f_equal. lia.
    + destruct (Hbefore 0%nat v ltac:(lia) eq_refl) as [Hrec Hno].
      unfold is_record in Hrec. unfold has_version in Hno.
      destruct (version_of v) as [ver|]; [|discriminate].
      rewrite Hg, Hno. rewrite (IH (S k) j).
      * f_equal. f_equal. lia.
      * split; [exists v'; split; assumption|].
        intros j' v'' Hj Hl. apply (Hbefore (S j')); [lia | exact Hl].
Qed.

Lemma find_version_miss (vs : list json) (k : nat) :
  Forall (fun v => is_record v = true /\ has_version version v = false) vs ->
  find_version version vs k = Ok None.
Proof.
  intros Hall. revert k. induction Hall as [|v vs [Hrec Hno] _ IH]; intros k; simpl;
    [reflexivity|].
  pose proof (getitem_version v) as Hg. unfold and_then, mbind, result_bind.
  unfold is_record in Hrec. unfold has_version in Hno.
  destruct (version_of v) as [ver|]; [|discriminate].
  rewrite Hg, Hno. apply IH.
Qed.

End Scan.

Lemma new_version_entry_has_version (version tag sha : string) (ds isz : Z) :
  has_version version (new_version_entry version tag sha ds isz) = true.
Proof. unfold has_version. simpl. apply String.eqb_refl. Qed.

(** What a run of [update_document] that returns has found and done. *)
Lemma update_document_ok (version tag sha : string) (ds isz : Z) (data data' : json) :
  update_document version tag sha ds isz data = Ok data' ->
  exists top fields others vs found,
    data = JObj top
    /\ dict_get "packages" top = Some (JArr (JObj fields :: others))
    /\ (dict_get "versions" fields = Some (JArr vs)
        \/ dict_get "versions" fields = None /\ vs = [])
    /\ find_version version vs 0 = Ok found
    /\ data' = with_versions
                 (upserted (new_version_entry version tag sha ds isz) vs found) data.
Proof.
  unfold update_document, and_then, mbind, result_bind.
  destruct data as [| | | | | |top]; simpl; try discriminate.
  destruct (dict_get "packages" top) as [packages|] eqn:Hpk; [|discriminate].
  destruct packages as [| | | |s|items|d]; simpl; try discriminate.
  - destruct s; discriminate.
  - destruct items as [|pkg others]; [discriminate|].
    destruct pkg as [| | | | | |fields]; simpl; try discriminate.
    intros H. exists top, fields, others.
    destruct (dict_get "versions" fields) as [versions|] eqn:Hvs.
    + destruct versions as [| | | |s|vs|d]; simpl in H; try discriminate.
      * destruct s; discriminate.
      * destruct (find_version version vs 0) as [found|] eqn:Hf; [|discriminate].
        exists vs, found. rewrite Hpk. split; [reflexivity|]. split; [reflexivity|].
        split; [left; reflexivity|]. split; [exact Hf|].
        unfold and_then, mbind, result_bind in H.
        destruct found; injection H as <-; reflexivity.
      * destruct d; discriminate.
    + simpl in H. exists [], None. rewrite Hpk.
      split; [reflexivity|]. split; [reflexivity|].
      split; [right; split; reflexivity|]. split; [reflexivity|].
      injection H as <-. reflexivity.
Qed.

(** On a document with a versions list the update is the scan. *)
Lemma update_document_scan (version tag sha : string) (ds isz : Z) (data : json)
    (vs : list json) :
  manifest_versions data = Some vs ->
  update_document version tag sha ds isz data =
  match find_version version vs 0 with
  | Ok found =>
      Ok (with_versions (upserted (new_version_entry version tag sha ds isz) vs found) data)
  | Raise e => Raise e
  end.
Proof.
  unfold manifest_versions, packages_of, update_document, and_then, mbind, result_bind.
  destruct data as [| | | | | |top]; simpl; try discriminate.
  destruct (dict_get "packages" top) as [packages|] eqn:Hpk; [|discriminate].
  destruct packages as [| | | | |items|]; try discriminate.
  destruct items as [|pkg others]; [discriminate|].
  destruct pkg as [| | | | | |fields]; try discriminate.
  simpl. destruct (dict_get "versions" fields) as [versions|] eqn:Hvs; [|discriminate].
  destruct versions as [| | | | |vs0|]; try discriminate.
  intros [= ->]. simpl. unfold and_then, mbind, result_bind.
  destruct (find_version version vs 0) as [[i|]|e]; reflexivity.
Qed.

Lemma manifest_versions_with (vs : list json) (data : json) (top : dict)
    (fields : dict) (others : list json) :
  data = JObj top ->
  dict_get "packages" top = Some (JArr (JObj fields :: others)) ->
  manifest_versions (with_versions vs data) = Some vs.
Proof.
  intros -> Hpk. unfold with_versions. rewrite Hpk.
  unfold manifest_versions, packages_of. rewrite dict_get_set_eq, dict_get_set_eq.
  reflexivity.
Qed.

(** ** update_packages_json and update_metadata_json *)

Lemma append_assoc (a b c : string) : (a +:+ b) +:+ c = a +:+ (b +:+ c).
Proof.
  induction a as [|x a IH]; [reflexivity|].
  change (String x ((a +:+ b) +:+ c) = String x (a +:+ (b +:+ c))).
  f_equal. exact IH.
Qed.

(** After the upsert the new entry sits at the first match of its version. *)
Lemma upserted_first_match (version tag sha : string) (ds isz : Z)
    (vs : list json) (found : option nat) :
  find_version version vs 0 = Ok found ->
  exists i,
    upserted (new_version_entry version tag sha ds isz) vs found !! i
    = Some (new_version_entry version tag sha ds isz)
    /\ first_match version
         (upserted (new_version_entry version tag sha ds isz) vs found) i.
Proof.
  intros Hf. set (entry := new_version_entry version tag sha ds isz).
  assert (Hentry : has_version version entry = true)
    by apply new_version_entry_has_version.
  destruct found as [i|]; simpl.
  - apply find_version_some in Hf as (j & -> & [(v & Hv & Hhas) Hbefore]).
    simpl. exists j. apply lookup_lt_Some in Hv as Hlt.
    split; [apply list_lookup_insert_eq, Hlt|]. split.
    + exists entry. split; [apply list_lookup_insert_eq, Hlt | exact Hentry].
    + intros j' v' Hj Hl. rewrite list_lookup_insert_ne in Hl by lia.
      apply (Hbefore j'); assumption.
  - apply find_version_none in Hf. exists (length vs).
    assert (Hl : (vs ++ [entry]) !! length vs = Some entry)
      by apply list_lookup_middle, eq_refl.
    split; [exact Hl|]. split; [exists entry; split; assumption|].
    intros j v Hj Hv. rewrite lookup_app_l in Hv by lia.
    rewrite Forall_forall in Hf. apply Hf. eapply list_elem_of_lookup_2, Hv.
Qed.

Lemma with_versions_twice (vs vs' : list json) (data : json) :
  with_versions vs (with_versions vs' data) = with_versions vs data.
Proof.
  destruct data as [| | | | | |top]; try reflexivity. simpl.
  destruct (dict_get "packages" top) as [packages|] eqn:Hpk; [|simpl; rewrite Hpk; reflexivity].
  destruct packages as [| | | | |items|]; try (simpl; rewrite Hpk; reflexivity).
  destruct items as [|pkg others]; [simpl; rewrite Hpk; reflexivity|].
  destruct pkg as [| | | | | |fields]; try (simpl; rewrite Hpk; reflexivity).
  simpl. rewrite dict_get_set_eq, dict_set_set, dict_set_set. reflexivity.
Qed.

(** Updating a document that a first update returned changes nothing. *)
Lemma update_document_idempotent (version tag sha : string) (ds isz : Z)
    (data data' : json) :
  update_document version tag sha ds isz data = Ok data' ->
  update_document version tag sha ds isz data' = Ok data'.
Proof.
  intros H.
  apply update_document_ok in H
    as (top & fields & others & vs & found & -> & Hpk & _ & Hf & ->).
  destruct (upserted_first_match version tag sha ds isz vs found Hf) as (i & Hi & Hfirst).
  rewrite (update_document_scan _ _ _ _ _ _ _
             (manifest_versions_with _ _ _ _ _ eq_refl Hpk)).
  rewrite (find_version_hit version _ 0 i Hfirst). simpl upserted.
  rewrite list_insert_id by exact Hi. rewrite with_versions_twice. reflexivity.
Qed.

Section Manifest.
Context {L : Library}.


(** C1. On a manifest whose first package has a versions list of version
    records, [update_packages_json] upserts by version string: when some
    entry has the given version, the first such entry is replaced where it
    stands, the length is unchanged and every entry of another version is
    left as it was; when none has, the new entry is appended and the list
    is one longer.  The rest of the document is written back as read. *)
Theorem update_packages_json_upsert (w : world) (p : path)
    (version tag sha : string) (ds isz : Z) (c : content) (data : json)
    (vs : list json) :
  lookup_path p (fs w) = Some (F c) ->
  json_load c = Some data ->
  manifest_versions data = Some vs ->
  Forall (fun v => is_record v = true) vs ->
  exists vs' w',
    update_packages_json p version tag sha ds isz w = (w', Ok tt)
    /\ lookup_path p (fs w') = Some (F (json_dump (with_versions vs' data)))
    /\ manifest_versions (with_versions vs' data) = Some vs'
    /\ ((exists v, v ∈ vs /\ has_version version v = true) ->
        exists i,
          first_match version vs i
          /\ vs' = <[i := new_version_entry version tag sha ds isz]> vs
          /\ vs' !! i = Some (new_version_entry version tag sha ds isz)
          /\ length vs' = length vs
          /\ forall j v, vs !! j = Some v -> has_version version v = false ->
               vs' !! j = Some v)
    /\ ((forall v, v ∈ vs -> has_version version v = false) ->
        vs' = vs ++ [new_version_entry version tag sha ds isz]
        /\ length vs' = S (length vs)).
Proof.
  intros Hp Hc Hvs Hrec.
  set (entry := new_version_entry version tag sha ds isz).
  destruct (find_version_total version vs 0 Hrec) as [found Hf].
  exists (upserted entry vs found).
  eexists. rewrite update_packages_json_run, Hp, Hc.
  rewrite (update_document_scan _ _ _ _ _ _ _ Hvs), Hf.
  split; [reflexivity|].
  split; [exact (lookup_replace_eq p _ c _ Hp)|].
  split.
  { unfold manifest_versions, packages_of in Hvs.
    destruct data as [| | | | | |top]; try discriminate.
    destruct (dict_get "packages" top) as [[| | | | |[|[| | | | | |fields] others]|]|] eqn:Hpk;
      try discriminate.
    eapply manifest_versions_with; [reflexivity | exact Hpk]. }
  destruct found as [i|]; simpl.
  - apply find_version_some in Hf as (j & -> & Hfirst). simpl.
    destruct Hfirst as [(v & Hv & Hhas) Hbefore]. apply lookup_lt_Some in Hv as Hlt.
    split.
    + intros _. exists j. split; [split; eauto|]. split; [reflexivity|].
      split; [apply list_lookup_insert_eq, Hlt|]. split; [apply length_insert|].
      intros j' v' Hv' Hno. rewrite list_lookup_insert_ne; [exact Hv'|].
      intros <-. congruence.
    + intros Hnone. rewrite (Hnone v) in Hhas; [discriminate|].
      eapply list_elem_of_lookup_2, Hv.
  - apply find_version_none in Hf. rewrite Forall_forall in Hf. split.
    + intros (v & Hin & Hhas). destruct (Hf v Hin) as [_ Hno]. congruence.
    + intros _. split; [reflexivity|]. rewrite length_app. simpl. lia.
Qed.

(** C4. Whenever [update_packages_json] returns, the versions list it wrote
    holds the entry for the given version, with status ["stable"], platform
    tag ["8.0"], and the download URL made of the fixed base, the tag and
    the version, which ends in [PULSAR-KiCad-Lib-<version>.zip]. *)
Theorem update_packages_json_entry (w w' : world) (p : path)
    (version tag sha : string) (ds isz : Z) :
  update_packages_json p version tag sha ds isz w = (w', Ok tt) ->
  exists data' vs' i entry,
    lookup_path p (fs w') = Some (F (json_dump data'))
    /\ manifest_versions data' = Some vs'
    /\ vs' !! i = Some entry
    /\ entry = new_version_entry version tag sha ds isz
    /\ getitem_str entry "version" = Ok (JStr version)
    /\ getitem_str entry "status" = Ok (JStr "stable")
    /\ getitem_str entry "kicad_version" = Ok (JStr "8.0")
    /\ getitem_str entry "download_url"
       = Ok (JStr ("https://github.com/Alex-C-EE/PULSAR-KiCad-Lib/releases/download/"
                   +:+ tag +:+ "/PULSAR-KiCad-Lib-" +:+ version +:+ ".zip"))
    /\ getitem_str entry "download_sha256" = Ok (JStr sha)
    /\ getitem_str entry "download_size" = Ok (JInt ds)
    /\ getitem_str entry "install_size" = Ok (JInt isz)
    /\ exists prefix,
         download_url version tag = prefix +:+ "PULSAR-KiCad-Lib-" +:+ version +:+ ".zip".
Proof.
  rewrite update_packages_json_run.
  destruct (lookup_path p (fs w)) as [[c|]|] eqn:Hp; try discriminate.
  destruct (json_load c) as [data|]; try discriminate.
  destruct (update_document _ _ _ _ _ data) as [data'|] eqn:Hup; [|discriminate].
  intros [= <-].
  apply update_document_ok in Hup
    as (top & fields & others & vs & found & -> & Hpk & _ & Hf & ->).
  destruct (upserted_first_match version tag sha ds isz vs found Hf) as (i & Hi & _).
  eexists _, _, i, _.
  split; [exact (lookup_replace_eq p _ c _ Hp)|].
  split; [eapply manifest_versions_with; [reflexivity | exact Hpk]|].
  split; [exact Hi|].
  repeat (split; [reflexivity|]).
  exists ("https://github.com/Alex-C-EE/PULSAR-KiCad-Lib/releases/download/"
          +:+ tag +:+ "/").
  unfold download_url. rewrite !append_assoc. reflexivity.
Qed.

(** C10. A manifest without a top-level ["packages"] key, or with an empty
    ["packages"] list, makes [update_packages_json] raise with the world,
    and so the manifest file, exactly as it was: the error comes before the
    file is opened for writing. *)
Theorem update_packages_json_malformed (w : world) (p : path)
    (version tag sha : string) (ds isz : Z) (c : content) (data : json) :
  lookup_path p (fs w) = Some (F c) ->
  json_load c = Some data ->
  packages_of data = None \/ packages_of data = Some (JArr []) ->
  exists e,
    update_packages_json p version tag sha ds isz w = (w, Raise e)
    /\ (e = KeyError \/ e = IndexError \/ e = TypeError)
    /\ lookup_path p
         (fs (fst (update_packages_json p version tag sha ds isz w))) = Some (F c).
Proof.
  intros Hp Hc Hpk. rewrite update_packages_json_run, Hp, Hc.
  unfold update_document, and_then, mbind, result_bind.
  destruct data as [| | | | | |top]; simpl in *;
    try (exists TypeError; split; [reflexivity | split; [tauto | exact Hp]]).
  destruct Hpk as [-> | ->]; simpl.
  - exists KeyError. split; [reflexivity | split; [tauto | exact Hp]].
  - exists IndexError. split; [reflexivity | split; [tauto | exact Hp]].
Qed.

(** C9. Whatever the metadata document held, one version or many or none,
    [update_metadata_json] writes it back with a versions list of exactly
    one entry, the given version with status ["stable"] and platform tag
    ["8.0"], and every other key as it was. *)
Theorem update_metadata_json_single_version (w : world) (p : path)
    (version : string) (c : content) (top : dict) :
  lookup_path p (fs w) = Some (F c) ->
  json_load c = Some (JObj top) ->
  exists top' w',
    update_metadata_json p version w = (w', Ok tt)
    /\ lookup_path p (fs w') = Some (F (json_dump (JObj top')))
    /\ dict_get "versions" top'
       = Some (JArr [JObj [ ("version", JStr version);
                            ("status", JStr "stable");
                            ("kicad_version", JStr "8.0") ]])
    /\ (forall k, k <> "versions" -> dict_get k top' = dict_get k top)
    /\ (forall q, q <> p -> lookup_path q (fs w') = lookup_path q (fs w)).
Proof.
  intros Hp Hc.
  exists (dict_set "versions" (JArr [metadata_version_entry version]) top).
  eexists. rewrite update_metadata_json_run, Hp, Hc. simpl.
  split; [reflexivity|].
  split; [apply (lookup_replace_eq _ _ c), Hp|].
  split; [apply dict_get_set_eq|].
  split.
  - intros k Hk. apply dict_get_set_ne. congruence.
  - intros q Hq. apply lookup_replace_ne, Hq.
Qed.

Context {HL : LibraryLaws L}.

(** C7. Running [update_packages_json] a second time with the same
    arguments leaves the filesystem, and so the manifest, as the first run
    left it, with the same outcome; and a version that no entry of the
    list has makes the list one longer. *)
Theorem update_packages_json_idempotent (w : world) (p : path)
    (version tag sha : string) (ds isz : Z) :
  (fs (fst ((update_packages_json p version tag sha ds isz;;
             update_packages_json p version tag sha ds isz) w))
   = fs (fst (update_packages_json p version tag sha ds isz w))
   /\ snd ((update_packages_json p version tag sha ds isz;;
            update_packages_json p version tag sha ds isz) w)
      = snd (update_packages_json p version tag sha ds isz w))
  /\ (forall c data vs,
        lookup_path p (fs w) = Some (F c) ->
        json_load c = Some data ->
        manifest_versions data = Some vs ->
        Forall (fun v => is_record v = true /\ has_version version v = false) vs ->
        exists data',
          update_packages_json p version tag sha ds isz w
          = (World (replace_entry p (F (json_dump data')) (fs w))
               (stdout w ++ ["Updated " +:+ path_str p]), Ok tt)
          /\ manifest_versions data'
             = Some (vs ++ [new_version_entry version tag sha ds isz])
          /\ length (vs ++ [new_version_entry version tag sha ds isz])
             = S (length vs)).
Proof.
  split.
  - rewrite run_bind.
    destruct (update_packages_json p version tag sha ds isz w) as [w1 [[]|e]] eqn:Hrun;
      [|split; reflexivity].
    rewrite update_packages_json_run in Hrun.
    destruct (lookup_path p (fs w)) as [[c|]|] eqn:Hp; try discriminate.
    destruct (json_load c) as [data|]; try discriminate.
    destruct (update_document _ _ _ _ _ data) as [data'|] eqn:Hup; [|discriminate].
    injection Hrun as <-.
    rewrite update_packages_json_run. simpl fs.
    rewrite (lookup_replace_eq _ _ c) by exact Hp.
    rewrite json_load_dump, (update_document_idempotent _ _ _ _ _ _ _ Hup).
    simpl. rewrite replace_entry_twice. split; reflexivity.
  - intros c data vs Hp Hc Hvs Hall.
    exists (with_versions (vs ++ [new_version_entry version tag sha ds isz]) data).
    rewrite update_packages_json_run, Hp, Hc.
    rewrite (update_document_scan _ _ _ _ _ _ _ Hvs).
    rewrite (find_version_miss version vs 0 Hall). simpl upserted.
    split; [reflexivity|]. split.
    + unfold manifest_versions, packages_of in Hvs.
      destruct data as [| | | | | |top]; try discriminate.
      destruct (dict_get "packages" top) as [[| | | | |[|[| | | | | |fields] others]|]|] eqn:Hpk;
        try discriminate.
      eapply manifest_versions_with; [reflexivity | exact Hpk].
    + rewrite length_app. simpl. lia.
Qed.

End Manifest.

(** *** The manifest theorems on the demo repository *)

Lemma demo_laws : LibraryLaws Demo.library.
Proof. split; [intros d | intros ms]; reflexivity. Qed.

Lemma update_packages_json_upsert_witness :
  exists vs' w' i,
    update_packages_json (L := Demo.library) ["repo"; "docs"; "packages.json"]
      "0.9.0" "v0.9.0" "ab" 10 20 (World Demo.repo []) = (w', Ok tt)
    /\ length vs' = 1%nat
    /\ vs' !! i = Some (new_version_entry "0.9.0" "v0.9.0" "ab" 10 20).
Proof.
  destruct (update_packages_json_upsert (L := Demo.library) (World Demo.repo [])
              ["repo"; "docs"; "packages.json"] "0.9.0" "v0.9.0" "ab" 10 20
              (Demo.JsonText (Demo.manifest [Demo.record "0.9.0" "stable"]))
              (Demo.manifest [Demo.record "0.9.0" "stable"])
              [Demo.record "0.9.0" "stable"]
              eq_refl eq_refl eq_refl ltac:(repeat constructor))
    as (vs' & w' & Hrun & _ & _ & Hhit & _).
  destruct Hhit as (i & _ & _ & Hi & Hlen & _).
  { exists (Demo.record "0.9.0" "stable"). split; [constructor | reflexivity]. }
  exists vs', w', i. split; [exact Hrun|]. split; [exact Hlen | exact Hi].
Defined.

Lemma update_packages_json_entry_witness :
  exists data' vs' i,
    lookup_path ["repo"; "docs"; "packages.json"]
      (fs (fst (update_packages_json (L := Demo.library)
                  ["repo"; "docs"; "packages.json"] "2.0.0" "v2.0.0" "ab" 10 20
                  (World Demo.repo []))))
    = Some (F (json_dump data'))
    /\ manifest_versions data' = Some vs'
    /\ vs' !! i = Some (new_version_entry "2.0.0" "v2.0.0" "ab" 10 20)
    /\ exists prefix,
         download_url "2.0.0" "v2.0.0" = prefix +:+ "PULSAR-KiCad-Lib-2.0.0.zip".
Proof.
  destruct (update_packages_json_entry (L := Demo.library) (World Demo.repo [])
              (fst (update_packages_json (L := Demo.library)
                      ["repo"; "docs"; "packages.json"] "2.0.0" "v2.0.0" "ab" 10 20
                      (World Demo.repo [])))
              ["repo"; "docs"; "packages.json"] "2.0.0" "v2.0.0" "ab" 10 20 eq_refl)
    as (data' & vs' & i & entry & Hfile & Hvs & Hi & -> & Hrest).
  exists data', vs', i. split; [exact Hfile|]. split; [exact Hvs|].
  split; [exact Hi|].
  destruct Hrest as (_ & _ & _ & _ & _ & _ & _ & prefix & Hurl).
  exists prefix. exact Hurl.
Defined.

Lemma update_packages_json_malformed_witness :
  exists e,
    update_packages_json (L := Demo.library) ["repo"; "metadata.json"]
      "1.0.0" "v1.0.0" "ab" 10 20 (World Demo.repo [])
    = (World Demo.repo [], Raise e).
Proof.
  destruct (update_packages_json_malformed (L := Demo.library) (World Demo.repo [])
              ["repo"; "metadata.json"] "1.0.0" "v1.0.0" "ab" 10 20
              (Demo.JsonText (JObj [("name", JStr "PULSAR")]))
              (JObj [("name", JStr "PULSAR")])
              eq_refl eq_refl (or_introl eq_refl))
    as (e & Hrun & _).
  exists e. exact Hrun.
Defined.

Lemma update_metadata_json_single_version_witness :
  exists top',
    lookup_path ["repo"; "metadata.json"]
      (fs (fst (update_metadata_json (L := Demo.library) ["repo"; "metadata.json"]
                  "1.0.0" (World Demo.repo []))))
    = Some (F (json_dump (JObj top')))
    /\ dict_get "versions" top' = Some (JArr [metadata_version_entry "1.0.0"]).
Proof.
  destruct (update_metadata_json_single_version (L := Demo.library)
              (World Demo.repo []) ["repo"; "metadata.json"] "1.0.0"
              (Demo.JsonText (JObj [("name", JStr "PULSAR")]))
              [("name", JStr "PULSAR")] eq_refl eq_refl)
    as (top' & w' & Hrun & Hfile & Hvs & _).
  exists top'. split; [|exact Hvs].
  rewrite Hrun. exact Hfile.
Defined.

Lemma update_packages_json_idempotent_witness :
  fs (fst ((update_packages_json (L := Demo.library)
              ["repo"; "docs"; "packages.json"] "1.0.0" "v1.0.0" "ab" 10 20;;
            update_packages_json ["repo"; "docs"; "packages.json"]
              "1.0.0" "v1.0.0" "ab" 10 20) (World Demo.repo [])))
  = fs (fst (update_packages_json (L := Demo.library)
               ["repo"; "docs"; "packages.json"] "1.0.0" "v1.0.0" "ab" 10 20
               (World Demo.repo []))).
Proof.
  exact (proj1 (proj1 (update_packages_json_idempotent (L := Demo.library)
                         (HL := demo_laws) (World Demo.repo [])
                         ["repo"; "docs"; "packages.json"]
                         "1.0.0" "v1.0.0" "ab" 10 20))).
Defined.

(** ** compute_install_size *)

Section InstallSize.
Context {L : Library}.

Lemma sum_sizes_app (l : filesystem) (ps qs : list path) :
  sum_sizes l (ps ++ qs) = sum_sizes l ps + sum_sizes l qs.
Proof. induction ps as [|p ps IH]; simpl; [reflexivity | rewrite IH; lia]. Qed.

Lemma sum_sizes_perm (l : filesystem) (ps qs : list path) :
  ps ≡ₚ qs -> sum_sizes l ps = sum_sizes l qs.
Proof. induction 1; simpl; lia. Qed.

Lemma st_size_file (w : world) (p : path) :
  is_file_in (fs w) p = true -> st_size p w = (w, Ok (file_size (fs w) p)).
Proof.
  unfold is_file_in, st_size, file_size.
  destruct (lookup_path p (fs w)) as [[c|]|]; try discriminate. reflexivity.
Qed.

(** The inner loop adds the sizes of the regular files among [found]. *)
Lemma install_size_inner (found : list path) (total : Z) (w : world) :
  for_each found (fun f total =>
      f_is_file ← is_file f;
      if f_is_file then size ← st_size f; mret (total + size)
      else mret total) total w
  = (w, Ok (total + sum_sizes (fs w) (List.filter (is_file_in (fs w)) found))).
Proof.
  revert total. induction found as [|f found IH]; intros total; simpl.
  - rewrite Z.add_0_r. reflexivity.
  - rewrite run_bind, run_bind. unfold is_file at 1.
    destruct (is_file_in (fs w) f) eqn:Hf.
    + rewrite run_bind, (st_size_file _ _ Hf), run_ret, IH. simpl.
      do 2 f_equal. lia.
    + rewrite run_ret, IH. reflexivity.
Qed.

(** One round of the outer loop adds what is reachable from [d]. *)
Lemma install_size_step (d : path) (total : Z) (w : world) :
  (d_is_dir ← is_dir d;
   if d_is_dir then
     found ← rglob d;
     for_each found (fun f total =>
       f_is_file ← is_file f;
       if f_is_file then size ← st_size f; mret (total + size)
       else mret total) total
   else
     d_is_file ← is_file d;
     if d_is_file then size ← st_size d; mret (total + size)
     else mret total) w
  = (w, Ok (total + sum_sizes (fs w) (reachable_from (fs w) d))).
Proof.
  rewrite run_bind. unfold is_dir at 1, is_dir_in, reachable_from.
  destruct (lookup_path d (fs w)) as [[c|]|] eqn:Hd.
  - rewrite run_bind. unfold is_file at 1.
    assert (Hf : is_file_in (fs w) d = true) by (unfold is_file_in; rewrite Hd; reflexivity).
    rewrite Hf, run_bind, (st_size_file _ _ Hf), run_ret. simpl.
    do 2 f_equal. lia.
  - rewrite run_bind. unfold rglob at 1. apply install_size_inner.
  - rewrite run_bind. unfold is_file at 1, is_file_in. rewrite Hd, run_ret.
    simpl. rewrite Z.add_0_r. reflexivity.
Qed.

Lemma install_size_outer (inputs : list path) (total : Z) (w : world) :
  for_each inputs (fun d total =>
    d_is_dir ← is_dir d;
    if d_is_dir then
      found ← rglob d;
      for_each found (fun f total =>
        f_is_file ← is_file f;
        if f_is_file then size ← st_size f; mret (total + size)
        else mret total) total
    else
      d_is_file ← is_file d;
      if d_is_file then size ← st_size d; mret (total + size)
      else mret total) total w
  = (w, Ok (total + sum_sizes (fs w) (concat (map (reachable_from (fs w)) inputs)))).
Proof.
  revert total. induction inputs as [|d inputs IH]; intros total.
  - simpl. rewrite Z.add_0_r. reflexivity.
  - cbn [for_each]. rewrite run_bind, install_size_step, IH.
    cbn [map concat]. rewrite sum_sizes_app. do 2 f_equal. lia.
Qed.

Lemma compute_install_size_run (inputs : list path) (w : world) :
  compute_install_size inputs w
  = (w, Ok (sum_sizes (fs w) (concat (map (reachable_from (fs w)) inputs)))).
Proof. unfold compute_install_size. rewrite install_size_outer. reflexivity. Qed.

Lemma remove_dups_NoDup (ps : list path) : NoDup ps -> remove_dups ps = ps.
Proof.
  induction 1 as [|p ps Hp _ IH]; [reflexivity|]. simpl.
  destruct (decide_rel elem_of p ps) as [Hin|_]; [contradiction|].
  rewrite IH. reflexivity.
Qed.

(** C2, as the code has it.  [compute_install_size] never raises and
    leaves the world alone; it returns the sum, over the entries of the
    input list, of the byte lengths of the regular files reachable from
    that entry (the entry itself when a file, the files below it when a
    directory, nothing when it does not exist).  When no file is reachable
    from two entries this is the sum over all reachable files, each counted
    once.  The result does not depend on the order of the inputs, and an
    input that does not exist adds nothing. *)
Theorem compute_install_size_sum (w : world) (inputs : list path) :
  compute_install_size inputs w
  = (w, Ok (sum_sizes (fs w) (concat (map (reachable_from (fs w)) inputs))))
  /\ (NoDup (concat (map (reachable_from (fs w)) inputs)) ->
      compute_install_size inputs w = (w, Ok (reachable_size (fs w) inputs)))
  /\ (forall inputs', inputs ≡ₚ inputs' ->
      compute_install_size inputs' w = compute_install_size inputs w)
  /\ (forall d, lookup_path d (fs w) = None ->
      reachable_from (fs w) d = []
      /\ compute_install_size (d :: inputs) w = compute_install_size inputs w).
Proof.
  split; [apply compute_install_size_run|]. split; [|split].
  - intros Hnd. rewrite compute_install_size_run. unfold reachable_size.
    rewrite remove_dups_NoDup by exact Hnd. reflexivity.
  - intros inputs' Hperm. rewrite !compute_install_size_run. do 2 f_equal.
    apply sum_sizes_perm. symmetry.
    induction Hperm; simpl.
    + reflexivity.
    + apply Permutation_app_head. assumption.
    + rewrite !app_assoc. apply Permutation_app_tail, Permutation_app_comm.
    + etransitivity; eassumption.
  - intros d Hd. assert (Hr : reachable_from (fs w) d = [])
      by (unfold reachable_from; rewrite Hd; reflexivity).
    split; [exact Hr|]. rewrite !compute_install_size_run. simpl. rewrite Hr.
    reflexivity.
Qed.

End InstallSize.

(** Counting each reachable file once is not what happens when one input
    lies inside another: the file is counted once for the directory and
    once more for itself.  The two files below [symbols] hold 2 and 1
    bytes. *)
Lemma compute_install_size_counts_per_input :
  compute_install_size (L := Demo.library)
    [["repo"; "symbols"]; ["repo"; "symbols"; "a.kicad_sym"]] (World Demo.repo [])
  = (World Demo.repo [], Ok 4)
  /\ reachable_size (L := Demo.library) Demo.repo
       [["repo"; "symbols"]; ["repo"; "symbols"; "a.kicad_sym"]] = 3.
Proof. split; reflexivity. Qed.

Lemma compute_install_size_sum_witness :
  compute_install_size (L := Demo.library)
    [["repo"; "symbols"]; ["repo"; "nowhere"]; ["repo"; "metadata.json"]]
    (World Demo.repo [])
  = (World Demo.repo [],
     Ok (reachable_size (L := Demo.library) Demo.repo
           [["repo"; "symbols"]; ["repo"; "nowhere"]; ["repo"; "metadata.json"]])).
Proof.
  apply (proj1 (proj2 (compute_install_size_sum (L := Demo.library)
                         (World Demo.repo [])
                         [["repo"; "symbols"]; ["repo"; "nowhere"];
                          ["repo"; "metadata.json"]]))).
  apply (bool_decide_unpack _). vm_compute. exact I.
Defined.

(** ** The order of paths and [sorted] *)

Lemma path_leb_total (p q : path) : path_leb p q = true \/ path_leb q p = true.
Proof.
  revert q. induction p as [|x p IH]; intros [|y q]; simpl; auto.
  rewrite (String.eqb_sym y x). destruct (String.eqb x y); [apply IH|].
  apply String.leb_total.
Qed.

Lemma path_leb_antisym (p q : path) :
  path_leb p q = true -> path_leb q p = true -> p = q.
Proof.
  revert q. induction p as [|x p IH]; intros [|y q]; simpl; try discriminate;
    [reflexivity|].
  rewrite (String.eqb_sym y x). destruct (String.eqb x y) eqn:E.
  - apply String.eqb_eq in E as ->. intros H1 H2. f_equal. apply IH; assumption.
  - intros H1 H2. apply String.eqb_neq in E. destruct E.
    apply String.leb_antisym; assumption.
Qed.

Lemma string_leb_trans (x y z : string) :
  String.leb x y = true -> String.leb y z = true -> String.leb x z = true.
Proof.
  intros H1 H2. apply Is_true_true. apply Is_true_true in H1, H2.
  exact (transitivity (R := String.le) H1 H2).
Qed.

Lemma path_leb_trans (p q r : path) :
  path_leb p q = true -> path_leb q r = true -> path_leb p r = true.
Proof.
  revert q r. induction p as [|x p IH]; intros [|y q] [|z r]; simpl;
    try discriminate; try reflexivity.
  destruct (String.eqb x y) eqn:Exy.
  - apply String.eqb_eq in Exy as ->. destruct (String.eqb y z); [apply IH | auto].
  - destruct (String.eqb y z) eqn:Eyz.
    + apply String.eqb_eq in Eyz as <-. rewrite Exy. auto.
    + intros Hxy Hyz. destruct (String.eqb x z) eqn:Exz.
      * apply String.eqb_eq in Exz as <-. apply String.eqb_neq in Exy.
        destruct Exy. apply String.leb_antisym; assumption.
      * eapply string_leb_trans; eassumption.
Qed.

#[global] Instance path_le_total : Total path_le.
Proof. intros p q. apply path_leb_total. Qed.
#[global] Instance path_le_trans : Transitive path_le.
Proof. intros p q r. apply path_leb_trans. Qed.
#[global] Instance path_le_antisym : AntiSymm (=) path_le.
Proof. intros p q. apply path_leb_antisym. Qed.

(** [sorted] does not depend on the order it is given the paths in. *)
Lemma sorted_perm (ps qs : list path) : ps ≡ₚ qs -> sorted ps = sorted qs.
Proof.
  intros Hperm. unfold sorted.
  apply (Sorted_unique path_le); try apply Sorted_merge_sort; try apply _.
  rewrite !merge_sort_Permutation. exact Hperm.
Qed.

Lemma elem_of_sorted (p : path) (ps : list path) : p ∈ sorted ps <-> p ∈ ps.
Proof. unfold sorted. rewrite merge_sort_Permutation. reflexivity. Qed.

(** ** Paths below a directory *)

Lemma relative_to_ok (p root rel : path) :
  relative_to p root = Ok rel <-> p = root ++ rel.
Proof.
  revert p. induction root as [|r root IH]; intros p; simpl.
  - split; [intros [= ->]; reflexivity | intros ->; reflexivity].
  - destruct p as [|x p]; [split; discriminate|].
    destruct (String.eqb r x) eqn:E.
    + apply String.eqb_eq in E as ->. rewrite IH.
      split; [intros ->; reflexivity | intros [= ->]; reflexivity].
    + apply String.eqb_neq in E. split; [discriminate | intros [= -> _]; congruence].
Qed.

Lemma below_spec (d p : path) :
  below d p = true <-> exists x rest, p = d ++ x :: rest.
Proof.
  unfold below. destruct (relative_to p d) as [rel|e] eqn:E.
  - apply relative_to_ok in E as ->. destruct rel as [|x rest].
    + split; [discriminate|]. intros (x & rest & H).
      rewrite app_nil_r in H. apply (f_equal length) in H.
      rewrite length_app in H. simpl in H. lia.
    + split; [eauto | reflexivity].
  - split; [discriminate|]. intros (x & rest & ->).
    assert (H : relative_to (d ++ x :: rest) d = Ok (x :: rest))
      by (apply relative_to_ok; reflexivity).
    congruence.
Qed.

Lemma arcname_below (root : path) (rel : path) :
  arcname root (root ++ rel) = as_posix rel.
Proof.
  unfold arcname.
  assert (H : relative_to (root ++ rel) root = Ok rel) by (apply relative_to_ok; reflexivity).
  rewrite H. reflexivity.
Qed.

Section ListingOrder.
Context {L : Library}.

Lemma elem_of_listing_below (l : filesystem) (d p : path) :
  p ∈ listing_below l d -> below d p = true.
Proof.
  unfold listing_below. rewrite list_elem_of_In, in_map_iff.
  intros ([q e] & <- & Hin). apply filter_In in Hin. apply Hin.
Qed.

Lemma listing_below_perm (l l' : filesystem) (d : path) :
  l ≡ₚ l' -> listing_below l d ≡ₚ listing_below l' d.
Proof.
  intros Hperm. unfold listing_below. apply Permutation_map.
  induction Hperm as [|x l1 l2 _ IH|x y l1|l1 l2 l3 _ IH1 _ IH2]; simpl.
  - reflexivity.
  - destruct (below d x.1); [constructor|]; exact IH.
  - destruct (below d x.1), (below d y.1); try reflexivity. constructor.
  - etransitivity; eassumption.
Qed.

Lemma entry_at_elem (l : filesystem) (p : path) (e : entry) :
  entry_at p l = Some e -> (p, e) ∈ l.
Proof.
  induction l as [|[q e'] l IH]; simpl; [discriminate|].
  destruct (decide (q = p)) as [->|_].
  - intros [= ->]. constructor.
  - intros H. constructor. apply IH, H.
Qed.

Lemma entry_at_none (l : filesystem) (p : path) :
  entry_at p l = None -> p ∉ map fst l.
Proof.
  induction l as [|[q e'] l IH]; simpl; [intros _; apply not_elem_of_nil|].
  destruct (decide (q = p)) as [->|Hne]; [discriminate|].
  intros H. apply not_elem_of_cons. split; [congruence | apply IH, H].
Qed.

Lemma entry_at_unique (l : filesystem) (p : path) (e : entry) :
  NoDup (map fst l) -> (p, e) ∈ l -> entry_at p l = Some e.
Proof.
  induction l as [|[q e'] l IH]; simpl; [intros _ H; inversion H|].
  intros Hnd Hin. apply NoDup_cons in Hnd as [Hq Hnd].
  apply elem_of_cons in Hin as [[= <- <-]|Hin].
  - rewrite decide_True by reflexivity. reflexivity.
  - destruct (decide (q = p)) as [->|_]; [|apply IH; assumption].
    destruct Hq. apply list_elem_of_fmap. exists (p, e). split; [reflexivity | exact Hin].
Qed.

(** What is at a path does not depend on the order of the listing. *)
Lemma lookup_path_perm (l l' : filesystem) (p : path) :
  NoDup (map fst l) -> l ≡ₚ l' -> lookup_path p l = lookup_path p l'.
Proof.
  intros Hnd Hperm. destruct p as [|x p]; [reflexivity|]. simpl.
  assert (Hnd' : NoDup (map fst l')).
  { assert (Hk : map fst l ≡ₚ map fst l') by apply Permutation_map, Hperm.
    rewrite <- Hk. exact Hnd. }
  destruct (entry_at (x :: p) l) as [e|] eqn:E.
  - symmetry. apply entry_at_unique; [exact Hnd'|].
    rewrite <- Hperm. apply entry_at_elem, E.
  - destruct (entry_at (x :: p) l') as [e'|] eqn:E'; [|reflexivity].
    apply entry_at_none in E. destruct E.
    apply list_elem_of_fmap. exists (x :: p, e'). split; [reflexivity|].
    rewrite Hperm. apply entry_at_elem, E'.
Qed.

Lemma filter_pointwise {A} (f g : A -> bool) (xs : list A) :
  (forall x, f x = g x) -> List.filter f xs = List.filter g xs.
Proof. intros H. apply filter_ext. exact H. Qed.

(** The members collected do not depend on the order of the listing. *)
Lemma archive_members_perm (l l' : filesystem) (root : path) :
  NoDup (map fst l) -> l ≡ₚ l' -> archive_members l root = archive_members l' root.
Proof.
  intros Hnd Hperm. unfold archive_members. f_equal. apply map_ext. intros item.
  unfold item_members. rewrite <- (lookup_path_perm l l' item Hnd Hperm).
  destruct (lookup_path item l) as [[c|]|]; try reflexivity.
  - unfold member_of, content_at.
    rewrite (lookup_path_perm l l' item Hnd Hperm). reflexivity.
  - rewrite (sorted_perm _ _ (listing_below_perm l l' item Hperm)).
    rewrite (filter_pointwise (is_file_in l) (is_file_in l')).
    + apply map_ext. intros p. unfold member_of, content_at.
      rewrite (lookup_path_perm l l' p Hnd Hperm). reflexivity.
    + intros p. unfold is_file_in.
      rewrite (lookup_path_perm l l' p Hnd Hperm). reflexivity.
Qed.

End ListingOrder.

(** ** Opening the output *)

Section Opening.
Context {L : Library}.

Lemma entry_at_app_other (p q : path) (e : entry) (l : filesystem) :
  q <> p -> entry_at q (l ++ [(p, e)]) = entry_at q l.
Proof.
  intros Hne. induction l as [|[r e'] l IH]; simpl.
  - rewrite decide_False by congruence. reflexivity.
  - destruct (decide (r = q)); [reflexivity | exact IH].
Qed.

Lemma lookup_path_app_other (p q : path) (e : entry) (l : filesystem) :
  q <> p -> lookup_path q (l ++ [(p, e)]) = lookup_path q l.
Proof.
  intros Hne. destruct q as [|x q]; [reflexivity|]. simpl.
  apply entry_at_app_other, Hne.
Qed.

(** Opening a file for writing changes nothing but the file. *)
Lemma open_w_frame (out : path) (w w0 : world) :
  open_w out w = (w0, Ok tt) ->
  stdout w0 = stdout w
  /\ forall q, q <> out -> lookup_path q (fs w0) = lookup_path q (fs w).
Proof.
  unfold open_w.
  destruct (lookup_path out (fs w)) as [[c|]|]; try discriminate.
  - intros [= <-]. split; [reflexivity|]. intros q Hq. apply lookup_replace_ne, Hq.
  - destruct (lookup_path (parent out) (fs w)) as [[c|]|]; try discriminate.
    intros [= <-]. split; [reflexivity|]. intros q Hq.
    apply lookup_path_app_other, Hq.
Qed.

Lemma open_w_lookup (out : path) (w w0 : world) :
  open_w out w = (w0, Ok tt) -> lookup_path out (fs w0) = Some (F c_empty).
Proof.
  unfold open_w.
  destruct (lookup_path out (fs w)) as [[c|]|] eqn:Hout; try discriminate.
  - intros [= <-]. apply (lookup_replace_eq _ _ c), Hout.
  - destruct (lookup_path (parent out) (fs w)) as [[c|]|]; try discriminate.
    intros [= <-]. simpl. destruct out as [|x out]; [discriminate|].
    simpl in *. induction (fs w) as [|[q e] l IH]; simpl.
    + rewrite decide_True by reflexivity. reflexivity.
    + simpl in Hout. destruct (decide (q = x :: out)); [discriminate | apply IH, Hout].
Qed.

Lemma listing_below_replace (p : path) (e : entry) (l : filesystem) (d : path) :
  listing_below (replace_entry p e l) d = listing_below l d.
Proof.
  unfold listing_below. induction l as [|[q e'] l IH]; simpl; [reflexivity|].
  destruct (decide (q = p)); simpl; [destruct (below d q); reflexivity|].
  destruct (below d q); simpl; rewrite IH; reflexivity.
Qed.

Lemma listing_below_app_other (out : path) (e : entry) (l : filesystem) (d : path) :
  below d out = false -> listing_below (l ++ [(out, e)]) d = listing_below l d.
Proof.
  intros Hb. unfold listing_below. rewrite List.filter_app. simpl. rewrite Hb.
  rewrite app_nil_r. reflexivity.
Qed.

Lemma open_w_listing (out d : path) (w w0 : world) :
  open_w out w = (w0, Ok tt) -> below d out = false ->
  listing_below (fs w0) d = listing_below (fs w) d.
Proof.
  unfold open_w. intros H Hb.
  destruct (lookup_path out (fs w)) as [[c|]|]; try discriminate.
  - injection H as <-. apply listing_below_replace.
  - destruct (lookup_path (parent out) (fs w)) as [[c|]|]; try discriminate.
    injection H as <-. apply listing_below_app_other, Hb.
Qed.

End Opening.

(** ** create_zip_archive *)

Section Archive.
Context {L : Library}.

Lemma content_at_file (l : filesystem) (p : path) :
  is_file_in l p = true -> lookup_path p l = Some (F (content_at l p)).
Proof.
  unfold is_file_in, content_at.
  destruct (lookup_path p l) as [[c|]|]; try discriminate. reflexivity.
Qed.

(** Writing one file under [root] adds its member. *)
Lemma zf_write_file (root rel : path) (zf : list member) (w : world) :
  is_file_in (fs w) (root ++ rel) = true ->
  (r ← lift (relative_to (root ++ rel) root);
   zf_write (root ++ rel) (as_posix r) zf) w
  = (w, Ok (zf ++ [member_of (fs w) root (root ++ rel)])).
Proof.
  intros Hf. rewrite run_bind. unfold lift at 1.
  assert (Hrel : relative_to (root ++ rel) root = Ok rel)
    by (apply relative_to_ok; reflexivity).
  rewrite Hrel. unfold zf_write. rewrite run_bind. unfold read_file.
  rewrite (content_at_file _ _ Hf), run_ret.
  unfold member_of. rewrite arcname_below. reflexivity.
Qed.

(** The loop over the sorted paths below a directory. *)
Lemma zip_files_loop (root : path) (ps : list path) (zf : list member) (w : world) :
  Forall (fun p => exists rel, p = root ++ rel) ps ->
  for_each ps (fun file_path zf =>
      path_is_file ← is_file file_path;
      if path_is_file then
        rel ← lift (relative_to file_path root);
        zf_write file_path (as_posix rel) zf
      else mret zf) zf w
  = (w, Ok (zf ++ map (member_of (fs w) root) (List.filter (is_file_in (fs w)) ps))).
Proof.
  intros Hall. revert zf. induction Hall as [|p ps [rel ->] _ IH]; intros zf.
  - simpl. rewrite app_nil_r. reflexivity.
  - cbn [for_each]. rewrite run_bind, run_bind. unfold is_file at 1. simpl List.filter.
    destruct (is_file_in (fs w) (root ++ rel)) eqn:Hf.
    + rewrite (zf_write_file _ _ _ _ Hf), IH. simpl. rewrite <- app_assoc. reflexivity.
    + rewrite run_ret, IH. reflexivity.
Qed.

(** One round of the loop over [items_to_include]. *)
Lemma zip_item_step (root rel : path) (zf : list member) (w : world) :
  (item_is_file ← is_file (root ++ rel);
   if item_is_file then
     r ← lift (relative_to (root ++ rel) root);
     zf_write (root ++ rel) (as_posix r) zf
   else
     item_is_dir ← is_dir (root ++ rel);
     if item_is_dir then
       found ← rglob (root ++ rel);
       for_each (sorted found) (fun file_path zf =>
         path_is_file ← is_file file_path;
         if path_is_file then
           r ← lift (relative_to file_path root);
           zf_write file_path (as_posix r) zf
         else mret zf) zf
     else mret zf) w
  = (w, Ok (zf ++ item_members (fs w) root (root ++ rel))).
Proof.
  rewrite run_bind. unfold is_file at 1. unfold item_members.
  destruct (is_file_in (fs w) (root ++ rel)) eqn:Hf.
  - rewrite (zf_write_file _ _ _ _ Hf), (content_at_file _ _ Hf). reflexivity.
  - rewrite run_bind. unfold is_dir at 1, is_dir_in. unfold is_file_in in Hf.
    destruct (lookup_path (root ++ rel) (fs w)) as [[c|]|]; try discriminate.
    + rewrite run_bind. unfold rglob at 1. apply zip_files_loop.
      apply Forall_forall. intros p Hp. apply (proj1 (elem_of_sorted _ _)) in Hp.
      apply elem_of_listing_below in Hp.
      apply (proj1 (below_spec _ _)) in Hp as (x & rest & ->).
      exists (rel ++ x :: rest). rewrite app_assoc. reflexivity.
    + rewrite run_ret, app_nil_r. reflexivity.
Qed.

Lemma zip_items_loop (root : path) (items : list path) (zf : list member) (w : world) :
  Forall (fun item => exists rel, item = root ++ rel) items ->
  for_each items (fun item zf =>
    item_is_file ← is_file item;
    if item_is_file then
      rel ← lift (relative_to item root);
      zf_write item (as_posix rel) zf
    else
      item_is_dir ← is_dir item;
      if item_is_dir then
        found ← rglob item;
        for_each (sorted found) (fun file_path zf =>
          path_is_file ← is_file file_path;
          if path_is_file then
            rel ← lift (relative_to file_path root);
            zf_write file_path (as_posix rel) zf
          else mret zf) zf
      else mret zf) zf w
  = (w, Ok (zf ++ concat (map (item_members (fs w) root) items))).
Proof.
  intros Hall. revert zf. induction Hall as [|item items [rel ->] _ IH]; intros zf.
  - simpl. rewrite app_nil_r. reflexivity.
  - cbn [for_each]. rewrite run_bind, zip_item_step, IH. cbn [map concat].
    rewrite app_assoc. reflexivity.
Qed.

Lemma items_under_root (root : path) :
  Forall (fun item => exists rel, item = root ++ rel) (items_to_include root).
Proof. unfold items_to_include. repeat constructor; eexists; reflexivity. Qed.

(** Every run of [create_zip_archive]: it fails only if the output cannot
    be opened, and otherwise leaves the archive of [archive_members]. *)
Lemma create_zip_archive_run (out root : path) (w : world) :
  create_zip_archive out root w =
  match open_w out w with
  | (w0, Ok _) =>
      (World (replace_entry out (F (zip_archive (archive_members (fs w0) root))) (fs w0))
         (stdout w0), Ok out)
  | (w', Raise e) => (w', Raise e)
  end.
Proof.
  unfold create_zip_archive. rewrite run_bind.
  destruct (open_w out w) as [w0 [[]|e]]; [|reflexivity].
  rewrite run_bind, (zip_items_loop root _ [] w0 (items_under_root root)).
  rewrite run_bind. reflexivity.
Qed.


Lemma outside_items_spec (root out item : path) :
  outside_items root out = true -> item ∈ items_to_include root ->
  item <> out /\ below item out = false.
Proof.
  unfold outside_items. rewrite forallb_forall. intros H Hin.
  apply (proj1 (list_elem_of_In _ _)), H, andb_true_iff in Hin as [Hne Hb].
  apply negb_true_iff in Hne, Hb. split; [|exact Hb].
  apply bool_decide_eq_false in Hne. exact Hne.
Qed.

(** What an item brings depends on the filesystem at and below the item. *)
Lemma item_members_frame (l l' : filesystem) (root item out : path) :
  (forall q, q <> out -> lookup_path q l' = lookup_path q l) ->
  listing_below l' item = listing_below l item ->
  item <> out -> below item out = false ->
  item_members l' root item = item_members l root item.
Proof.
  intros Hframe Hlist Hitem Hb.
  assert (Hin : forall p, In p (sorted (listing_below l item)) -> p <> out).
  { intros p Hp ->. apply (proj2 (list_elem_of_In _ _)) in Hp.
    apply (proj1 (elem_of_sorted _ _)), elem_of_listing_below in Hp. congruence. }
  unfold item_members. rewrite (Hframe item Hitem), Hlist.
  destruct (lookup_path item l) as [[c|]|]; try reflexivity.
  - unfold member_of, content_at. rewrite (Hframe item Hitem). reflexivity.
  - rewrite (filter_ext_in (is_file_in l') (is_file_in l)).
    + apply map_ext_in. intros p Hp. apply filter_In in Hp as [Hp _].
      unfold member_of, content_at. rewrite (Hframe p (Hin p Hp)). reflexivity.
    + intros p Hp. unfold is_file_in. rewrite (Hframe p (Hin p Hp)). reflexivity.
Qed.

(** Opening an output that is outside the items changes no member. *)
Lemma archive_members_open (out root : path) (w w0 : world) :
  open_w out w = (w0, Ok tt) -> outside_items root out = true ->
  archive_members (fs w0) root = archive_members (fs w) root.
Proof.
  intros Hopen Hout. destruct (open_w_frame _ _ _ Hopen) as [_ Hframe].
  unfold archive_members. f_equal. apply map_ext_in. intros item Hitem.
  apply (proj2 (list_elem_of_In _ _)) in Hitem.
  destruct (outside_items_spec _ _ _ Hout Hitem) as [Hne Hb].
  apply (item_members_frame _ _ _ _ out); [exact Hframe | | exact Hne | exact Hb].
  apply (open_w_listing _ _ _ _ Hopen Hb).
Qed.





End Archive.

(** ** Two runs of create_zip_archive *)

Section TwoRuns.
Context {L : Library}.

Lemma replace_entry_keys (p : path) (e : entry) (l : filesystem) :
  map fst (replace_entry p e l) = map fst l.
Proof.
  induction l as [|[q e'] l IH]; simpl; [reflexivity|].
  destruct (decide (q = p)); simpl; [reflexivity | rewrite IH; reflexivity].
Qed.

(** With one entry per path, replacing is a map over the listing. *)
Lemma replace_entry_map (p : path) (e : entry) (l : filesystem) :
  NoDup (map fst l) ->
  replace_entry p e l
  = map (fun qe => if decide (fst qe = p) then (fst qe, e) else qe) l.
Proof.
  induction l as [|[q e'] l IH]; simpl; [reflexivity|].
  intros Hnd. apply NoDup_cons in Hnd as [Hq Hnd].
  destruct (decide (q = p)) as [->|Hne]; [|rewrite IH by exact Hnd; reflexivity].
  f_equal. clear IH Hnd. induction l as [|[q e''] l IH]; simpl; [reflexivity|].
  apply not_elem_of_cons in Hq as [Hne Hq]. simpl in Hne.
  rewrite decide_False by congruence. rewrite <- IH by exact Hq. reflexivity.
Qed.

Lemma replace_entry_perm (p : path) (e : entry) (l l' : filesystem) :
  NoDup (map fst l) -> l ≡ₚ l' -> replace_entry p e l ≡ₚ replace_entry p e l'.
Proof.
  intros Hnd Hperm.
  assert (Hnd' : NoDup (map fst l')).
  { assert (Hk : map fst l ≡ₚ map fst l') by apply Permutation_map, Hperm.
    rewrite <- Hk. exact Hnd. }
  rewrite !replace_entry_map by assumption. apply Permutation_map, Hperm.
Qed.

Lemma replace_entry_same (p : path) (e : entry) (l : filesystem) :
  entry_at p l = Some e -> replace_entry p e l = l.
Proof.
  induction l as [|[q e'] l IH]; simpl; [reflexivity|].
  destruct (decide (q = p)) as [->|Hne].
  - intros [= ->]. reflexivity.
  - intros H. rewrite IH by exact H. reflexivity.
Qed.

(** A successful [open_w] leaves an empty file at the path, in a listing
    that still has one entry per path. *)
Lemma open_w_ok (out : path) (w w0 : world) :
  NoDup (map fst (fs w)) ->
  open_w out w = (w0, Ok tt) ->
  NoDup (map fst (fs w0)) /\ lookup_path out (fs w0) = Some (F c_empty)
  /\ entry_at out (fs w0) = Some (F c_empty).
Proof.
  intros Hnd. unfold open_w.
  destruct (lookup_path out (fs w)) as [[c|]|] eqn:Hout; try discriminate.
  - intros [= <-]. simpl. rewrite replace_entry_keys. split; [exact Hnd|].
    split; [apply (lookup_replace_eq _ _ c), Hout|].
    destruct out as [|x out]; [discriminate|].
    eapply entry_at_replace_eq. exact Hout.
  - destruct (lookup_path (parent out) (fs w)) as [[c|]|]; try discriminate.
    intros [= <-]. simpl. destruct out as [|x out]; [discriminate|].
    simpl in Hout. apply entry_at_none in Hout as Hkey.
    assert (Hat : entry_at (x :: out) (fs w ++ [(x :: out, F c_empty)]) = Some (F c_empty)).
    { clear Hnd Hkey. induction (fs w) as [|[q e] l IH]; simpl.
      - rewrite decide_True by reflexivity. reflexivity.
      - simpl in Hout. destruct (decide (q = x :: out)); [discriminate | apply IH, Hout]. }
    split; [|split; exact Hat].
    rewrite map_app. simpl. apply NoDup_app. split; [exact Hnd|].
    split; [|apply NoDup_singleton].
    intros q Hq Hq'. apply list_elem_of_singleton in Hq'. subst q. contradiction.
Qed.

(** [open_w] on two listings of the same filesystem. *)
Lemma open_w_perm (out : path) (w w' w0 : world) :
  NoDup (map fst (fs w)) -> fs w' ≡ₚ fs w ->
  open_w out w = (w0, Ok tt) ->
  exists w0', open_w out w' = (w0', Ok tt) /\ fs w0' ≡ₚ fs w0.
Proof.
  intros Hnd Hperm. unfold open_w.
  rewrite <- !(lookup_path_perm (fs w) (fs w') _ Hnd (symmetry Hperm)).
  destruct (lookup_path out (fs w)) as [[c|]|]; try discriminate.
  - intros [= <-]. eexists. split; [reflexivity|]. simpl.
    symmetry. apply replace_entry_perm; [exact Hnd | symmetry; exact Hperm].
  - destruct (lookup_path (parent out) (fs w)) as [[c|]|]; try discriminate.
    intros [= <-]. eexists. split; [reflexivity|]. simpl.
    apply Permutation_app_tail, Hperm.
Qed.

(** C3. Two runs of [create_zip_archive] over the same tree leave the same
    archive, whatever order the operating system enumerates the tree in.
    On a filesystem with one entry per path and for an output that is none
    of the files archived, if a run returns, the archive it leaves is made
    of the members of the tree it was given; a run on any other listing of
    the same filesystem returns with the same archive, and so does a second
    run on any listing of the filesystem the first one left: [sorted] fixes
    the order of the members. *)
Theorem create_zip_archive_deterministic (w w1 : world) (out root o : path) :
  NoDup (map fst (fs w)) ->
  outside_items root out = true ->
  create_zip_archive out root w = (w1, Ok o) ->
  exists c,
    lookup_path out (fs w1) = Some (F c)
    /\ c = zip_archive (archive_members (fs w) root)
    /\ (forall w', fs w' ≡ₚ fs w ->
          exists w1', create_zip_archive out root w' = (w1', Ok o)
                      /\ lookup_path out (fs w1') = Some (F c)
                      /\ c_bytes (content_at (fs w1') out) = c_bytes c)
    /\ (forall w2, fs w2 ≡ₚ fs w1 ->
          exists w3, create_zip_archive out root w2 = (w3, Ok o)
                     /\ lookup_path out (fs w3) = Some (F c)
                     /\ c_bytes (content_at (fs w3) out) = c_bytes c).
Proof.
  intros Hnd Houtside. rewrite create_zip_archive_run.
  destruct (open_w out w) as [w0 [[]|e]] eqn:Hopen; [|discriminate].
  intros [= <- <-].
  destruct (open_w_ok _ _ _ Hnd Hopen) as (Hnd0 & Hout0 & Hat0).
  exists (zip_archive (archive_members (fs w0) root)). simpl fs.
  split; [apply (lookup_replace_eq _ _ c_empty), Hout0|].
  split; [rewrite (archive_members_open _ _ _ _ Hopen Houtside); reflexivity|].
  split.
  - intros w' Hperm.
    destruct (open_w_perm _ _ _ _ Hnd Hperm Hopen) as (w0' & Hopen' & Hperm0).
    eexists. rewrite create_zip_archive_run, Hopen'. split; [reflexivity|].
    simpl fs.
    rewrite (archive_members_perm (fs w0) (fs w0') root Hnd0 (symmetry Hperm0)).
    assert (Hl : lookup_path out (fs w0') = Some (F c_empty)).
    { rewrite <- (lookup_path_perm (fs w0) (fs w0') out Hnd0 (symmetry Hperm0)).
      exact Hout0. }
    assert (Hfile := lookup_replace_eq out
              (F (zip_archive (archive_members (fs w0') root))) c_empty _ Hl).
    split; [exact Hfile|]. unfold content_at. rewrite Hfile. reflexivity.
  - intros w2 Hperm.
    set (zip := zip_archive (archive_members (fs w0) root)) in *.
    assert (Hnd1 : NoDup (map fst (replace_entry out (F zip) (fs w0))))
      by (rewrite replace_entry_keys; exact Hnd0).
    assert (Hl2 : lookup_path out (fs w2) = Some (F zip)).
    { rewrite <- (lookup_path_perm _ (fs w2) out Hnd1 (symmetry Hperm)).
      apply (lookup_replace_eq _ _ c_empty), Hout0. }
    assert (Hperm0 : replace_entry out (F c_empty) (fs w2) ≡ₚ fs w0).
    { transitivity (replace_entry out (F c_empty) (replace_entry out (F zip) (fs w0))).
      - symmetry. apply replace_entry_perm; [exact Hnd1 | symmetry; exact Hperm].
      - rewrite replace_entry_twice, (replace_entry_same _ _ _ Hat0). reflexivity. }
    eexists. rewrite create_zip_archive_run. unfold open_w at 1. rewrite Hl2.
    split; [reflexivity|]. simpl fs.
    rewrite <- (archive_members_perm (fs w0) _ root Hnd0 (symmetry Hperm0)).
    assert (Hl0 := lookup_replace_eq out (F c_empty) zip _ Hl2).
    assert (Hfile := lookup_replace_eq out (F zip) c_empty _ Hl0).
    split; [exact Hfile|]. unfold content_at. subst zip. rewrite Hfile. reflexivity.
Qed.

End TwoRuns.

(** ** main and the validation *)

Lemma append_nil_r (s : string) : s +:+ EmptyString = s.
Proof.
  induction s as [|c s IH]; [reflexivity|].
  change (String c (s +:+ EmptyString) = String c s). f_equal. exact IH.
Qed.

(** The first component of a split string starts with what was pending. *)
Lemma split_slash_head (s cur : string) :
  exists suffix rest, split_slash s cur = (cur +:+ suffix) :: rest.
Proof.
  revert cur. induction s as [|c s IH]; intros cur; simpl.
  - exists EmptyString, []. rewrite append_nil_r. reflexivity.
  - destruct (Ascii.eqb c slash).
    + exists EmptyString, (split_slash s EmptyString). rewrite append_nil_r. reflexivity.
    + destruct (IH (cur +:+ String c EmptyString)) as (suffix & rest & ->).
      exists (String c suffix), rest. rewrite append_assoc. reflexivity.
Qed.

(** The archive is never the manifest: its path below the root starts
    with a component that starts with [P]. *)
Lemma output_zip_not_manifest (root : path) (version : string) :
  output_zip_path root version <> root ++ ["docs"; "packages.json"].
Proof.
  unfold output_zip_path.
  change ("PULSAR-KiCad-Lib-" +:+ version +:+ ".zip")
    with (String "P" ("ULSAR-KiCad-Lib-" +:+ version +:+ ".zip")).
  unfold joinpath.
  change (Ascii.eqb "P" slash) with false. cbv iota.
  unfold parse_parts. cbn [split_slash].
  change (Ascii.eqb "P" slash) with false. cbv iota.
  destruct (split_slash_head ("ULSAR-KiCad-Lib-" +:+ version +:+ ".zip")
              (EmptyString +:+ "P")) as (suffix & rest & ->).
  change ((EmptyString +:+ "P") +:+ suffix) with (String "P" suffix).
  cbn [List.filter]. unfold keep_part at 1.
  change (String.eqb (String "P" suffix) EmptyString) with false.
  change (String.eqb (String "P" suffix) ".") with false.
  cbn [orb negb]. intros H. apply app_inv_head in H. discriminate.
Qed.

Ltac in_lines := rewrite ?elem_of_app, ?elem_of_cons; intuition.

Section Main.
Context {L : Library}.

Lemma run_bind_inv {A B} (m : M A) (k : A -> M B) (w w' : world) (b : B) :
  and_then m k w = (w', Ok b) ->
  exists w1 a, m w = (w1, Ok a) /\ k a w1 = (w', Ok b).
Proof.
  rewrite run_bind. destruct (m w) as [w1 [a|e]]; [eauto | discriminate].
Qed.

Lemma world_eta (w : world) : World (fs w) (stdout w) = w.
Proof. destruct w. reflexivity. Qed.

(** A loop that only warns: it prints one line for each element the
    condition holds of. *)
Lemma warn_loop {A} (cond : A -> bool) (msg : A -> string) (xs : list A) (w : world) :
  for_each xs (fun x _ => if cond x then print (msg x) else mret tt) tt w
  = (World (fs w)
       (stdout w ++ concat (map (fun x => if cond x then [msg x] else []) xs)),
     Ok tt).
Proof.
  revert w. induction xs as [|x xs IH]; intros w.
  - simpl. rewrite app_nil_r, world_eta. reflexivity.
  - cbn [for_each map concat]. rewrite run_bind. destruct (cond x).
    + unfold print at 1. rewrite IH. simpl. rewrite <- app_assoc. reflexivity.
    + rewrite run_ret, IH. reflexivity.
Qed.

(** The validation of any archive: it returns, the filesystem is as it
    was, and the console has the lines of [validation_lines] more. *)
Lemma validate_zip_run (out : path) (c : content) (names : list string) (w : world) :
  lookup_path out (fs w) = Some (F c) ->
  zip_namelist c = Some names ->
  validate_zip out w = (World (fs w) (stdout w ++ validation_lines names), Ok tt).
Proof.
  intros Hout Hnames. unfold validate_zip.
  rewrite run_bind. unfold print at 1.
  rewrite run_bind. unfold read_file at 1. cbn [fs]. rewrite Hout.
  rewrite run_bind. unfold lift at 1. rewrite Hnames.
  rewrite run_bind, warn_loop. rewrite run_bind, warn_loop.
  rewrite run_bind. unfold print. cbn [fs stdout].
  unfold validation_lines. rewrite <- !app_assoc. reflexivity.
Qed.


Lemma create_zip_archive_written (out root o : path) (w w' : world) :
  create_zip_archive out root w = (w', Ok o) ->
  exists ms, lookup_path out (fs w') = Some (F (zip_archive ms)).
Proof.
  rewrite create_zip_archive_run.
  destruct (open_w out w) as [w0 [[]|e]] eqn:Hopen; [|discriminate].
  intros [= <- _]. eexists.
  apply (lookup_replace_eq _ _ c_empty), (open_w_lookup _ _ _ Hopen).
Qed.

Lemma st_size_world (p : path) (w w' : world) (r : result Z) :
  st_size p w = (w', r) -> w' = w.
Proof.
  unfold st_size. destruct (lookup_path p (fs w)) as [[c|]|]; intros [= <- _]; reflexivity.
Qed.

Lemma compute_sha256_world (p : path) (w w' : world) (r : result string) :
  compute_sha256 p w = (w', r) -> w' = w.
Proof.
  unfold compute_sha256. rewrite run_bind. unfold read_file.
  destruct (lookup_path p (fs w)) as [[c|]|]; intros [= <- _]; reflexivity.
Qed.

Lemma print_inv (line : string) (k : M unit) (w w' : world) :
  (print line;; k) w = (w', Ok tt) ->
  k (World (fs w) (stdout w ++ [line])) = (w', Ok tt).
Proof. rewrite run_bind. unfold print. intros H. exact H. Qed.

Lemma update_packages_json_other (p q : path) (version tag sha : string)
    (ds isz : Z) (w w' : world) (r : result unit) :
  q <> p ->
  update_packages_json p version tag sha ds isz w = (w', r) ->
  lookup_path q (fs w') = lookup_path q (fs w).
Proof.
  intros Hne. rewrite update_packages_json_run.
  destruct (lookup_path p (fs w)) as [[c|]|]; try (intros [= <- _]; reflexivity).
  destruct (json_load c) as [data|]; try (intros [= <- _]; reflexivity).
  destruct (update_document _ _ _ _ _ data); intros [= <- _]; [|reflexivity].
  apply lookup_replace_ne, Hne.
Qed.

(** When [package] returns, the archive it wrote is at the output path. *)
Lemma package_archive (root : path) (version : string) (tag : option string)
    (w w1 : world) :
  package root version tag w = (w1, Ok tt) ->
  exists ms, lookup_path (output_zip_path root version) (fs w1)
             = Some (F (zip_archive ms)).
Proof.
  unfold package. intros H.
  apply print_inv, print_inv in H.
  apply run_bind_inv in H as (wa & [] & _ & H).
  apply run_bind_inv in H as (wb & install_size & _ & H).
  apply run_bind_inv in H as (wc & o & Hzip & H).
  apply create_zip_archive_written in Hzip as [ms Hms].
  apply run_bind_inv in H as (wd & download_size & Hsize & H).
  apply st_size_world in Hsize as ->.
  apply run_bind_inv in H as (we & sha & Hsha & H).
  apply compute_sha256_world in Hsha as ->.
  apply print_inv, print_inv, print_inv, print_inv in H.
  exists ms. rewrite <- Hms.
  apply (update_packages_json_other _ _ _ _ _ _ _ _ _ _
           (output_zip_not_manifest root version) H).
Qed.

Context {HL : LibraryLaws L}.

(** C5. The validation cannot make the run fail.  On any archive it
    returns, with the filesystem, and so the archive file, as it found it,
    and only lines printed: a warning for a missing [metadata.json], one
    for each missing directory prefix, and the closing warning when
    anything is missing.  And whenever the packaging steps of [main] have
    returned, [main] returns too, with exit status 0 and the filesystem
    those steps left. *)
Theorem validation_never_fatal :
  (forall (w : world) (out : path) (c : content) (names : list string),
     lookup_path out (fs w) = Some (F c) ->
     zip_namelist c = Some names ->
     validate_zip out w = (World (fs w) (stdout w ++ validation_lines names), Ok tt)
     /\ (name_in "metadata.json" names = false ->
         "  WARNING: Missing required file: metadata.json" ∈ validation_lines names)
     /\ (forall prefix, prefix ∈ required_prefixes ->
         any_startswith prefix names = false ->
         ("  WARNING: Missing required directory: " +:+ prefix)
         ∈ validation_lines names)
     /\ (structure_ok names = false ->
         "  WARNING: Archive may have issues" ∈ validation_lines names))
  /\ (forall (w w1 : world) (root : path) (version : string) (tag : option string),
        package root version tag w = (w1, Ok tt) ->
        exists w2,
          main root version tag w = (w2, Ok tt)
          /\ exit_status (snd (main root version tag w)) = 0
          /\ fs w2 = fs w1
          /\ exists c, lookup_path (output_zip_path root version) (fs w2) = Some (F c)).
Proof.
  split.
  - intros w out c names Hout Hnames.
    split; [apply (validate_zip_run _ c); assumption|].
    unfold validation_lines, required, required_prefixes. cbn [map concat].
    split; [|split].
    + intros ->. cbn [negb]. in_lines.
    + intros prefix Hin Hno.
      apply elem_of_cons in Hin as [->|Hin]; [rewrite Hno; cbn [negb]; in_lines|].
      apply list_elem_of_singleton in Hin as ->. rewrite Hno. cbn [negb]. in_lines.
    + intros ->. in_lines.
  - intros w w1 root version tag Hpkg.
    destruct (package_archive _ _ _ _ _ Hpkg) as [ms Hms].
    assert (Hmain : main root version tag w
              = (World (fs w1)
                   ((stdout w1 ++ validation_lines (map fst ms))
                    ++ [newline +:+ "Done! Upload "
                        +:+ path_name (output_zip_path root version)
                        +:+ " as a GitHub Release asset for tag "
                        +:+ effective_tag version tag]), Ok tt)).
    { unfold main. rewrite run_bind, Hpkg, run_bind.
      rewrite (validate_zip_run _ _ (map fst ms) _ Hms (zip_namelist_archive ms)).
      reflexivity. }
    eexists. split; [exact Hmain|]. rewrite Hmain.
    split; [reflexivity|]. split; [reflexivity|]. eexists. exact Hms.
Qed.

End Main.

(** *** The archive theorems on the demo repository *)



Lemma create_zip_archive_deterministic_witness :
  exists c w1',
    lookup_path ["repo"; "out.zip"]
      (fs (fst (create_zip_archive (L := Demo.library) ["repo"; "out.zip"] Demo.root
                  (World Demo.repo []))))
    = Some (F c)
    /\ create_zip_archive (L := Demo.library) ["repo"; "out.zip"] Demo.root
         (World (rev Demo.repo) [])
       = (w1', Ok ["repo"; "out.zip"])
    /\ lookup_path ["repo"; "out.zip"] (fs w1') = Some (F c).
Proof.
  destruct (create_zip_archive_deterministic (L := Demo.library) (World Demo.repo [])
              (fst (create_zip_archive (L := Demo.library) ["repo"; "out.zip"]
                      Demo.root (World Demo.repo [])))
              ["repo"; "out.zip"] Demo.root ["repo"; "out.zip"]
              ltac:(apply (bool_decide_unpack _); vm_compute; exact I) eq_refl eq_refl)
    as (c & Hc & _ & Hany & _).
  destruct (Hany (World (rev Demo.repo) []) (Permutation_sym (Permutation_rev _)))
    as (w1' & Hrun & Hc' & _).
  exists c, w1'. split; [exact Hc|]. split; [exact Hrun | exact Hc'].
Defined.

Lemma validation_never_fatal_witness :
  exit_status (snd (main (L := Demo.library) Demo.root "1.0.0" None
                      (World Demo.repo []))) = 0
  /\ "  WARNING: Missing required directory: footprints/"
     ∈ validation_lines ["metadata.json"; "symbols/a.kicad_sym"].
Proof.
  destruct (validation_never_fatal (L := Demo.library) (HL := demo_laws))
    as [Hvalidate Hmain].
  split.
  - destruct (Hmain (World Demo.repo [])
                (fst (package (L := Demo.library) Demo.root "1.0.0" None
                        (World Demo.repo [])))
                Demo.root "1.0.0" None eq_refl)
      as (w2 & _ & Hexit & _).
    exact Hexit.
  - destruct (Hvalidate
                (World [(["a.zip"],
                         F (L := Demo.library)
                           (Demo.Archive [("metadata.json", Demo.Raw []);
                                          ("symbols/a.kicad_sym", Demo.Raw [])]))] [])
                ["a.zip"] _ _ eq_refl eq_refl)
      as (_ & _ & Hprefix & _).
    apply (Hprefix "footprints/"); [|reflexivity].
    apply elem_of_cons. right. apply elem_of_cons. left. reflexivity.
Defined.

(** * Further properties of the script *)

(** ** The manifest updater beyond the upsert *)

Lemma dict_set_absent (k : string) (v : json) (d : dict) :
  dict_get k d = None -> dict_set k v d = d ++ [(k, v)].
Proof.
  induction d as [|[k' v'] d IH]; simpl; [reflexivity|].
  destruct (String.eqb k' k); [discriminate|].
  intros H. rewrite IH by exact H. reflexivity.
Qed.

Lemma dict_set_keys (k : string) (v v0 : json) (d : dict) :
  dict_get k d = Some v0 -> map fst (dict_set k v d) = map fst d.
Proof.
  induction d as [|[k' v'] d IH]; simpl; [discriminate|].
  destruct (String.eqb k' k); [reflexivity|].
  intros H. simpl. rewrite IH by exact H. reflexivity.
Qed.

Lemma eq_str_false (v version : string) : v <> version -> eq_str (JStr v) version = false.
Proof. intros H. simpl. apply String.eqb_neq, H. Qed.

Lemma version_of_has_version (version : string) (v : json) :
  has_version version v = false -> version_of v <> Some (JStr version).
Proof.
  intros H Hv. apply has_version_spec in Hv. congruence.
Qed.

Lemma getitem_str_errors (x : json) (k : string) (e : exn) :
  getitem_str x k = Raise e -> e = KeyError \/ e = TypeError.
Proof.
  destruct x; simpl; try (intros [= <-]; tauto).
  destruct (dict_get k fields); [discriminate | intros [= <-]; tauto].
Qed.

Lemma find_version_errors (version : string) (vs : list json) (i : nat) (e : exn) :
  find_version version vs i = Raise e -> e = KeyError \/ e = TypeError.
Proof.
  revert i. induction vs as [|v vs IH]; intros i; simpl; [discriminate|].
  unfold and_then, mbind, result_bind.
  destruct (getitem_str v "version") as [ver|e'] eqn:Hv.
  - destruct (eq_str ver version); [discriminate | apply IH].
  - intros [= <-]. apply (getitem_str_errors _ _ _ Hv).
Qed.

(** The exceptions the update of a loaded document can raise. *)
Lemma update_document_errors (version tag sha : string) (ds isz : Z) (data : json)
    (e : exn) :
  update_document version tag sha ds isz data = Raise e ->
  e = KeyError \/ e = IndexError \/ e = TypeError \/ e = AttributeError.
Proof.
  unfold update_document, and_then, mbind, result_bind.
  destruct (getitem_str data "packages") as [packages|e1] eqn:E1.
  2:{ intros [= <-]. destruct (getitem_str_errors _ _ _ E1); tauto. }
  destruct (getitem_0 packages) as [pkg|e2] eqn:E2.
  2:{ intros [= <-].
      destruct packages as [| | | |[|? ?]|[|? ?]|?]; simpl in E2; try discriminate;
        injection E2 as <-; tauto. }
  destruct (method_get pkg "versions" (JArr [])) as [versions|e3] eqn:E3.
  2:{ intros [= <-]. destruct pkg; simpl in E3; try discriminate;
        injection E3 as <-; tauto. }
  destruct (upsert_version version _ versions) as [versions'|e4] eqn:E4.
  2:{ intros [= <-]. unfold upsert_version, and_then, mbind, result_bind in E4.
      destruct versions as [| | | |[|? ?]|vs|[|? ?]]; try (injection E4 as <-; tauto).
      destruct (find_version version vs 0) as [[i|]|e5] eqn:E5; try discriminate.
      injection E4 as <-. destruct (find_version_errors _ _ _ _ E5); tauto. }
  destruct data, packages as [| | | | |[|? ?]|], pkg; try discriminate;
    intros [= <-]; tauto.
Qed.

(** The scan stops at the first entry that is no version record. *)
Lemma find_version_bad_entry (version : string) (vs : list json) (j : nat)
    (v : json) (k : nat) :
  vs !! j = Some v -> is_record v = false ->
  (forall i u, (i < j)%nat -> vs !! i = Some u ->
     is_record u = true /\ has_version version u = false) ->
  find_version version vs k
  = Raise (match v with JObj _ => KeyError | _ => TypeError end).
Proof.
  revert j k. induction vs as [|u vs IH]; intros j k Hj Hbad Hbefore; [discriminate|].
  destruct j as [|j]; simpl in Hj.
  - injection Hj as ->. simpl. unfold and_then, mbind, result_bind.
    unfold is_record, version_of in Hbad. destruct v; simpl; try reflexivity.
    destruct (dict_get "version" fields); [discriminate | reflexivity].
  - destruct (Hbefore 0%nat u ltac:(lia) eq_refl) as [Hrec Hno].
    pose proof (getitem_version u) as Hu.
    unfold is_record in Hrec. unfold has_version in Hno.
    destruct (version_of u) as [ver|]; [|discriminate].
    simpl. unfold and_then, mbind, result_bind. rewrite Hu, Hno.
    apply (IH j); [exact Hj | exact Hbad|].
    intros i u' Hi. apply (Hbefore (S i)). lia.
Qed.

Section ManifestMore.
Context {L : Library}.

(** X1. What makes [update_packages_json] fail, and that it fails before it
    writes.  A directory at the path, nothing at the path, a file on which
    [json.load] does not return, and a document whose update raises, each
    make the run raise the exception of that step and return the world it
    was given.  On a loaded document the exception is one of [KeyError],
    [IndexError], [TypeError] and [AttributeError].  In particular the scan
    stops at the first entry that is no version record, when every entry
    before it is a record of another version: with [KeyError] when the
    entry is an object, with [TypeError] when it is not, whatever entries
    follow. *)
Theorem update_packages_json_errors (w : world) (p : path)
    (version tag sha : string) (ds isz : Z) :
  (lookup_path p (fs w) = Some D ->
     update_packages_json p version tag sha ds isz w = (w, Raise IsADirectoryError))
  /\ (lookup_path p (fs w) = None ->
        update_packages_json p version tag sha ds isz w
        = (w, Raise (missing_error (fs w) p)))
  /\ (forall c, lookup_path p (fs w) = Some (F c) -> json_load c = None ->
        update_packages_json p version tag sha ds isz w
        = (w, Raise (json_load_error c)))
  /\ (forall c data e,
        lookup_path p (fs w) = Some (F c) -> json_load c = Some data ->
        update_document version tag sha ds isz data = Raise e ->
        update_packages_json p version tag sha ds isz w = (w, Raise e)
        /\ (e = KeyError \/ e = IndexError \/ e = TypeError \/ e = AttributeError))
  /\ (forall c data vs j v,
        lookup_path p (fs w) = Some (F c) -> json_load c = Some data ->
        manifest_versions data = Some vs ->
        vs !! j = Some v -> is_record v = false ->
        (forall i u, (i < j)%nat -> vs !! i = Some u ->
           is_record u = true /\ has_version version u = false) ->
        update_packages_json p version tag sha ds isz w
        = (w, Raise (match v with JObj _ => KeyError | _ => TypeError end))).
Proof.
  rewrite update_packages_json_run.
  split; [|split; [|split; [|split]]].
  - intros ->. reflexivity.
  - intros ->. reflexivity.
  - intros c -> ->. reflexivity.
  - intros c data e -> -> Hdoc. rewrite Hdoc. split; [reflexivity|].
    apply (update_document_errors _ _ _ _ _ _ _ Hdoc).
  - intros c data vs j v -> -> Hvs Hj Hbad Hbefore.
    rewrite (update_document_scan _ _ _ _ _ _ _ Hvs).
    rewrite (find_version_bad_entry _ _ _ _ _ Hj Hbad Hbefore). reflexivity.
Qed.

(** X2. A run of [update_packages_json] that returns touches nothing but
    the versions list of the first package: the top-level keys keep their
    order and, but for ["packages"], their values; the packages after the
    first are as they were; the first package keeps every key other than
    ["versions"]; no other file changes; one line is printed. *)
Theorem update_packages_json_frame (w w' : world) (p : path)
    (version tag sha : string) (ds isz : Z) :
  update_packages_json p version tag sha ds isz w = (w', Ok tt) ->
  exists c top fields others top' fields',
    lookup_path p (fs w) = Some (F c)
    /\ json_load c = Some (JObj top)
    /\ dict_get "packages" top = Some (JArr (JObj fields :: others))
    /\ lookup_path p (fs w') = Some (F (json_dump (JObj top')))
    /\ dict_get "packages" top' = Some (JArr (JObj fields' :: others))
    /\ map fst top' = map fst top
    /\ (forall k, k <> "packages" -> dict_get k top' = dict_get k top)
    /\ (forall k, k <> "versions" -> dict_get k fields' = dict_get k fields)
    /\ (forall q, q <> p -> lookup_path q (fs w') = lookup_path q (fs w))
    /\ stdout w' = stdout w ++ ["Updated " +:+ path_str p].
Proof.
  rewrite update_packages_json_run.
  destruct (lookup_path p (fs w)) as [[c|]|] eqn:Hp; try discriminate.
  destruct (json_load c) as [data|] eqn:Hc; try discriminate.
  destruct (update_document _ _ _ _ _ data) as [data'|] eqn:Hup; [|discriminate].
  intros [= <-].
  apply update_document_ok in Hup
    as (top & fields & others & vs & found & -> & Hpk & _ & _ & ->).
  unfold with_versions. rewrite Hpk.
  eexists c, top, fields, others, _, _.
  split; [reflexivity|]. split; [exact Hc|]. split; [exact Hpk|].
  split; [exact (lookup_replace_eq p _ c _ Hp)|].
  split; [apply dict_get_set_eq|].
  split; [eapply dict_set_keys, Hpk|].
  split; [intros k Hk; apply dict_get_set_ne; congruence|].
  split; [intros k Hk; apply dict_get_set_ne; congruence|].
  split; [intros q Hq; apply lookup_replace_ne, Hq | reflexivity].
Qed.

(** X3. A first package without a ["versions"] key gets one: the run
    returns, the key is added after the package's other keys, and the list
    it maps to holds the new entry alone. *)
Theorem update_packages_json_creates_versions (w : world) (p : path)
    (version tag sha : string) (ds isz : Z) (c : content) (top fields : dict)
    (others : list json) :
  lookup_path p (fs w) = Some (F c) ->
  json_load c = Some (JObj top) ->
  dict_get "packages" top = Some (JArr (JObj fields :: others)) ->
  dict_get "versions" fields = None ->
  exists w' data',
    update_packages_json p version tag sha ds isz w = (w', Ok tt)
    /\ lookup_path p (fs w') = Some (F (json_dump data'))
    /\ packages_of data'
       = Some (JArr (JObj (fields ++ [("versions",
                                       JArr [new_version_entry version tag sha ds isz])])
                     :: others))
    /\ manifest_versions data' = Some [new_version_entry version tag sha ds isz].
Proof.
  intros Hp Hc Hpk Hvs. eexists _, _.
  rewrite update_packages_json_run, Hp, Hc.
  unfold update_document, and_then, mbind, result_bind. simpl.
  rewrite Hpk. simpl. rewrite Hvs. simpl.
  split; [reflexivity|].
  split; [exact (lookup_replace_eq p _ c _ Hp)|].
  unfold manifest_versions, packages_of. rewrite dict_get_set_eq.
  rewrite dict_get_set_eq, (dict_set_absent _ _ _ Hvs). split; reflexivity.
Qed.

(** X4. The upsert keeps the list a list of version records with pairwise
    different versions: if the versions list was one, the run returns and
    the list written is one again, with exactly one entry of the given
    version. *)
Theorem update_packages_json_keeps_unique (w : world) (p : path)
    (version tag sha : string) (ds isz : Z) (c : content) (data : json)
    (vs : list json) :
  lookup_path p (fs w) = Some (F c) ->
  json_load c = Some data ->
  manifest_versions data = Some vs ->
  Forall (fun v => is_record v = true) vs ->
  NoDup (map version_of vs) ->
  exists w' vs',
    update_packages_json p version tag sha ds isz w = (w', Ok tt)
    /\ lookup_path p (fs w') = Some (F (json_dump (with_versions vs' data)))
    /\ manifest_versions (with_versions vs' data) = Some vs'
    /\ Forall (fun v => is_record v = true) vs'
    /\ NoDup (map version_of vs')
    /\ length (List.filter (has_version version) vs') = 1%nat.
Proof.
  intros Hp Hc Hvs Hrec Hnd.
  set (entry := new_version_entry version tag sha ds isz).
  assert (Hentry : has_version version entry = true)
    by apply new_version_entry_has_version.
  destruct (find_version_total version vs 0 Hrec) as [found Hf].
  eexists _, (upserted entry vs found).
  rewrite update_packages_json_run, Hp, Hc.
  rewrite (update_document_scan _ _ _ _ _ _ _ Hvs), Hf.
  split; [reflexivity|].
  split; [exact (lookup_replace_eq p _ c _ Hp)|].
  split.
  { unfold manifest_versions, packages_of in Hvs.
    destruct data as [| | | | | |top]; try discriminate.
    destruct (dict_get "packages" top) as [[| | | | |[|[| | | | | |fields] others]|]|] eqn:Hpk;
      try discriminate.
    eapply manifest_versions_with; [reflexivity | exact Hpk]. }
  assert (Hcount : forall us, Forall (fun v => has_version version v = false) us ->
             List.filter (has_version version) us = []).
  { induction 1 as [|u us Hu _ IH]; simpl; [reflexivity|]. rewrite Hu. exact IH. }
  destruct found as [i|]; simpl.
  - apply find_version_some in Hf as (j & -> & [(v & Hv & Hhas) Hbefore]). simpl.
    apply has_version_spec in Hhas as Hver.
    assert (Hmap : map version_of (<[j := entry]> vs) = map version_of vs).
    { change (map version_of) with (fmap (M := list) version_of).
      rewrite list_fmap_insert. apply list_insert_id.
      rewrite list_lookup_fmap, Hv. simpl. rewrite Hver. reflexivity. }
    split; [|split].
    + apply Forall_insert; [exact Hrec | reflexivity].
    + rewrite Hmap. exact Hnd.
    + (* the entries around index [j] have other versions *)
      assert (Hother : forall k u, vs !! k = Some u -> k <> j ->
                has_version version u = false).
      { intros k u Hu Hk. destruct (has_version version u) eqn:Hhu; [|reflexivity].
        apply has_version_spec in Hhu.
        destruct Hk. eapply NoDup_lookup; [exact Hnd | |].
        - change (map version_of vs) with (version_of <$> vs).
          rewrite list_lookup_fmap, Hu. simpl. rewrite Hhu. reflexivity.
        - change (map version_of vs) with (version_of <$> vs).
          rewrite list_lookup_fmap, Hv. simpl. rewrite Hver. reflexivity. }
      rewrite <- (take_drop_middle vs j v Hv) at 1.
      rewrite insert_app_r_alt by (rewrite length_take; lia).
      rewrite length_take, Nat.min_l by (apply lookup_lt_Some in Hv; lia).
      rewrite Nat.sub_diag.
      change (<[0%nat := entry]> (v :: drop (S j) vs)) with (entry :: drop (S j) vs).
      rewrite List.filter_app. cbn [List.filter]. rewrite Hentry.
      rewrite !Hcount; [reflexivity| |].
      * apply Forall_forall. intros u Hu.
        apply list_elem_of_lookup in Hu as [k Hk].
        rewrite lookup_drop in Hk. apply (Hother _ _ Hk). lia.
      * apply Forall_forall. intros u Hu.
        apply list_elem_of_lookup in Hu as [k Hk].
        apply lookup_take_Some in Hk as [Hk Hlt]. apply (Hother _ _ Hk). lia.
  - apply find_version_none in Hf.
    assert (Hno : Forall (fun v => has_version version v = false) vs)
      by (eapply Forall_impl; [exact Hf | intros v [_ H]; exact H]).
    split; [|split].
    + apply Forall_app. split; [exact Hrec | repeat constructor].
    + rewrite map_app. simpl. apply NoDup_app. split; [exact Hnd|].
      split; [|apply NoDup_singleton].
      intros x Hx Hx'. apply list_elem_of_singleton in Hx'. subst x.
      apply list_elem_of_fmap in Hx as (v & Hv & Hin).
      rewrite Forall_forall in Hno. apply (version_of_has_version version v (Hno v Hin)).
      symmetry. exact Hv.
    + rewrite List.filter_app, (Hcount _ Hno). cbn [List.filter app].
      rewrite Hentry. reflexivity.
Qed.

Context {HL : LibraryLaws L}.

(** X5. Releases add up: after a run for one version and a run for another,
    both returning, the versions list on disk holds the entry of each. *)
Theorem update_packages_json_two_versions (w w1 w2 : world) (p : path)
    (v1 t1 s1 v2 t2 s2 : string) (d1 i1 d2 i2 : Z) :
  v1 <> v2 ->
  update_packages_json p v1 t1 s1 d1 i1 w = (w1, Ok tt) ->
  update_packages_json p v2 t2 s2 d2 i2 w1 = (w2, Ok tt) ->
  exists data vs i j,
    lookup_path p (fs w2) = Some (F (json_dump data))
    /\ manifest_versions data = Some vs
    /\ vs !! i = Some (new_version_entry v1 t1 s1 d1 i1)
    /\ vs !! j = Some (new_version_entry v2 t2 s2 d2 i2)
    /\ i <> j.
Proof.
  intros Hne. rewrite !update_packages_json_run.
  destruct (lookup_path p (fs w)) as [[c|]|] eqn:Hp; try discriminate.
  destruct (json_load c) as [data0|]; try discriminate.
  destruct (update_document _ _ _ _ _ data0) as [data1|] eqn:Hup1; [|discriminate].
  intros [= <-]. cbn [fs].
  rewrite (lookup_replace_eq p _ c _ Hp), json_load_dump.
  destruct (update_document v2 _ _ _ _ data1) as [data2|] eqn:Hup2; [|discriminate].
  intros [= <-].
  apply update_document_ok in Hup1
    as (top & fields & others & vs0 & found1 & -> & Hpk & _ & Hf1 & ->).
  destruct (upserted_first_match v1 t1 s1 d1 i1 vs0 found1 Hf1) as (i & Hi & _).
  set (vs1 := upserted (new_version_entry v1 t1 s1 d1 i1) vs0 found1) in *.
  set (top1 := dict_set "packages"
                 (JArr (JObj (dict_set "versions" (JArr vs1) fields) :: others)) top).
  assert (Hdata1 : with_versions vs1 (JObj top) = JObj top1)
    by (unfold with_versions; rewrite Hpk; reflexivity).
  assert (Hpk1 : dict_get "packages" top1
                 = Some (JArr (JObj (dict_set "versions" (JArr vs1) fields) :: others)))
    by apply dict_get_set_eq.
  assert (Hvs1 : manifest_versions (JObj top1) = Some vs1)
    by (unfold manifest_versions, packages_of; rewrite Hpk1, dict_get_set_eq; reflexivity).
  rewrite Hdata1 in *.
  rewrite (update_document_scan _ _ _ _ _ _ _ Hvs1) in Hup2.
  destruct (find_version v2 vs1 0) as [found2|] eqn:Hf2; [|discriminate].
  injection Hup2 as <-.
  assert (Hentry1 : has_version v2 (new_version_entry v1 t1 s1 d1 i1) = false)
    by (apply eq_str_false, Hne).
  exists (with_versions (upserted (new_version_entry v2 t2 s2 d2 i2) vs1 found2)
            (JObj top1)).
  exists (upserted (new_version_entry v2 t2 s2 d2 i2) vs1 found2), i,
    (match found2 with Some k => k | None => length vs1 end).
  split.
  { assert (Hl := lookup_replace_eq p (F (json_dump (JObj top1))) c _ Hp).
    exact (lookup_replace_eq p _ _ _ Hl). }
  split; [eapply manifest_versions_with; [reflexivity | exact Hpk1]|].
  destruct found2 as [k|]; simpl.
  - apply find_version_some in Hf2 as (k' & -> & [(u & Hu & Hhas) _]). simpl.
    assert (Hik : i <> k') by (intros ->; congruence).
    split; [rewrite list_lookup_insert_ne by congruence; exact Hi|].
    split; [apply list_lookup_insert_eq; apply lookup_lt_Some in Hu; exact Hu|].
    exact Hik.
  - apply lookup_lt_Some in Hi as Hlt.
    split; [rewrite lookup_app_l by exact Hlt; exact Hi|].
    split; [apply list_lookup_middle; reflexivity | lia].
Qed.

End ManifestMore.

(** ** The metadata updater beyond the single version *)

Section MetadataMore.
Context {L : Library}.

(** X6. What makes [update_metadata_json] fail, and that it fails before it
    writes.  A directory at the path, nothing at the path, a file on which
    [json.load] does not return, and a document that is not an object each
    make the run raise and return the world it was given; a document that
    is no object raises [TypeError] at the assignment of its versions. *)
Theorem update_metadata_json_errors (w : world) (p : path) (version : string) :
  (lookup_path p (fs w) = Some D ->
     update_metadata_json p version w = (w, Raise IsADirectoryError))
  /\ (lookup_path p (fs w) = None ->
        update_metadata_json p version w = (w, Raise (missing_error (fs w) p)))
  /\ (forall c, lookup_path p (fs w) = Some (F c) -> json_load c = None ->
        update_metadata_json p version w = (w, Raise (json_load_error c)))
  /\ (forall c data,
        lookup_path p (fs w) = Some (F c) -> json_load c = Some data ->
        (forall top, data <> JObj top) ->
        update_metadata_json p version w = (w, Raise TypeError)).
Proof.
  rewrite update_metadata_json_run.
  split; [|split; [|split]].
  - intros ->. reflexivity.
  - intros ->. reflexivity.
  - intros c -> ->. reflexivity.
  - intros c data -> -> Hno. destruct data; try reflexivity.
    destruct (Hno fields eq_refl).
Qed.

Context {HL : LibraryLaws L}.

(** X7. The last run of [update_metadata_json] wins: a run for one version
    followed by a run for another leaves the filesystem, and the outcome,
    of the second run alone.  With the same version twice, the second run
    changes nothing. *)
Theorem update_metadata_json_last_wins (w : world) (p : path) (v1 v2 : string) :
  fs (fst ((update_metadata_json p v1;; update_metadata_json p v2) w))
  = fs (fst (update_metadata_json p v2 w))
  /\ snd ((update_metadata_json p v1;; update_metadata_json p v2) w)
     = snd (update_metadata_json p v2 w).
Proof.
  rewrite run_bind, !update_metadata_json_run.
  destruct (lookup_path p (fs w)) as [[c|]|] eqn:Hp; try (split; reflexivity).
  destruct (json_load c) as [data|]; try (split; reflexivity).
  destruct data as [| | | | | |top]; try (split; reflexivity).
  cbn [set_versions]. rewrite update_metadata_json_run. cbn [fs].
  rewrite (lookup_replace_eq p _ c _ Hp), json_load_dump. cbn [set_versions fst snd fs].
  rewrite replace_entry_twice, dict_set_set. split; reflexivity.
Qed.

End MetadataMore.

(** *** On the demo repository *)

Lemma update_packages_json_errors_witness :
  update_packages_json (L := Demo.library) ["m.json"] "1.0.0" "v1.0.0" "ab" 10 20
    (World DemoTrees.bad_manifest [])
  = (World DemoTrees.bad_manifest [], Raise KeyError)
  /\ update_packages_json (L := Demo.library)
       ["repo"; "metadata.json"; "packages.json"] "1.0.0" "v1.0.0" "ab" 10 20
       (World Demo.repo [])
     = (World Demo.repo [], Raise NotADirectoryError)
  /\ update_packages_json (L := Demo.library) ["repo"; "symbols"; "a.kicad_sym"]
       "1.0.0" "v1.0.0" "ab" 10 20 (World Demo.repo [])
     = (World Demo.repo [], Raise JSONDecodeError).
Proof.
  split; [|split].
  - exact (proj2 (proj2 (proj2 (proj2
             (update_packages_json_errors (L := Demo.library)
                (World DemoTrees.bad_manifest []) ["m.json"]
                "1.0.0" "v1.0.0" "ab" 10 20))))
             _ _ _ 1%nat (JObj [("status", JStr "stable")])
             eq_refl eq_refl eq_refl eq_refl eq_refl
             ltac:(intros [|i] u Hi Hu;
                   [injection Hu as <-; split; reflexivity | lia])).
  - exact (proj1 (proj2
             (update_packages_json_errors (L := Demo.library) (World Demo.repo [])
                ["repo"; "metadata.json"; "packages.json"]
                "1.0.0" "v1.0.0" "ab" 10 20)) eq_refl).
  - exact (proj1 (proj2 (proj2
             (update_packages_json_errors (L := Demo.library) (World Demo.repo [])
                ["repo"; "symbols"; "a.kicad_sym"]
                "1.0.0" "v1.0.0" "ab" 10 20))) _ eq_refl eq_refl).
Defined.

Lemma update_packages_json_frame_witness :
  stdout (fst (update_packages_json (L := Demo.library)
                 ["repo"; "docs"; "packages.json"] "1.0.0" "v1.0.0" "ab" 10 20
                 (World Demo.repo [])))
  = ["Updated /repo/docs/packages.json"].
Proof.
  destruct (update_packages_json_frame (L := Demo.library) (World Demo.repo [])
              (fst (update_packages_json (L := Demo.library)
                      ["repo"; "docs"; "packages.json"] "1.0.0" "v1.0.0" "ab" 10 20
                      (World Demo.repo [])))
              ["repo"; "docs"; "packages.json"] "1.0.0" "v1.0.0" "ab" 10 20 eq_refl)
    as (c & top & fields & others & top' & fields' & H).
  exact (proj2 (proj2 (proj2 (proj2 (proj2 (proj2 (proj2 (proj2 (proj2 H))))))))).
Defined.

Lemma update_packages_json_creates_versions_witness :
  exists w' data',
    update_packages_json (L := Demo.library) ["m.json"] "1.0.0" "v1.0.0" "ab" 10 20
      (World [(["m.json"],
               F (L := Demo.library)
                 (Demo.JsonText
                    (JObj [("packages", JArr [JObj [("name", JStr "PULSAR")]])])))] [])
    = (w', Ok tt)
    /\ manifest_versions data' = Some [new_version_entry "1.0.0" "v1.0.0" "ab" 10 20].
Proof.
  destruct (update_packages_json_creates_versions (L := Demo.library)
              (World [(["m.json"],
                       F (L := Demo.library)
                         (Demo.JsonText
                            (JObj [("packages", JArr [JObj [("name", JStr "PULSAR")]])])))]
                 [])
              ["m.json"] "1.0.0" "v1.0.0" "ab" 10 20 _ _ _ _
              eq_refl eq_refl eq_refl eq_refl)
    as (w' & data' & Hrun & _ & _ & Hvs).
  exists w', data'. split; [exact Hrun | exact Hvs].
Defined.

Lemma update_packages_json_keeps_unique_witness :
  exists w' vs',
    update_packages_json (L := Demo.library) ["repo"; "docs"; "packages.json"]
      "1.0.0" "v1.0.0" "ab" 10 20 (World Demo.repo []) = (w', Ok tt)
    /\ NoDup (map version_of vs')
    /\ length (List.filter (has_version "1.0.0") vs') = 1%nat.
Proof.
  destruct (update_packages_json_keeps_unique (L := Demo.library) (World Demo.repo [])
              ["repo"; "docs"; "packages.json"] "1.0.0" "v1.0.0" "ab" 10 20
              (Demo.JsonText (Demo.manifest [Demo.record "0.9.0" "stable"]))
              (Demo.manifest [Demo.record "0.9.0" "stable"])
              [Demo.record "0.9.0" "stable"]
              eq_refl eq_refl eq_refl ltac:(repeat constructor)
              ltac:(apply NoDup_singleton))
    as (w' & vs' & Hrun & _ & _ & _ & Hnd & Hone).
  exists w', vs'. split; [exact Hrun|]. split; [exact Hnd | exact Hone].
Defined.

Lemma update_packages_json_two_versions_witness :
  exists data vs i j,
    lookup_path ["repo"; "docs"; "packages.json"]
      (fs (fst (update_packages_json (L := Demo.library)
                  ["repo"; "docs"; "packages.json"] "1.1.0" "v1.1.0" "cd" 11 21
                  (fst (update_packages_json (L := Demo.library)
                          ["repo"; "docs"; "packages.json"] "1.0.0" "v1.0.0" "ab" 10 20
                          (World Demo.repo []))))))
    = Some (F (json_dump data))
    /\ manifest_versions data = Some vs
    /\ vs !! i = Some (new_version_entry "1.0.0" "v1.0.0" "ab" 10 20)
    /\ vs !! j = Some (new_version_entry "1.1.0" "v1.1.0" "cd" 11 21)
    /\ i <> j.
Proof.
  exact (update_packages_json_two_versions (L := Demo.library) (HL := demo_laws)
           (World Demo.repo []) _ _ ["repo"; "docs"; "packages.json"]
           "1.0.0" "v1.0.0" "ab" "1.1.0" "v1.1.0" "cd" 10 20 11 21
           ltac:(discriminate) eq_refl eq_refl).
Defined.

Lemma update_metadata_json_errors_witness :
  update_metadata_json (L := Demo.library) ["repo"; "symbols"] "1.0.0"
    (World Demo.repo [])
  = (World Demo.repo [], Raise IsADirectoryError)
  /\ update_metadata_json (L := Demo.library) ["repo"; "docs"; "metadata.json"]
       "1.0.0" (World DemoTrees.docs_is_file [])
     = (World DemoTrees.docs_is_file [], Raise NotADirectoryError)
  /\ update_metadata_json (L := Demo.library) ["list.json"] "1.0.0"
       (World DemoTrees.list_document [])
     = (World DemoTrees.list_document [], Raise TypeError).
Proof.
  split; [|split].
  - exact (proj1 (update_metadata_json_errors (L := Demo.library)
                    (World Demo.repo []) ["repo"; "symbols"] "1.0.0") eq_refl).
  - exact (proj1 (proj2 (update_metadata_json_errors (L := Demo.library)
                           (World DemoTrees.docs_is_file [])
                           ["repo"; "docs"; "metadata.json"] "1.0.0")) eq_refl).
  - exact (proj2 (proj2 (proj2 (update_metadata_json_errors (L := Demo.library)
                                  (World DemoTrees.list_document [])
                                  ["list.json"] "1.0.0")))
             _ _ eq_refl eq_refl ltac:(intros top; discriminate)).
Defined.

Lemma update_metadata_json_last_wins_witness :
  fs (fst ((update_metadata_json (L := Demo.library) ["repo"; "metadata.json"] "1.0.0";;
            update_metadata_json ["repo"; "metadata.json"] "2.0.0") (World Demo.repo [])))
  = fs (fst (update_metadata_json (L := Demo.library) ["repo"; "metadata.json"] "2.0.0"
               (World Demo.repo []))).
Proof.
  exact (proj1 (update_metadata_json_last_wins (L := Demo.library) (HL := demo_laws)
                  (World Demo.repo []) ["repo"; "metadata.json"] "1.0.0" "2.0.0")).
Defined.

(** ** The walks over the tree *)

Lemma strongly_sorted_filter {A} (R : relation A) (f : A -> bool) (xs : list A) :
  StronglySorted R xs -> StronglySorted R (List.filter f xs).
Proof.
  induction 1 as [|x xs _ IH Hx]; simpl; [constructor|].
  destruct (f x); [|exact IH]. constructor; [exact IH|].
  apply Forall_forall. intros y Hy. rewrite Forall_forall in Hx. apply Hx.
  apply (proj1 (list_elem_of_In _ _)), filter_In in Hy as [Hy _].
  apply list_elem_of_In, Hy.
Qed.

Lemma filter_perm {A} (f : A -> bool) (xs ys : list A) :
  xs ≡ₚ ys -> List.filter f xs ≡ₚ List.filter f ys.
Proof.
  induction 1 as [|x xs ys _ IH|x y xs|xs ys zs _ IH1 _ IH2]; simpl.
  - reflexivity.
  - destruct (f x); [constructor|]; exact IH.
  - destruct (f x), (f y); try reflexivity. constructor.
  - etransitivity; eassumption.
Qed.

Section Walks.
Context {L : Library}.

Lemma sum_sizes_nonneg (l : filesystem) (ps : list path) : 0 <= sum_sizes l ps.
Proof.
  induction ps as [|p ps IH]; simpl; [lia|].
  assert (0 <= file_size l p); [|lia].
  unfold file_size. destruct (lookup_path p l) as [[c|]|]; lia.
Qed.

(** X8. [compute_install_size] adds up: the empty list gives 0, a
    concatenation gives the sum of what its parts give, and the result is
    never negative. *)
Theorem compute_install_size_additive (w : world) (xs ys : list path) :
  compute_install_size [] w = (w, Ok 0)
  /\ exists a b,
       compute_install_size xs w = (w, Ok a)
       /\ compute_install_size ys w = (w, Ok b)
       /\ compute_install_size (xs ++ ys) w = (w, Ok (a + b))
       /\ 0 <= a.
Proof.
  split; [reflexivity|].
  eexists _, _. rewrite !compute_install_size_run.
  split; [reflexivity|]. split; [reflexivity|].
  split; [|apply sum_sizes_nonneg].
  rewrite map_app, concat_app, sum_sizes_app. reflexivity.
Qed.


(** X9. [create_zip_archive] writes nothing but its output.  A run that
    returns returns the output path, has printed nothing and leaves every
    other path as it was.  An output that is a directory, or whose
    directory does not exist, makes the run raise before anything is
    written: [IsADirectoryError] in the first case, what opening a missing
    path raises in the second. *)
Theorem create_zip_archive_frame (w : world) (out root : path) :
  (forall w' o, create_zip_archive out root w = (w', Ok o) ->
     o = out /\ stdout w' = stdout w
     /\ (exists ms, lookup_path out (fs w') = Some (F (zip_archive ms)))
     /\ forall q, q <> out -> lookup_path q (fs w') = lookup_path q (fs w))
  /\ (lookup_path out (fs w) = Some D ->
        create_zip_archive out root w = (w, Raise IsADirectoryError))
  /\ (lookup_path out (fs w) = None ->
      lookup_path (parent out) (fs w) <> Some D ->
        create_zip_archive out root w
        = (w, Raise (missing_error (fs w) out))).
Proof.
  rewrite create_zip_archive_run. split; [|split].
  - destruct (open_w out w) as [w0 [[]|e0]] eqn:Hopen; [|discriminate].
    intros w' o [= <- <-]. destruct (open_w_frame _ _ _ Hopen) as [Hout Hframe].
    split; [reflexivity|]. split; [exact Hout|]. split.
    + eexists. apply (lookup_replace_eq _ _ c_empty), (open_w_lookup _ _ _ Hopen).
    + intros q Hq. cbn [fs]. rewrite lookup_replace_ne by exact Hq. apply Hframe, Hq.
  - intros Hdir. unfold open_w. rewrite Hdir. reflexivity.
  - intros Hnone Hparent. unfold open_w. rewrite Hnone.
    destruct (lookup_path (parent out) (fs w)) as [[c|]|];
      [reflexivity | contradiction | reflexivity].
Qed.

(** The members of an item are those of its paths. *)
Lemma item_members_paths (l : filesystem) (root item : path) :
  item_members l root item = map (member_of l root) (item_paths l item).
Proof.
  unfold item_members, item_paths.
  destruct (lookup_path item l) as [[c|]|]; reflexivity.
Qed.

Lemma archive_members_paths (l : filesystem) (root : path) :
  archive_members l root
  = map (member_of l root) (concat (map (item_paths l) (items_to_include root))).
Proof.
  unfold archive_members.
  induction (items_to_include root) as [|item items IH]; simpl; [reflexivity|].
  rewrite map_app, item_members_paths, IH. reflexivity.
Qed.

Lemma elem_of_archive_members (l : filesystem) (root item p : path) :
  item ∈ items_to_include root -> p ∈ item_paths l item ->
  member_of l root p ∈ archive_members l root.
Proof.
  intros Hitem Hp. unfold archive_members. apply list_elem_of_In, in_concat.
  exists (item_members l root item). split.
  - apply in_map, list_elem_of_In, Hitem.
  - rewrite item_members_paths. apply in_map, list_elem_of_In, Hp.
Qed.

Lemma elem_of_listing (l : filesystem) (d p : path) (e : entry) :
  p <> [] -> lookup_path p l = Some e -> below d p = true -> p ∈ listing_below l d.
Proof.
  intros Hp Hl Hb. destruct p as [|x p]; [contradiction|]. simpl in Hl.
  apply entry_at_elem in Hl. unfold listing_below.
  apply list_elem_of_In, in_map_iff. exists (x :: p, e). split; [reflexivity|].
  apply filter_In. split; [apply list_elem_of_In, Hl | exact Hb].
Qed.

(** X10. Nothing is left out: when the output is none of the files
    archived and the run returns, a regular file that is one of the items,
    or lies below an item that is a directory, is a member of the archive,
    under the name made of its path relative to the root and with its
    content. *)
Theorem create_zip_archive_complete (w w1 : world) (out root o : path)
    (name : string) (rest : path) (c : content) :
  outside_items root out = true ->
  create_zip_archive out root w = (w1, Ok o) ->
  root ++ [name] ∈ items_to_include root ->
  lookup_path (root ++ name :: rest) (fs w) = Some (F c) ->
  rest = [] \/ lookup_path (root ++ [name]) (fs w) = Some D ->
  exists ms,
    lookup_path out (fs w1) = Some (F (zip_archive ms))
    /\ (String.concat "/" (name :: rest), c) ∈ ms.
Proof.
  intros Houtside Hrun Hitem Hfile Hcase. revert Hrun.
  rewrite create_zip_archive_run.
  destruct (open_w out w) as [w0 [[]|e]] eqn:Hopen; [|discriminate].
  intros [= <- <-]. cbn [fs]. exists (archive_members (fs w0) root).
  split; [apply (lookup_replace_eq _ _ c_empty), (open_w_lookup _ _ _ Hopen)|].
  rewrite (archive_members_open _ _ _ _ Hopen Houtside).
  assert (Hm : member_of (fs w) root (root ++ name :: rest)
               = (String.concat "/" (name :: rest), c)).
  { unfold member_of, content_at. rewrite arcname_below, Hfile. reflexivity. }
  rewrite <- Hm. apply (elem_of_archive_members _ _ _ _ Hitem).
  unfold item_paths. destruct Hcase as [-> | Hdir].
  - rewrite Hfile. constructor.
  - rewrite Hdir. apply list_elem_of_In, filter_In. split.
    + apply list_elem_of_In, elem_of_sorted.
      destruct rest as [|x rest].
      { rewrite Hfile in Hdir. discriminate. }
      apply (elem_of_listing _ _ _ (F c)); [destruct root; discriminate | exact Hfile|].
      apply below_spec. exists x, rest. rewrite <- app_assoc. reflexivity.
    + unfold is_file_in. rewrite Hfile. reflexivity.
Qed.

Lemma item_paths_sorted (l : filesystem) (item : path) :
  StronglySorted path_le (item_paths l item).
Proof.
  unfold item_paths. destruct (lookup_path item l) as [[c|]|].
  - repeat constructor.
  - apply strongly_sorted_filter. unfold sorted.
    apply StronglySorted_merge_sort; apply _.
  - constructor.
Qed.

Lemma item_paths_below (l : filesystem) (item p : path) :
  p ∈ item_paths l item ->
  is_file_in l p = true /\ (p = item \/ below item p = true).
Proof.
  unfold item_paths. destruct (lookup_path item l) as [[c|]|] eqn:Hitem.
  - intros Hp. apply list_elem_of_singleton in Hp as ->.
    split; [unfold is_file_in; rewrite Hitem; reflexivity | left; reflexivity].
  - intros Hp. apply (proj1 (list_elem_of_In _ _)), filter_In in Hp as [Hp Hf].
    split; [exact Hf|]. right.
    apply (proj2 (list_elem_of_In _ _)), (proj1 (elem_of_sorted _ _)) in Hp.
    apply elem_of_listing_below in Hp. exact Hp.
  - intros Hp. inversion Hp.
Qed.

(** X11. The members are written item by item, in the order of
    [items_to_include], and the files an item brings are regular files at
    or below it, in the order of their paths. *)
Theorem create_zip_archive_member_order (w w0 : world) (out root : path) :
  open_w out w = (w0, Ok tt) ->
  exists pss,
    create_zip_archive out root w
    = (World (replace_entry out
                (F (zip_archive (map (member_of (fs w0) root) (concat pss))))
                (fs w0)) (stdout w0), Ok out)
    /\ Forall2 (fun item ps =>
                  StronglySorted path_le ps
                  /\ forall p, p ∈ ps ->
                       is_file_in (fs w0) p = true /\ (p = item \/ below item p = true))
         (items_to_include root) pss.
Proof.
  intros Hopen. exists (map (item_paths (fs w0)) (items_to_include root)).
  rewrite create_zip_archive_run, Hopen, archive_members_paths. split.
  - reflexivity.
  - induction (items_to_include root) as [|item items IH]; simpl; constructor;
      [|exact IH].
    split; [apply item_paths_sorted | apply item_paths_below].
Qed.

Lemma members_size_app (ms ms' : list member) :
  members_size (ms ++ ms') = members_size ms + members_size ms'.
Proof. induction ms as [|m ms IH]; simpl; [reflexivity | rewrite IH; lia]. Qed.

Lemma members_size_files (l : filesystem) (root : path) (ps : list path) :
  Forall (fun p => is_file_in l p = true) ps ->
  members_size (map (member_of l root) ps) = sum_sizes l ps.
Proof.
  induction 1 as [|p ps Hp _ IH]; simpl; [reflexivity|]. rewrite IH.
  unfold file_size, content_at. unfold is_file_in in Hp.
  destruct (lookup_path p l) as [[c|]|]; try discriminate. reflexivity.
Qed.

Lemma reachable_item_paths (l : filesystem) (item : path) :
  reachable_from l item ≡ₚ item_paths l item.
Proof.
  unfold reachable_from, item_paths. destruct (lookup_path item l) as [[c|]|];
    try reflexivity.
  apply filter_perm. unfold sorted. symmetry. apply merge_sort_Permutation.
Qed.

Lemma archive_size_sum (l : filesystem) (root : path) :
  members_size (archive_members l root)
  = sum_sizes l (concat (map (reachable_from l) (items_to_include root))).
Proof.
  unfold archive_members.
  induction (items_to_include root) as [|item items IH]; simpl; [reflexivity|].
  rewrite sum_sizes_app, members_size_app, IH. f_equal.
  rewrite item_members_paths, members_size_files.
  - symmetry. apply sum_sizes_perm, reachable_item_paths.
  - apply Forall_forall. intros p Hp. apply (item_paths_below _ _ _ Hp).
Qed.

(** Writing the archive into an output that is outside the items changes
    no member either. *)
Lemma archive_members_written (out root : path) (e : entry) (l : filesystem) :
  outside_items root out = true ->
  archive_members (replace_entry out e l) root = archive_members l root.
Proof.
  intros Hout. unfold archive_members. f_equal. apply map_ext_in. intros item Hitem.
  apply (proj2 (list_elem_of_In _ _)) in Hitem.
  destruct (outside_items_spec _ _ _ Hout Hitem) as [Hne Hb].
  apply (item_members_frame _ _ _ _ out); [| | exact Hne | exact Hb].
  - intros q Hq. apply lookup_replace_ne, Hq.
  - apply listing_below_replace.
Qed.

(** X12. The install size is the size of what is archived: when the
    output is none of the files archived and the run returns, the install
    size computed over the items, before the run or after it, is the total
    byte length of the members of the archive. *)
Theorem install_size_is_archive_size (w w1 : world) (out root o : path) :
  outside_items root out = true ->
  create_zip_archive out root w = (w1, Ok o) ->
  exists ms,
    lookup_path out (fs w1) = Some (F (zip_archive ms))
    /\ compute_install_size (items_to_include root) w = (w, Ok (members_size ms))
    /\ compute_install_size (items_to_include root) w1 = (w1, Ok (members_size ms)).
Proof.
  intros Houtside. rewrite create_zip_archive_run.
  destruct (open_w out w) as [w0 [[]|e]] eqn:Hopen; [|discriminate].
  intros [= <- <-]. exists (archive_members (fs w0) root).
  split; [apply (lookup_replace_eq _ _ c_empty), (open_w_lookup _ _ _ Hopen)|].
  rewrite !compute_install_size_run, <- !archive_size_sum. cbn [fs].
  rewrite (archive_members_written _ _ _ _ Houtside).
  rewrite (archive_members_open _ _ _ _ Hopen Houtside). split; reflexivity.
Qed.

End Walks.

(** ** Where the archive goes *)

Lemma no_slash_append (a b : string) : no_slash (a +:+ b) = no_slash a && no_slash b.
Proof.
  induction a as [|c a IH]; [reflexivity|].
  change (no_slash (String c (a +:+ b)) = no_slash (String c a) && no_slash b).
  simpl. rewrite IH, andb_assoc. reflexivity.
Qed.

Lemma split_slash_no_slash (s cur : string) :
  no_slash s = true -> split_slash s cur = [cur +:+ s].
Proof.
  revert cur. induction s as [|c s IH]; intros cur; simpl.
  - intros _. rewrite append_nil_r. reflexivity.
  - intros H. apply andb_true_iff in H as [Hc Hs]. apply negb_true_iff in Hc.
    rewrite Hc, (IH _ Hs), append_assoc. reflexivity.
Qed.

(** The output path starts, below the root, with a component that starts
    with [P]. *)
Lemma output_zip_head (root : path) (version : string) :
  exists suffix rest, output_zip_path root version = root ++ String "P" suffix :: rest.
Proof.
  unfold output_zip_path.
  change ("PULSAR-KiCad-Lib-" +:+ version +:+ ".zip")
    with (String "P" ("ULSAR-KiCad-Lib-" +:+ version +:+ ".zip")).
  unfold joinpath.
  change (Ascii.eqb "P" slash) with false. cbv iota.
  unfold parse_parts. cbn [split_slash].
  change (Ascii.eqb "P" slash) with false. cbv iota.
  destruct (split_slash_head ("ULSAR-KiCad-Lib-" +:+ version +:+ ".zip")
              (EmptyString +:+ "P")) as (suffix & rest & ->).
  change ((EmptyString +:+ "P") +:+ suffix) with (String "P" suffix).
  cbn [List.filter]. unfold keep_part at 1.
  change (String.eqb (String "P" suffix) EmptyString) with false.
  change (String.eqb (String "P" suffix) ".") with false.
  cbn [orb negb]. eauto.
Qed.

Lemma output_zip_not_item (root : path) (version : string) (item : path) :
  item ∈ items_to_include root -> output_zip_path root version <> item.
Proof.
  destruct (output_zip_head root version) as (suffix & rest & ->).
  unfold items_to_include. intros Hin Heq.
  repeat (apply elem_of_cons in Hin as [->|Hin];
          [apply app_inv_head in Heq; discriminate|]).
  inversion Hin.
Qed.

(** For a version without a separator the output path is the root and
    one more component. *)
Lemma output_zip_no_slash (root : path) (version : string) :
  no_slash version = true ->
  output_zip_path root version = root ++ ["PULSAR-KiCad-Lib-" +:+ version +:+ ".zip"].
Proof.
  intros Hv. unfold output_zip_path.
  assert (Hs : no_slash ("PULSAR-KiCad-Lib-" +:+ version +:+ ".zip") = true)
    by (rewrite !no_slash_append, Hv; reflexivity).
  revert Hs.
  change ("PULSAR-KiCad-Lib-" +:+ version +:+ ".zip")
    with (String "P" ("ULSAR-KiCad-Lib-" +:+ version +:+ ".zip")).
  intros Hs. unfold joinpath.
  change (Ascii.eqb "P" slash) with false. cbv iota.
  unfold parse_parts. rewrite (split_slash_no_slash _ _ Hs).
  change (EmptyString +:+ String "P" ("ULSAR-KiCad-Lib-" +:+ version +:+ ".zip"))
    with (String "P" ("ULSAR-KiCad-Lib-" +:+ version +:+ ".zip")).
  cbn [List.filter]. unfold keep_part.
  change (String.eqb (String "P" ("ULSAR-KiCad-Lib-" +:+ version +:+ ".zip"))
            EmptyString) with false.
  change (String.eqb (String "P" ("ULSAR-KiCad-Lib-" +:+ version +:+ ".zip")) ".")
    with false.
  reflexivity.
Qed.

Lemma output_zip_not_below (root : path) (version : string) (item : path) :
  no_slash version = true -> item ∈ items_to_include root ->
  below item (output_zip_path root version) = false.
Proof.
  intros Hv Hitem.
  destruct (below item (output_zip_path root version)) eqn:Hb; [|reflexivity].
  apply below_spec in Hb as (x & rest & Hb). rewrite (output_zip_no_slash _ _ Hv) in Hb.
  unfold items_to_include in Hitem.
  repeat (apply elem_of_cons in Hitem as [->|Hitem];
          [rewrite <- app_assoc in Hb; apply app_inv_head in Hb; discriminate|]).
  inversion Hitem.
Qed.

(** X16. For a version without ["/"] the archive is written directly in
    the root, as [PULSAR-KiCad-Lib-<version>.zip]; that path is none of
    the items archived and lies below none of them, so the archive never
    holds itself, and it is neither the manifest nor the metadata file. *)
Theorem output_zip_path_in_root (root : path) (version : string) :
  no_slash version = true ->
  output_zip_path root version = root ++ ["PULSAR-KiCad-Lib-" +:+ version +:+ ".zip"]
  /\ parent (output_zip_path root version) = root
  /\ (forall item, item ∈ items_to_include root ->
        output_zip_path root version <> item
        /\ below item (output_zip_path root version) = false)
  /\ output_zip_path root version <> root ++ ["docs"; "packages.json"].
Proof.
  intros Hv. split; [apply output_zip_no_slash, Hv|].
  split; [rewrite (output_zip_no_slash _ _ Hv); unfold parent; apply removelast_last|].
  split; [|apply output_zip_not_manifest].
  intros item Hitem.
  split; [apply output_zip_not_item, Hitem | apply output_zip_not_below; assumption].
Qed.

(** ** The validation and the failures of main *)

Section MainMore.
Context {L : Library}.

(** X15. The verdict of the validation agrees with its warnings.  On an
    archive that has every required member the validation prints its
    header, the count and the line that the structure looks good, and
    nothing else; on one that misses any, it prints at least one specific
    warning and ends with the warning that the archive may have issues.
    On a file that is no archive it raises [BadZipFile] after the header.
    In all three cases the filesystem is left alone. *)
Theorem validate_zip_verdict (w : world) (out : path) (c : content) :
  lookup_path out (fs w) = Some (F c) ->
  (forall names, zip_namelist c = Some names -> structure_ok names = true ->
     validate_zip out w
     = (World (fs w)
          (stdout w
           ++ [ newline +:+ "Validating ZIP structure...";
                "  Archive contains " +:+ str_int (Z.of_nat (length names)) +:+ " files";
                "  Structure looks good!" ]), Ok tt))
  /\ (forall names, zip_namelist c = Some names -> structure_ok names = false ->
        exists warnings,
          warnings <> []
          /\ validate_zip out w
             = (World (fs w)
                  (stdout w
                   ++ [newline +:+ "Validating ZIP structure..."] ++ warnings
                   ++ [ "  Archive contains " +:+ str_int (Z.of_nat (length names))
                        +:+ " files";
                        "  WARNING: Archive may have issues" ]), Ok tt))
  /\ (zip_namelist c = None ->
      validate_zip out w
      = (World (fs w) (stdout w ++ [newline +:+ "Validating ZIP structure..."]),
         Raise BadZipFile)).
Proof.
  intros Hout. split; [|split].
  - intros names Hnames Hok. rewrite (validate_zip_run _ c names _ Hout Hnames).
    unfold validation_lines. rewrite Hok.
    unfold structure_ok, required, required_prefixes in *. cbn [forallb] in Hok.
    cbn [map concat].
    destruct (name_in "metadata.json" names); [|discriminate].
    destruct (any_startswith "symbols/" names); [|discriminate].
    destruct (any_startswith "footprints/" names); [reflexivity | discriminate].
  - intros names Hnames Hbad. rewrite (validate_zip_run _ c names _ Hout Hnames).
    unfold validation_lines. rewrite Hbad. eexists. split; [|rewrite <- app_assoc; reflexivity].
    unfold structure_ok, required, required_prefixes in *. cbn [forallb] in Hbad.
    cbn [map concat].
    destruct (name_in "metadata.json" names); [|discriminate].
    destruct (any_startswith "symbols/" names); [|discriminate].
    destruct (any_startswith "footprints/" names); [discriminate | discriminate].
  - intros Hnone. unfold validate_zip.
    rewrite run_bind. unfold print at 1.
    rewrite run_bind. unfold read_file at 1. cbn [fs]. rewrite Hout.
    rewrite run_bind. unfold lift at 1. rewrite Hnone. reflexivity.
Qed.

(** X14. [main] reads the metadata before it writes anything: whenever
    [update_metadata_json] would raise, [main] raises the same exception
    after its two opening lines, exits with status 1, and leaves the
    filesystem untouched, without an archive. *)
Theorem main_stops_at_metadata (w w' : world) (root : path) (version : string)
    (tag : option string) (e : exn) :
  update_metadata_json (root ++ ["metadata.json"]) version w = (w', Raise e) ->
  main root version tag w
  = (World (fs w)
       (stdout w ++ [ "Packaging PULSAR KiCad Library v" +:+ version +:+ "...";
                      "  Repository root: " +:+ path_str root ]), Raise e)
  /\ exit_status (snd (main root version tag w)) = 1.
Proof.
  intros Hmeta.
  assert (Hmain : main root version tag w
            = (World (fs w)
                 (stdout w ++ [ "Packaging PULSAR KiCad Library v" +:+ version +:+ "...";
                                "  Repository root: " +:+ path_str root ]), Raise e)).
  { unfold main, package. rewrite run_bind, run_bind. unfold print at 1.
    rewrite run_bind. unfold print at 1. cbn [fs stdout].
    rewrite run_bind, update_metadata_json_run. cbn [fs stdout].
    rewrite update_metadata_json_run in Hmeta.
    destruct (lookup_path (root ++ ["metadata.json"]) (fs w)) as [[c|]|];
      try (injection Hmeta as _ <-; rewrite <- app_assoc; reflexivity).
    destruct (json_load c) as [data|];
      try (injection Hmeta as _ <-; rewrite <- app_assoc; reflexivity).
    destruct (set_versions version data); [discriminate|].
    injection Hmeta as _ <-. rewrite <- app_assoc. reflexivity. }
  split; [exact Hmain | rewrite Hmain; reflexivity].
Qed.

End MainMore.

(** ** main from end to end *)

Section EndToEnd.
Context {L : Library}.

Lemma st_size_file_run (p : path) (c : content) (w : world) :
  lookup_path p (fs w) = Some (F c) ->
  st_size p w = (w, Ok (Z.of_nat (length (c_bytes c)))).
Proof. intros H. unfold st_size. rewrite H. reflexivity. Qed.

Lemma compute_sha256_run (p : path) (c : content) (w : world) :
  lookup_path p (fs w) = Some (F c) ->
  compute_sha256 p w = (w, Ok (hex (sha256_digest (c_bytes c)))).
Proof.
  intros H. unfold compute_sha256. rewrite run_bind. unfold read_file. rewrite H.
  rewrite run_ret. unfold sha256_hexdigest.
  rewrite read_chunks_fed by apply CHUNK_pos. reflexivity.
Qed.

(** [package], once the metadata is rewritten and the archive written,
    comes down to the update of the manifest with the digest and the size
    of the archive. *)
Lemma package_forward (root : path) (version : string) (tag : option string)
    (w wa wc : world) (o : path) (zipc : content) :
  update_metadata_json (root ++ ["metadata.json"]) version
    (World (fs w)
       ((stdout w ++ ["Packaging PULSAR KiCad Library v" +:+ version +:+ "..."])
        ++ ["  Repository root: " +:+ path_str root])) = (wa, Ok tt) ->
  create_zip_archive (output_zip_path root version) root wa = (wc, Ok o) ->
  lookup_path (output_zip_path root version) (fs wc) = Some (F zipc) ->
  package root version tag w
  = update_packages_json (root ++ ["docs"; "packages.json"]) version
      (effective_tag version tag) (hex (sha256_digest (c_bytes zipc)))
      (Z.of_nat (length (c_bytes zipc)))
      (sum_sizes (fs wa)
         (concat (map (reachable_from (fs wa)) (items_to_include root))))
      (World (fs wc)
         (stdout wc
          ++ summary_lines (output_zip_path root version)
               (hex (sha256_digest (c_bytes zipc)))
               (Z.of_nat (length (c_bytes zipc)))
               (sum_sizes (fs wa)
                  (concat (map (reachable_from (fs wa)) (items_to_include root)))))).
Proof.
  intros Hmeta Hzip Hout. unfold package.
  rewrite run_bind. unfold print at 1. rewrite run_bind. unfold print at 1.
  cbn [fs stdout]. rewrite run_bind, Hmeta.
  rewrite run_bind, compute_install_size_run.
  rewrite run_bind, Hzip.
  rewrite run_bind, (st_size_file_run _ _ _ Hout).
  rewrite run_bind, (compute_sha256_run _ _ _ Hout).
  rewrite run_bind. unfold print at 1. rewrite run_bind. unfold print at 1.
  rewrite run_bind. unfold print at 1. rewrite run_bind. unfold print at 1.
  cbn [fs stdout]. unfold summary_lines.
  rewrite <- !app_assoc. reflexivity.
Qed.

(** What a run of [package] that returns went through. *)
Lemma package_inv (root : path) (version : string) (tag : option string)
    (w w1 : world) :
  package root version tag w = (w1, Ok tt) ->
  exists wa wc o zipc lines,
    update_metadata_json (root ++ ["metadata.json"]) version
      (World (fs w)
         ((stdout w ++ ["Packaging PULSAR KiCad Library v" +:+ version +:+ "..."])
          ++ ["  Repository root: " +:+ path_str root])) = (wa, Ok tt)
    /\ create_zip_archive (output_zip_path root version) root wa = (wc, Ok o)
    /\ lookup_path (output_zip_path root version) (fs wc) = Some (F zipc)
    /\ update_packages_json (root ++ ["docs"; "packages.json"]) version
         (effective_tag version tag) (hex (sha256_digest (c_bytes zipc)))
         (Z.of_nat (length (c_bytes zipc)))
         (sum_sizes (fs wa)
            (concat (map (reachable_from (fs wa)) (items_to_include root))))
         (World (fs wc) lines) = (w1, Ok tt).
Proof.
  intros H. assert (H' := H). unfold package in H'.
  apply print_inv, print_inv in H'.
  apply run_bind_inv in H' as (wa & [] & Hmeta & H'). cbn [fs stdout] in Hmeta.
  apply run_bind_inv in H' as (wb & install_size & Hsize & H').
  rewrite compute_install_size_run in Hsize. injection Hsize as <- _.
  apply run_bind_inv in H' as (wc & o & Hzip & _).
  destruct (create_zip_archive_written _ _ _ _ _ Hzip) as [ms Hms].
  rewrite (package_forward _ _ _ _ _ _ _ _ Hmeta Hzip Hms) in H.
  eexists wa, wc, o, _, _. split; [exact Hmeta|]. split; [exact Hzip|].
  split; [exact Hms | exact H].
Qed.

(** X18. The manifest describes the archive: when the packaging steps of
    [main] return, the manifest on disk has, for the version, the entry
    whose [download_sha256] is the hex digest of the bytes of the archive
    on disk and whose [download_size] is their number, under the tag given
    or, without one, [v<version>]. *)
Theorem manifest_describes_archive (w w1 : world) (root : path) (version : string)
    (tag : option string) :
  package root version tag w = (w1, Ok tt) ->
  exists zipc data' vs' i install_size,
    lookup_path (output_zip_path root version) (fs w1) = Some (F zipc)
    /\ lookup_path (root ++ ["docs"; "packages.json"]) (fs w1)
       = Some (F (json_dump data'))
    /\ manifest_versions data' = Some vs'
    /\ vs' !! i
       = Some (new_version_entry version (effective_tag version tag)
                 (hex (sha256_digest (c_bytes zipc)))
                 (Z.of_nat (length (c_bytes zipc))) install_size).
Proof.
  intros H. apply package_inv in H
    as (wa & wc & o & zipc & lines & _ & _ & Hout & Hup).
  assert (Hkeep := update_packages_json_other _ _ _ _ _ _ _ _ _ _
                     (output_zip_not_manifest root version) Hup).
  rewrite update_packages_json_run in Hup. cbn [fs stdout] in Hup, Hkeep.
  destruct (lookup_path (root ++ ["docs"; "packages.json"]) (fs wc)) as [[c|]|] eqn:Hp;
    try discriminate.
  destruct (json_load c) as [data|]; try discriminate.
  destruct (update_document _ _ _ _ _ data) as [data'|] eqn:Hdoc; [|discriminate].
  injection Hup as <-.
  apply update_document_ok in Hdoc
    as (top & fields & others & vs & found & -> & Hpk & _ & Hf & ->).
  destruct (upserted_first_match version (effective_tag version tag)
              (hex (sha256_digest (c_bytes zipc)))
              (Z.of_nat (length (c_bytes zipc)))
              (sum_sizes (fs wa)
                 (concat (map (reachable_from (fs wa)) (items_to_include root))))
              vs found Hf) as (i & Hi & _).
  eexists zipc, _, _, i, _.
  split; [rewrite Hkeep; exact Hout|].
  split; [exact (lookup_replace_eq _ _ c _ Hp)|].
  split; [eapply manifest_versions_with; [reflexivity | exact Hpk] | exact Hi].
Qed.

End EndToEnd.

(** ** The archive inside main *)

Lemma metadata_not_manifest (root : path) :
  root ++ ["metadata.json"] <> root ++ ["docs"; "packages.json"].
Proof. intros H. apply app_inv_head in H. discriminate. Qed.

Lemma metadata_is_item (root : path) : root ++ ["metadata.json"] ∈ items_to_include root.
Proof. unfold items_to_include. constructor. Qed.

Section ArchiveInMain.
Context {L : Library}.

(** What a run of [update_metadata_json] that returns has written. *)
Lemma update_metadata_json_ok (p : path) (version : string) (w w' : world) :
  update_metadata_json p version w = (w', Ok tt) ->
  exists c top,
    lookup_path p (fs w) = Some (F c)
    /\ json_load c = Some (JObj top)
    /\ fs w' = replace_entry p
                 (F (json_dump (JObj (dict_set "versions"
                                        (JArr [metadata_version_entry version]) top))))
                 (fs w).
Proof.
  rewrite update_metadata_json_run.
  destruct (lookup_path p (fs w)) as [[c|]|] eqn:Hp; try discriminate.
  destruct (json_load c) as [data|] eqn:Hc; try discriminate.
  destruct data as [| | | | | |top]; try discriminate.
  cbn [set_versions]. intros [= <-]. exists c, top.
  split; [reflexivity|]. split; [exact Hc | reflexivity].
Qed.

(** The archive written when the metadata file exists starts with it. *)
Lemma archive_members_metadata (l : filesystem) (root : path) (cm : content) :
  lookup_path (root ++ ["metadata.json"]) l = Some (F cm) ->
  exists rest, archive_members l root = ("metadata.json", cm) :: rest.
Proof.
  intros Hm. unfold archive_members, items_to_include. cbn [map concat].
  unfold item_members at 1. rewrite Hm. eexists. cbn [app].
  unfold member_of, content_at. rewrite Hm, arcname_below. reflexivity.
Qed.

(** The worlds a run of [package] that returns goes through, seen from the
    files: the metadata rewritten, the archive built from the tree with
    the output file open, the manifest updated last. *)
Lemma package_files (root : path) (version : string) (tag : option string)
    (w w1 : world) :
  package root version tag w = (w1, Ok tt) ->
  exists cm0 top wa w0 isz sha dsz lines,
    lookup_path (root ++ ["metadata.json"]) (fs w) = Some (F cm0)
    /\ json_load cm0 = Some (JObj top)
    /\ fs wa = replace_entry (root ++ ["metadata.json"])
                 (F (json_dump (JObj (dict_set "versions"
                                        (JArr [metadata_version_entry version]) top))))
                 (fs w)
    /\ open_w (output_zip_path root version) wa = (w0, Ok tt)
    /\ isz = sum_sizes (fs wa)
               (concat (map (reachable_from (fs wa)) (items_to_include root)))
    /\ update_packages_json (root ++ ["docs"; "packages.json"]) version
         (effective_tag version tag) sha dsz isz
         (World (replace_entry (output_zip_path root version)
                   (F (zip_archive (archive_members (fs w0) root))) (fs w0)) lines)
       = (w1, Ok tt).
Proof.
  intros H. apply package_inv in H
    as (wa & wc & o & zipc & lines & Hmeta & Hzip & _ & Hup).
  apply update_metadata_json_ok in Hmeta as (cm0 & top & Hm0 & Hload & Hwa).
  cbn [fs] in Hm0, Hwa.
  rewrite create_zip_archive_run in Hzip.
  destruct (open_w (output_zip_path root version) wa) as [w0 [[]|e]] eqn:Hopen;
    [|discriminate].
  injection Hzip as <- _. cbn [fs] in Hup.
  eexists cm0, top, wa, w0, _, _, _, lines.
  split; [exact Hm0|]. split; [exact Hload|]. split; [exact Hwa|].
  split; [exact Hopen|]. split; [reflexivity | exact Hup].
Qed.

Context {HL : LibraryLaws L}.

(** X13. The archive [main] builds always has the metadata, and has the
    metadata of this run: when the packaging steps return, the first
    member of the archive on disk is [metadata.json], holding the document
    as rewritten for the version, which is also what the metadata file
    holds; so the validation that follows returns without the warning
    that [metadata.json] is missing. *)
Theorem main_archive_has_metadata (w w1 : world) (root : path) (version : string)
    (tag : option string) :
  package root version tag w = (w1, Ok tt) ->
  exists top' rest,
    dict_get "versions" top' = Some (JArr [metadata_version_entry version])
    /\ lookup_path (root ++ ["metadata.json"]) (fs w1)
       = Some (F (json_dump (JObj top')))
    /\ lookup_path (output_zip_path root version) (fs w1)
       = Some (F (zip_archive (("metadata.json", json_dump (JObj top')) :: rest)))
    /\ validate_zip (output_zip_path root version) w1
       = (World (fs w1)
            (stdout w1 ++ validation_lines ("metadata.json" :: map fst rest)), Ok tt)
    /\ "  WARNING: Missing required file: metadata.json"
       ∉ validation_lines ("metadata.json" :: map fst rest).
Proof.
  intros H. apply package_files in H
    as (cm0 & top & wa & w0 & isz & sha & dsz & lines
        & Hm0 & _ & Hwa & Hopen & _ & Hup).
  set (mpath := root ++ ["metadata.json"]) in *.
  set (out := output_zip_path root version) in *.
  set (top' := dict_set "versions" (JArr [metadata_version_entry version]) top) in *.
  assert (Hne : mpath <> out)
    by (intros Heq; apply (output_zip_not_item root version mpath);
        [apply metadata_is_item | symmetry; exact Heq]).
  assert (Hma : lookup_path mpath (fs wa) = Some (F (json_dump (JObj top'))))
    by (rewrite Hwa; apply (lookup_replace_eq _ _ cm0), Hm0).
  assert (Hm0' : lookup_path mpath (fs w0) = Some (F (json_dump (JObj top')))).
  { destruct (open_w_frame _ _ _ Hopen) as [_ Hframe].
    rewrite Hframe by exact Hne. exact Hma. }
  destruct (archive_members_metadata _ root _ Hm0') as [rest Hrest].
  rewrite Hrest in Hup.
  assert (Hmeta1 := update_packages_json_other _ mpath _ _ _ _ _ _ _ _
                      (metadata_not_manifest root) Hup).
  assert (Hout1 := update_packages_json_other _ out _ _ _ _ _ _ _ _
                     (output_zip_not_manifest root version) Hup).
  cbn [fs] in Hmeta1, Hout1.
  rewrite lookup_replace_ne in Hmeta1 by exact Hne.
  rewrite (lookup_replace_eq _ _ c_empty _ (open_w_lookup _ _ _ Hopen)) in Hout1.
  exists top', rest.
  split; [apply dict_get_set_eq|].
  split; [rewrite Hmeta1; exact Hm0'|].
  split; [exact Hout1|].
  split.
  { rewrite (validate_zip_run _ _ _ _ Hout1 (zip_namelist_archive _)). reflexivity. }
  unfold validation_lines, required, required_prefixes. cbn [map concat].
  assert (Hin : name_in "metadata.json" ("metadata.json" :: map fst rest) = true)
    by reflexivity.
  rewrite Hin. cbn [negb app].
  intros Hl. rewrite !elem_of_cons, !elem_of_app in Hl.
  destruct (any_startswith "symbols/" _), (any_startswith "footprints/" _),
    (structure_ok _);
    cbn [negb] in Hl; rewrite ?elem_of_cons in Hl;
    repeat match goal with
           | H : _ \/ _ |- _ => destruct H
           | H : _ ∈ [] |- _ => inversion H
           | H : _ = _ |- _ => discriminate H
           end.
Qed.

End ArchiveInMain.

(** ** The install size recorded and the run that fails late *)

Section LateSteps.
Context {L : Library}.


(** Opening an output that is no item and lies below none leaves what is
    reachable from the items, and its sizes, as they were. *)
Lemma open_w_reachable (out d : path) (w w0 : world) :
  open_w out w = (w0, Ok tt) -> d <> out -> below d out = false ->
  reachable_from (fs w0) d = reachable_from (fs w) d
  /\ forall p, p ∈ reachable_from (fs w) d -> file_size (fs w0) p = file_size (fs w) p.
Proof.
  intros Hopen Hd Hb. destruct (open_w_frame _ _ _ Hopen) as [_ Hframe].
  assert (Hother : forall p, below d p = true -> p <> out)
    by (intros p Hp ->; congruence).
  unfold reachable_from. rewrite (Hframe d Hd), (open_w_listing _ _ _ _ Hopen Hb).
  destruct (lookup_path d (fs w)) as [[c|]|].
  - split; [reflexivity|]. intros p Hp. apply list_elem_of_singleton in Hp as ->.
    unfold file_size. rewrite (Hframe d Hd). reflexivity.
  - split.
    + apply filter_ext_in. intros p Hp. unfold is_file_in.
      rewrite Hframe; [reflexivity|]. apply Hother.
      apply elem_of_listing_below with (l := fs w), list_elem_of_In, Hp.
    + intros p Hp. apply (proj1 (list_elem_of_In _ _)), filter_In in Hp as [Hp _].
      unfold file_size. rewrite Hframe; [reflexivity|]. apply Hother.
      apply elem_of_listing_below with (l := fs w), list_elem_of_In, Hp.
  - split; [reflexivity|]. intros p Hp. inversion Hp.
Qed.

Lemma sum_sizes_ext (l l' : filesystem) (ps : list path) :
  (forall p, p ∈ ps -> file_size l p = file_size l' p) ->
  sum_sizes l ps = sum_sizes l' ps.
Proof.
  induction ps as [|p ps IH]; intros H; simpl; [reflexivity|].
  rewrite (H p) by constructor. rewrite IH; [reflexivity|].
  intros q Hq. apply H. constructor. exact Hq.
Qed.

Lemma open_w_install_size (out : path) (items : list path) (w w0 : world) :
  open_w out w = (w0, Ok tt) ->
  (forall d, d ∈ items -> d <> out /\ below d out = false) ->
  sum_sizes (fs w0) (concat (map (reachable_from (fs w0)) items))
  = sum_sizes (fs w) (concat (map (reachable_from (fs w)) items)).
Proof.
  intros Hopen. induction items as [|d items IH]; intros Hitems; [reflexivity|].
  cbn [map concat]. rewrite !sum_sizes_app.
  destruct (Hitems d ltac:(constructor)) as [Hd Hb].
  destruct (open_w_reachable _ _ _ _ Hopen Hd Hb) as [-> Hsizes].
  rewrite (sum_sizes_ext _ _ _ Hsizes), IH; [reflexivity|].
  intros d' Hd'. apply Hitems. constructor. exact Hd'.
Qed.


(** X19. For a version without ["/"], the [install_size] that [main]
    records in the manifest is the total byte length of the members of the
    archive it wrote. *)
Theorem manifest_install_size (w w1 : world) (root : path) (version : string)
    (tag : option string) :
  no_slash version = true ->
  package root version tag w = (w1, Ok tt) ->
  exists ms data' vs' i entry,
    lookup_path (output_zip_path root version) (fs w1) = Some (F (zip_archive ms))
    /\ lookup_path (root ++ ["docs"; "packages.json"]) (fs w1)
       = Some (F (json_dump data'))
    /\ manifest_versions data' = Some vs'
    /\ vs' !! i = Some entry
    /\ getitem_str entry "version" = Ok (JStr version)
    /\ getitem_str entry "install_size" = Ok (JInt (members_size ms)).
Proof.
  intros Hv H. apply package_files in H
    as (cm0 & top & wa & w0 & isz & sha & dsz & lines
        & _ & _ & _ & Hopen & Hisz & Hup).
  assert (Hsize : isz = members_size (archive_members (fs w0) root)).
  { rewrite Hisz, archive_size_sum. symmetry.
    apply (open_w_install_size _ _ _ _ Hopen). intros d Hd.
    split; [intros ->; exact (output_zip_not_item root version _ Hd eq_refl)|].
    apply output_zip_not_below; assumption. }
  assert (Hout1 := update_packages_json_other _ (output_zip_path root version)
                     _ _ _ _ _ _ _ _ (output_zip_not_manifest root version) Hup).
  cbn [fs] in Hout1.
  rewrite (lookup_replace_eq _ _ c_empty _ (open_w_lookup _ _ _ Hopen)) in Hout1.
  rewrite update_packages_json_run in Hup. cbn [fs stdout] in Hup.
  destruct (lookup_path (root ++ ["docs"; "packages.json"]) _) as [[c|]|] eqn:Hp;
    try discriminate.
  destruct (json_load c) as [data|]; try discriminate.
  destruct (update_document _ _ _ _ _ data) as [data'|] eqn:Hdoc; [|discriminate].
  injection Hup as <-.
  apply update_document_ok in Hdoc
    as (top0 & fields & others & vs & found & -> & Hpk & _ & Hf & ->).
  destruct (upserted_first_match version (effective_tag version tag) sha dsz isz
              vs found Hf) as (i & Hi & _).
  eexists _, _, _, i, _.
  split; [exact Hout1|].
  split; [exact (lookup_replace_eq _ _ c _ Hp)|].
  split; [eapply manifest_versions_with; [reflexivity | exact Hpk]|].
  split; [exact Hi|]. split; [reflexivity|]. rewrite Hsize. reflexivity.
Qed.


Lemma elem_of_ancestors (q p : path) :
  q ∈ ancestors p <-> exists x rest, p = q ++ x :: rest.
Proof.
  revert q. induction p as [|y p IH]; intros q; simpl.
  - split; [intros H; inversion H | intros (x & rest & H); destruct q; discriminate].
  - split.
    + intros H. apply elem_of_cons in H as [-> | H]; [exists y, p; reflexivity|].
      apply list_elem_of_fmap in H as (q' & -> & Hq').
      apply IH in Hq' as (x & rest & ->). exists x, rest. reflexivity.
    + intros (x & rest & H). destruct q as [|z q]; [constructor|].
      apply elem_of_cons. right. injection H as -> ->.
      apply list_elem_of_fmap. exists q. split; [reflexivity|].
      apply IH. eauto.
Qed.

(** The error of a missing path depends on what is on the way to it. *)
Lemma missing_error_frame (l l' : filesystem) (p : path) :
  (forall q, q ∈ ancestors p -> lookup_path q l' = lookup_path q l) ->
  missing_error l' p = missing_error l p.
Proof.
  intros H. unfold missing_error.
  assert (E : existsb (is_file_in l') (ancestors p)
              = existsb (is_file_in l) (ancestors p)).
  { induction (ancestors p) as [|q qs IH]; [reflexivity|]. simpl.
    unfold is_file_in at 1 3. rewrite (H q) by constructor.
    rewrite IH; [reflexivity|]. intros q' Hq'. apply H. constructor. exact Hq'. }
  rewrite E. reflexivity.
Qed.

Lemma missing_error_file (l : filesystem) (q p : path) :
  q ∈ ancestors p -> is_file_in l q = true -> missing_error l p = NotADirectoryError.
Proof.
  intros Hq Hf. unfold missing_error.
  assert (E : existsb (is_file_in l) (ancestors p) = true)
    by (apply existsb_exists; exists q; split; [apply list_elem_of_In, Hq | exact Hf]).
  rewrite E. reflexivity.
Qed.

(** Below the root, the way to the manifest goes through [docs] only. *)
Lemma manifest_ancestor (root q : path) (y : string) (rest : path) :
  q ∈ ancestors (root ++ ["docs"; "packages.json"]) -> q = root ++ y :: rest ->
  y = "docs".
Proof.
  intros Hq ->. apply elem_of_ancestors in Hq as (x & rest' & H).
  rewrite <- app_assoc in H. apply app_inv_head in H. injection H as <- _.
  reflexivity.
Qed.

(** [open] and [create_zip_archive] look at the filesystem only. *)
Lemma open_w_same_fs (out : path) (w w0 v : world) :
  open_w out w = (w0, Ok tt) -> fs v = fs w ->
  open_w out v = (World (fs w0) (stdout v), Ok tt).
Proof.
  unfold open_w. intros H ->.
  destruct (lookup_path out (fs w)) as [[c|]|]; try discriminate.
  - injection H as <-. reflexivity.
  - destruct (lookup_path (parent out) (fs w)) as [[c|]|]; try discriminate.
    injection H as <-. reflexivity.
Qed.

Lemma create_zip_archive_same_fs (out root o : path) (w wc v : world) :
  create_zip_archive out root w = (wc, Ok o) -> fs v = fs w ->
  create_zip_archive out root v = (World (fs wc) (stdout v), Ok o).
Proof.
  rewrite !create_zip_archive_run. intros H Hfs.
  destruct (open_w out w) as [w0 [[]|e]] eqn:Hopen; [|discriminate].
  rewrite (open_w_same_fs _ _ _ _ Hopen Hfs). injection H as <- <-. reflexivity.
Qed.

Lemma create_zip_archive_other (out root o : path) (w wc : world) (q : path) :
  create_zip_archive out root w = (wc, Ok o) -> q <> out ->
  lookup_path q (fs wc) = lookup_path q (fs w).
Proof.
  rewrite create_zip_archive_run. intros H Hq.
  destruct (open_w out w) as [w0 [[]|e]] eqn:Hopen; [|discriminate].
  injection H as <- _. cbn [fs]. rewrite lookup_replace_ne by exact Hq.
  apply (open_w_frame _ _ _ Hopen), Hq.
Qed.

(** X17. [main] is not all or nothing.  When [update_metadata_json] returns
    on the filesystem given, [create_zip_archive] returns on the filesystem
    that leaves, and nothing is at [docs/packages.json], [main] raises what
    opening the missing manifest raises ([NotADirectoryError] when [docs]
    is a regular file, [FileNotFoundError] when no regular file is on the
    way) and exits with status 1, but only after it has rewritten the
    metadata for the version and left the archive on disk. *)
Theorem main_fails_after_archive (w wa wc : world) (root : path) (version : string)
    (tag : option string) (o : path) :
  update_metadata_json (root ++ ["metadata.json"]) version w = (wa, Ok tt) ->
  create_zip_archive (output_zip_path root version) root wa = (wc, Ok o) ->
  lookup_path (root ++ ["docs"; "packages.json"]) (fs w) = None ->
  exists w' ms top,
    main root version tag w
    = (w', Raise (missing_error (fs w) (root ++ ["docs"; "packages.json"])))
    /\ (is_file_in (fs w) (root ++ ["docs"]) = true ->
        missing_error (fs w) (root ++ ["docs"; "packages.json"]) = NotADirectoryError)
    /\ ((forall q, q ∈ ancestors (root ++ ["docs"; "packages.json"]) ->
           is_file_in (fs w) q = false) ->
        missing_error (fs w) (root ++ ["docs"; "packages.json"]) = FileNotFoundError)
    /\ exit_status (snd (main root version tag w)) = 1
    /\ fs w' = fs wc
    /\ lookup_path (output_zip_path root version) (fs w') = Some (F (zip_archive ms))
    /\ lookup_path (root ++ ["metadata.json"]) (fs w')
       = Some (F (json_dump (JObj top)))
    /\ dict_get "versions" top = Some (JArr [metadata_version_entry version])
    /\ lookup_path (root ++ ["docs"; "packages.json"]) (fs w') = None.
Proof.
  intros Hrun Hzip Hmanifest.
  set (mpath := root ++ ["metadata.json"]) in *.
  set (out := output_zip_path root version) in *.
  set (manifest := root ++ ["docs"; "packages.json"]) in *.
  destruct (update_metadata_json_ok _ _ _ _ Hrun) as (cm & top0 & Hm & Hload & Hwa).
  set (top := dict_set "versions" (JArr [metadata_version_entry version]) top0) in *.
  assert (Hmo : mpath <> out)
    by (intros Heq; apply (output_zip_not_item root version mpath);
        [apply metadata_is_item | symmetry; exact Heq]).
  assert (Hmm : mpath <> manifest) by apply metadata_not_manifest.
  assert (Hom : out <> manifest) by apply output_zip_not_manifest.
  (* the metadata is rewritten *)
  set (wp := World (fs w)
               ((stdout w ++ ["Packaging PULSAR KiCad Library v" +:+ version +:+ "..."])
                ++ ["  Repository root: " +:+ path_str root])).
  set (wa' := World (replace_entry mpath (F (json_dump (JObj top))) (fs w))
                (stdout wp ++ ["Updated " +:+ path_str mpath])).
  assert (Hmeta : update_metadata_json mpath version wp = (wa', Ok tt)).
  { rewrite update_metadata_json_run. unfold wp. cbn [fs]. rewrite Hm, Hload.
    reflexivity. }
  (* the archive is written *)
  assert (Hzip' := create_zip_archive_same_fs _ _ _ _ _ wa' Hzip (eq_sym Hwa)).
  destruct (create_zip_archive_written _ _ _ _ _ Hzip) as [ms Hms].
  set (wc' := World (fs wc) (stdout wa')) in *.
  (* the manifest is missing, and the way to it is as it was *)
  assert (Hkeep : forall q, q <> out -> q <> mpath ->
                    lookup_path q (fs wc) = lookup_path q (fs w)).
  { intros q Hqo Hqm. rewrite (create_zip_archive_other _ _ _ _ _ _ Hzip Hqo), Hwa.
    apply lookup_replace_ne, Hqm. }
  assert (Hmc : lookup_path manifest (fs wc) = None)
    by (rewrite Hkeep by congruence; exact Hmanifest).
  assert (Herr : missing_error (fs wc) manifest = missing_error (fs w) manifest).
  { apply missing_error_frame. intros q Hq. apply Hkeep.
    - intros ->. destruct (output_zip_head root version) as (suffix & rest & Heq).
      apply (manifest_ancestor _ _ _ _ Hq) in Heq. discriminate.
    - intros ->.
      assert (Hy := manifest_ancestor root _ "metadata.json" [] Hq eq_refl).
      discriminate. }
  assert (Hpkg := package_forward root version tag w wa' wc' o _ Hmeta Hzip' Hms).
  rewrite update_packages_json_run in Hpkg. unfold wc' in Hpkg. cbn [fs] in Hpkg.
  fold manifest in Hpkg. rewrite Hmc, Herr in Hpkg.
  assert (Hmain : main root version tag w
                  = (fst (package root version tag w),
                     Raise (missing_error (fs w) manifest)))
    by (unfold main; rewrite run_bind, Hpkg; reflexivity).
  eexists _, ms, top. split; [exact Hmain|].
  split.
  { intros Hdocs. apply (missing_error_file _ (root ++ ["docs"])); [|exact Hdocs].
    apply elem_of_ancestors. exists "packages.json", []. unfold manifest.
    rewrite <- app_assoc. reflexivity. }
  split.
  { intros Hnone. unfold missing_error.
    assert (E : existsb (is_file_in (fs w)) (ancestors manifest) = false).
    { destruct (existsb (is_file_in (fs w)) (ancestors manifest)) eqn:E;
        [|reflexivity].
      apply existsb_exists in E as (q & Hq & Hf).
      rewrite (Hnone q) in Hf by (apply list_elem_of_In, Hq). discriminate. }
    rewrite E. reflexivity. }
  rewrite Hmain, Hpkg. cbn [fst snd fs].
  split; [reflexivity|]. split; [reflexivity|]. split; [exact Hms|].
  split; [|split; [apply dict_get_set_eq | exact Hmc]].
  rewrite (create_zip_archive_other _ _ _ _ _ _ Hzip Hmo), Hwa.
  apply (lookup_replace_eq _ _ cm), Hm.
Qed.

End LateSteps.

(** ** Member names *)

Lemma append_cons (c : ascii) (s t : string) : String c s +:+ t = String c (s +:+ t).
Proof. reflexivity. Qed.

Lemma no_slash_sep (y b : string) : no_slash (y +:+ String slash b) = false.
Proof.
  rewrite no_slash_append. change (no_slash (String slash b)) with false.
  apply andb_false_r.
Qed.

Lemma append_slash_inj (x y a b : string) :
  no_slash x = true -> no_slash y = true ->
  x +:+ String slash a = y +:+ String slash b -> x = y /\ a = b.
Proof.
  revert y. induction x as [|c x IH]; intros [|c' y] Hx Hy H.
  - injection H as ->. split; reflexivity.
  - rewrite append_cons in H. injection H as <- _.
    simpl in Hy. discriminate.
  - rewrite append_cons in H. injection H as -> _.
    simpl in Hx. discriminate.
  - rewrite !append_cons in H. injection H as -> H.
    simpl in Hx, Hy. apply andb_true_iff in Hx as [_ Hx], Hy as [_ Hy].
    destruct (IH y Hx Hy H) as [-> ->]. split; reflexivity.
Qed.

Lemma startswith_append (prefix rest : string) :
  startswith (prefix +:+ rest) prefix = true.
Proof.
  unfold startswith. induction prefix as [|c p IH].
  - destruct rest; reflexivity.
  - rewrite append_cons. simpl. destruct (ascii_dec c c); [exact IH | contradiction].
Qed.

Lemma as_posix_cons (x y : string) (ys : path) :
  as_posix (x :: y :: ys) = x +:+ String slash (as_posix (y :: ys)).
Proof. reflexivity. Qed.

(** Joining components that hold no separator loses nothing. *)
Lemma as_posix_inj (xs ys : path) :
  Forall (fun s => no_slash s = true) xs -> Forall (fun s => no_slash s = true) ys ->
  xs <> [] -> ys <> [] -> as_posix xs = as_posix ys -> xs = ys.
Proof.
  intros Hxs. revert ys. induction Hxs as [|x xs Hx Hxs IH]; [contradiction|].
  intros ys Hys _ Hne H. destruct Hys as [|y ys Hy Hys]; [contradiction|].
  destruct xs as [|x' xs], ys as [|y' ys].
  - change (x = y) in H. subst. reflexivity.
  - rewrite as_posix_cons in H. change (as_posix [x]) with x in H.
    rewrite H, no_slash_sep in Hx. discriminate.
  - rewrite as_posix_cons in H. change (as_posix [y]) with y in H.
    rewrite <- H, no_slash_sep in Hy. discriminate.
  - rewrite !as_posix_cons in H.
    destruct (append_slash_inj _ _ _ _ Hx Hy H) as [-> Htl].
    f_equal. apply IH; [exact Hys | discriminate | discriminate | exact Htl].
Qed.

Lemma nodup_filter {A} (f : A -> bool) (xs : list A) :
  NoDup xs -> NoDup (List.filter f xs).
Proof.
  induction 1 as [|x xs Hx _ IH]; simpl; [constructor|].
  destruct (f x); [|exact IH]. constructor; [|exact IH].
  intros Hin. apply Hx. apply (proj1 (list_elem_of_In _ _)), filter_In in Hin as [Hin _].
  apply list_elem_of_In, Hin.
Qed.

Section Names.
Context {L : Library}.

Lemma listing_below_keys (l : filesystem) (d : path) :
  listing_below l d = List.filter (below d) (map fst l).
Proof.
  unfold listing_below. induction l as [|[q e] l IH]; simpl; [reflexivity|].
  destruct (below d q); simpl; rewrite IH; reflexivity.
Qed.

Lemma item_paths_nodup (l : filesystem) (item : path) :
  NoDup (map fst l) -> NoDup (item_paths l item).
Proof.
  intros Hnd. unfold item_paths. destruct (lookup_path item l) as [[c|]|].
  - apply NoDup_singleton.
  - apply nodup_filter. unfold sorted. rewrite merge_sort_Permutation.
    rewrite listing_below_keys. apply nodup_filter, Hnd.
  - constructor.
Qed.

Lemma item_path_shape (l : filesystem) (root : path) (n : string) (p : path) :
  p ∈ item_paths l (root ++ [n]) ->
  is_file_in l p = true /\ exists rest, p = root ++ n :: rest.
Proof.
  intros Hp. apply item_paths_below in Hp as [Hf [->|Hb]].
  - split; [exact Hf|]. exists []. reflexivity.
  - split; [exact Hf|]. apply below_spec in Hb as (x & rest & ->).
    exists (x :: rest). rewrite <- app_assoc. reflexivity.
Qed.

Lemma paths_of_names_nodup (l : filesystem) (root : path) (names : list string) :
  NoDup (map fst l) -> NoDup names ->
  NoDup (concat (map (fun n => item_paths l (root ++ [n])) names)).
Proof.
  intros Hl. induction 1 as [|n names Hn _ IH]; simpl; [constructor|].
  apply NoDup_app. split; [apply item_paths_nodup, Hl|]. split; [|exact IH].
  intros p Hp Hp'. apply item_path_shape in Hp as [_ [rest ->]].
  apply (proj1 (list_elem_of_In _ _)), in_concat in Hp' as (ps & Hps & Hp').
  apply in_map_iff in Hps as (n' & <- & Hn').
  apply (proj2 (list_elem_of_In _ _)), item_path_shape in Hp' as [_ [rest' Heq]].
  apply app_inv_head in Heq. injection Heq as -> _.
  apply Hn, list_elem_of_In, Hn'.
Qed.

Lemma items_are_names (root : path) :
  items_to_include root
  = map (fun n => root ++ [n])
      ["metadata.json"; "resources"; "symbols"; "footprints"; "3dmodels"].
Proof. reflexivity. Qed.

Lemma file_is_listed (l : filesystem) (p : path) :
  is_file_in l p = true -> p ∈ map fst l.
Proof.
  unfold is_file_in. destruct p as [|x p]; [discriminate|]. simpl.
  destruct (entry_at (x :: p) l) as [e|] eqn:He; [|discriminate]. intros _.
  apply entry_at_elem in He. apply list_elem_of_fmap. exists (x :: p, e).
  split; [reflexivity | exact He].
Qed.

Lemma open_w_keys (out : path) (w w0 : world) (p : path) :
  open_w out w = (w0, Ok tt) -> p ∈ map fst (fs w0) -> p ∈ map fst (fs w) \/ p = out.
Proof.
  unfold open_w.
  destruct (lookup_path out (fs w)) as [[c|]|]; try discriminate.
  - intros [= <-]. cbn [fs]. rewrite replace_entry_keys. auto.
  - destruct (lookup_path (parent out) (fs w)) as [[c|]|]; try discriminate.
    intros [= <-]. cbn [fs]. rewrite map_app. simpl.
    rewrite elem_of_app, list_elem_of_singleton. auto.
Qed.

(** X20. No two members of the archive have the same name, on a filesystem
    that lists each path once and has no ["/"] inside a component. *)
Theorem create_zip_archive_distinct_names (w w0 : world) (out root : path) :
  open_w out w = (w0, Ok tt) ->
  NoDup (map fst (fs w)) ->
  Forall (Forall (fun s => no_slash s = true)) (map fst (fs w)) ->
  Forall (fun s => no_slash s = true) out ->
  exists ms,
    create_zip_archive out root w
    = (World (replace_entry out (F (zip_archive ms)) (fs w0)) (stdout w0), Ok out)
    /\ NoDup (map fst ms).
Proof.
  intros Hopen Hnd Hgood Hout. exists (archive_members (fs w0) root).
  rewrite create_zip_archive_run, Hopen. split; [reflexivity|].
  destruct (open_w_ok _ _ _ Hnd Hopen) as (Hnd0 & _ & _).
  assert (Hgood0 : forall p, p ∈ map fst (fs w0) ->
                     Forall (fun s => no_slash s = true) p).
  { intros p Hp. destruct (open_w_keys _ _ _ _ Hopen Hp) as [Hin | ->];
      [|exact Hout]. rewrite Forall_forall in Hgood. apply Hgood, Hin. }
  rewrite archive_members_paths, items_are_names, map_map, map_map.
  change (map (fun p => fst (member_of (fs w0) root p)))
    with (fmap (M := list) (arcname root)).
  apply NoDup_fmap_2_strong.
  - assert (Hshape : forall p,
              p ∈ concat (map (fun n => item_paths (fs w0) (root ++ [n]))
                            ["metadata.json"; "resources"; "symbols"; "footprints";
                             "3dmodels"]) ->
              exists rel, p = root ++ rel /\ rel <> []
                          /\ Forall (fun s => no_slash s = true) rel).
    { intros p Hp.
      apply (proj1 (list_elem_of_In _ _)), in_concat in Hp as (ps & Hps & Hp).
      apply in_map_iff in Hps as (n & <- & _).
      apply (proj2 (list_elem_of_In _ _)), item_path_shape in Hp as [Hf [rest ->]].
      exists (n :: rest). split; [reflexivity|]. split; [discriminate|].
      apply file_is_listed, Hgood0 in Hf. apply Forall_app in Hf. apply Hf. }
    intros p q Hp Hq Heq.
    apply Hshape in Hp as (rp & -> & Hrp & Hgp).
    apply Hshape in Hq as (rq & -> & Hrq & Hgq).
    rewrite !arcname_below in Heq. f_equal. apply as_posix_inj; assumption.
  - apply paths_of_names_nodup; [exact Hnd0|].
    apply (bool_decide_unpack _). vm_compute. exact I.
Qed.

(** A regular file at or below an item is among the members. *)
Lemma member_complete (l : filesystem) (root : path) (name : string) (rest : path)
    (c : content) :
  root ++ [name] ∈ items_to_include root ->
  lookup_path (root ++ name :: rest) l = Some (F c) ->
  rest = [] \/ lookup_path (root ++ [name]) l = Some D ->
  (as_posix (name :: rest), c) ∈ archive_members l root.
Proof.
  intros Hitem Hfile Hcase.
  assert (Hm : member_of l root (root ++ name :: rest) = (as_posix (name :: rest), c)).
  { unfold member_of, content_at. rewrite arcname_below, Hfile. reflexivity. }
  rewrite <- Hm. apply (elem_of_archive_members _ _ _ _ Hitem).
  unfold item_paths. destruct Hcase as [-> | Hdir].
  - rewrite Hfile. constructor.
  - rewrite Hdir. apply list_elem_of_In, filter_In. split.
    + apply list_elem_of_In, elem_of_sorted.
      destruct rest as [|x rest].
      { rewrite Hfile in Hdir. discriminate. }
      apply (elem_of_listing _ _ _ (F c)); [destruct root; discriminate | exact Hfile|].
      apply below_spec. exists x, rest. rewrite <- app_assoc. reflexivity.
    + unfold is_file_in. rewrite Hfile. reflexivity.
Qed.

Lemma validation_lines_good (names : list string) :
  structure_ok names = true ->
  validation_lines names
  = [ newline +:+ "Validating ZIP structure...";
      "  Archive contains " +:+ str_int (Z.of_nat (length names)) +:+ " files";
      "  Structure looks good!" ].
Proof.
  intros Hok. unfold validation_lines. rewrite Hok.
  unfold structure_ok, required, required_prefixes in *. cbn [forallb] in Hok.
  cbn [map concat].
  destruct (name_in "metadata.json" names); [|discriminate].
  destruct (any_startswith "symbols/" names); [|discriminate].
  destruct (any_startswith "footprints/" names); [reflexivity | discriminate].
Qed.

Context {HL : LibraryLaws L}.

(** X21. A tree with the metadata file, a file below [symbols] and a file
    below [footprints] gives an archive that passes the validation: after
    [create_zip_archive], [validate_zip] prints its header, the number of
    members and that the structure looks good, and no warning. *)
Theorem complete_tree_validates (w w0 : world) (out root : path)
    (cm cs cf : content) (s f : string) (srest frest : path) :
  open_w out w = (w0, Ok tt) ->
  lookup_path (root ++ ["metadata.json"]) (fs w0) = Some (F cm) ->
  lookup_path (root ++ ["symbols"]) (fs w0) = Some D ->
  lookup_path (root ++ "symbols" :: s :: srest) (fs w0) = Some (F cs) ->
  lookup_path (root ++ ["footprints"]) (fs w0) = Some D ->
  lookup_path (root ++ "footprints" :: f :: frest) (fs w0) = Some (F cf) ->
  exists w1 ms,
    create_zip_archive out root w = (w1, Ok out)
    /\ lookup_path out (fs w1) = Some (F (zip_archive ms))
    /\ validate_zip out w1
       = (World (fs w1)
            (stdout w1
             ++ [ newline +:+ "Validating ZIP structure...";
                  "  Archive contains " +:+ str_int (Z.of_nat (length ms)) +:+ " files";
                  "  Structure looks good!" ]), Ok tt).
Proof.
  intros Hopen Hm Hsd Hs Hfd Hf.
  set (ms := archive_members (fs w0) root).
  assert (Hzip : lookup_path out
                   (replace_entry out (F (zip_archive ms)) (fs w0))
                 = Some (F (zip_archive ms)))
    by apply (lookup_replace_eq _ _ c_empty), (open_w_lookup _ _ _ Hopen).
  exists (World (replace_entry out (F (zip_archive ms)) (fs w0)) (stdout w0)), ms.
  split; [rewrite create_zip_archive_run, Hopen; reflexivity|].
  split; [exact Hzip|].
  rewrite (validate_zip_run out _ _
             (World (replace_entry out (F (zip_archive ms)) (fs w0)) (stdout w0))
             Hzip (zip_namelist_archive ms)).
  rewrite validation_lines_good, length_map; [reflexivity|].
  assert (Hin : forall name c, (name, c) ∈ ms -> In name (map fst ms)).
  { intros name c H. apply in_map_iff. exists (name, c).
    split; [reflexivity | apply list_elem_of_In, H]. }
  unfold structure_ok, required, required_prefixes. cbn [forallb].
  rewrite !andb_true_r. apply andb_true_iff. split; [|apply andb_true_iff; split].
  - apply existsb_exists. exists "metadata.json". split; [|reflexivity].
    apply (Hin _ cm), (member_complete _ _ "metadata.json" [] cm);
      [unfold items_to_include; repeat constructor | exact Hm | left; reflexivity].
  - apply existsb_exists. exists (as_posix ("symbols" :: s :: srest)).
    split; [|apply (startswith_append "symbols/" (as_posix (s :: srest)))].
    apply (Hin _ cs), member_complete;
      [unfold items_to_include; repeat constructor | exact Hs | right; exact Hsd].
  - apply existsb_exists. exists (as_posix ("footprints" :: f :: frest)).
    split; [|apply (startswith_append "footprints/" (as_posix (f :: frest)))].
    apply (Hin _ cf), member_complete;
      [unfold items_to_include; repeat constructor | exact Hf | right; exact Hfd].
Qed.

End Names.


(** *** The further properties on the demo trees *)

Lemma create_zip_archive_complete_witness :
  exists ms,
    lookup_path DemoTrees.out
      (fs (fst (create_zip_archive (L := Demo.library) DemoTrees.out Demo.root
                  (World Demo.repo []))))
    = Some (F (zip_archive ms))
    /\ ("symbols/a.kicad_sym", Demo.Raw [Byte.x03]) ∈ ms.
Proof.
  exact (create_zip_archive_complete (L := Demo.library) (World Demo.repo [])
           (fst (create_zip_archive (L := Demo.library) DemoTrees.out Demo.root
                   (World Demo.repo [])))
           DemoTrees.out Demo.root DemoTrees.out
           "symbols" ["a.kicad_sym"] (Demo.Raw [Byte.x03])
           eq_refl eq_refl
           ltac:(apply list_elem_of_In; simpl; tauto)
           eq_refl (or_intror eq_refl)).
Defined.

Lemma create_zip_archive_member_order_witness :
  exists pss,
    create_zip_archive (L := Demo.library) DemoTrees.out Demo.root (World Demo.repo [])
    = (World (replace_entry DemoTrees.out
                (F (zip_archive (map (member_of DemoTrees.opened Demo.root)
                                   (concat pss))))
                DemoTrees.opened) [], Ok DemoTrees.out)
    /\ length pss = 5%nat.
Proof.
  destruct (create_zip_archive_member_order (L := Demo.library) (World Demo.repo [])
              (World DemoTrees.opened []) DemoTrees.out Demo.root eq_refl)
    as (pss & Hrun & Hall).
  exists pss. split; [exact Hrun|].
  rewrite <- (Forall2_length _ _ _ Hall). reflexivity.
Defined.

Lemma install_size_is_archive_size_witness :
  exists ms,
    compute_install_size (L := Demo.library) (items_to_include Demo.root)
      (World Demo.repo [])
    = (World Demo.repo [], Ok (members_size ms))
    /\ members_size (L := Demo.library) ms = 6.
Proof.
  destruct (install_size_is_archive_size (L := Demo.library) (World Demo.repo [])
              (fst (create_zip_archive (L := Demo.library) DemoTrees.out Demo.root
                      (World Demo.repo [])))
              DemoTrees.out Demo.root DemoTrees.out eq_refl eq_refl)
    as (ms & _ & Hsize & _).
  exists ms. split; [exact Hsize|].
  assert (H : (World Demo.repo [], Ok 6)
              = (World Demo.repo [], Ok (members_size ms)))
    by exact (eq_trans eq_refl Hsize).
  injection H as <-. reflexivity.
Defined.

Lemma main_archive_has_metadata_witness :
  exists top' rest,
    lookup_path (output_zip_path Demo.root "1.0.0")
      (fs (fst (package (L := Demo.library) Demo.root "1.0.0" None (World Demo.repo []))))
    = Some (F (zip_archive (("metadata.json", json_dump (JObj top')) :: rest)))
    /\ dict_get "versions" top' = Some (JArr [metadata_version_entry "1.0.0"]).
Proof.
  destruct (main_archive_has_metadata (L := Demo.library) (HL := demo_laws)
              (World Demo.repo [])
              (fst (package (L := Demo.library) Demo.root "1.0.0" None
                      (World Demo.repo [])))
              Demo.root "1.0.0" None eq_refl)
    as (top' & rest & Hvs & _ & Hzip & _).
  exists top', rest. split; [exact Hzip | exact Hvs].
Defined.

Lemma main_stops_at_metadata_witness :
  exit_status (snd (main (L := Demo.library) ["repo"] "1.0.0" None (World [] []))) = 1.
Proof.
  exact (proj2 (main_stops_at_metadata (L := Demo.library) (World [] []) (World [] [])
                  ["repo"] "1.0.0" None FileNotFoundError eq_refl)).
Defined.

Lemma validate_zip_verdict_witness :
  exists warnings,
    warnings <> []
    /\ snd (validate_zip (L := Demo.library) ["a.zip"] (World DemoTrees.with_archive []))
       = Ok tt
    /\ stdout (fst (validate_zip (L := Demo.library) ["a.zip"]
                      (World DemoTrees.with_archive [])))
       = [newline +:+ "Validating ZIP structure..."] ++ warnings
         ++ [ "  Archive contains 2 files"; "  WARNING: Archive may have issues" ].
Proof.
  destruct (validate_zip_verdict (L := Demo.library) (World DemoTrees.with_archive [])
              ["a.zip"] _ eq_refl) as (_ & Hbad & _).
  destruct (Hbad ["metadata.json"; "symbols/a.kicad_sym"] eq_refl eq_refl)
    as (warnings & Hne & Hrun).
  exists warnings. split; [exact Hne|]. rewrite Hrun. split; reflexivity.
Defined.

Lemma output_zip_path_in_root_witness :
  output_zip_path ["repo"] "1.0.0" = ["repo"; "PULSAR-KiCad-Lib-1.0.0.zip"]
  /\ parent (output_zip_path ["repo"] "1.0.0") = ["repo"].
Proof.
  destruct (output_zip_path_in_root ["repo"] "1.0.0" eq_refl) as (Hout & Hparent & _).
  split; [exact Hout | exact Hparent].
Defined.

Lemma main_fails_after_archive_witness :
  exists w' ms w'',
    main (L := Demo.library) Demo.root "1.0.0" None (World DemoTrees.no_manifest [])
    = (w', Raise FileNotFoundError)
    /\ lookup_path (output_zip_path Demo.root "1.0.0") (fs w')
       = Some (F (zip_archive ms))
    /\ main (L := Demo.library) Demo.root "1.0.0" None (World DemoTrees.docs_is_file [])
       = (w'', Raise NotADirectoryError).
Proof.
  destruct (main_fails_after_archive (L := Demo.library)
              (World DemoTrees.no_manifest [])
              (fst (update_metadata_json (L := Demo.library)
                      (Demo.root ++ ["metadata.json"]) "1.0.0"
                      (World DemoTrees.no_manifest [])))
              (fst (create_zip_archive (L := Demo.library)
                      (output_zip_path Demo.root "1.0.0") Demo.root
                      (fst (update_metadata_json (L := Demo.library)
                              (Demo.root ++ ["metadata.json"]) "1.0.0"
                              (World DemoTrees.no_manifest [])))))
              Demo.root "1.0.0" None (output_zip_path Demo.root "1.0.0")
              eq_refl eq_refl eq_refl)
    as (w' & ms & top & Hmain & _ & _ & _ & _ & Hzip & _).
  destruct (main_fails_after_archive (L := Demo.library)
              (World DemoTrees.docs_is_file [])
              (fst (update_metadata_json (L := Demo.library)
                      (Demo.root ++ ["metadata.json"]) "1.0.0"
                      (World DemoTrees.docs_is_file [])))
              (fst (create_zip_archive (L := Demo.library)
                      (output_zip_path Demo.root "1.0.0") Demo.root
                      (fst (update_metadata_json (L := Demo.library)
                              (Demo.root ++ ["metadata.json"]) "1.0.0"
                              (World DemoTrees.docs_is_file [])))))
              Demo.root "1.0.0" None (output_zip_path Demo.root "1.0.0")
              eq_refl eq_refl eq_refl)
    as (w'' & _ & _ & Hmain' & _).
  exists w', ms, w''. split; [exact Hmain|]. split; [exact Hzip | exact Hmain'].
Defined.

Lemma manifest_describes_archive_witness :
  exists (zipc : @content Demo.library) data' vs' (i : nat) install_size,
    lookup_path (output_zip_path Demo.root "1.0.0")
      (fs (fst (package (L := Demo.library) Demo.root "1.0.0" None (World Demo.repo []))))
    = Some (F zipc)
    /\ lookup_path (Demo.root ++ ["docs"; "packages.json"])
         (fs (fst (package (L := Demo.library) Demo.root "1.0.0" None
                     (World Demo.repo []))))
       = Some (F (json_dump data'))
    /\ manifest_versions data' = Some vs'
    /\ vs' !! i
       = Some (new_version_entry "1.0.0" "v1.0.0"
                 (hex (sha256_digest (Library := Demo.library) (c_bytes zipc)))
                 (Z.of_nat (length (c_bytes (Library := Demo.library) zipc))) install_size).
Proof.
  exact (manifest_describes_archive (L := Demo.library) (World Demo.repo [])
           (fst (package (L := Demo.library) Demo.root "1.0.0" None (World Demo.repo [])))
           Demo.root "1.0.0" None eq_refl).
Defined.

Lemma manifest_install_size_witness :
  exists (ms : list (@member Demo.library)) (data' : json) vs' (i : nat) entry,
    lookup_path (output_zip_path Demo.root "1.0.0")
      (fs (fst (package (L := Demo.library) Demo.root "1.0.0" None (World Demo.repo []))))
    = Some (F (zip_archive ms))
    /\ manifest_versions data' = Some vs'
    /\ vs' !! i = Some entry
    /\ getitem_str entry "install_size"
       = Ok (JInt (members_size (L := Demo.library) ms)).
Proof.
  destruct (manifest_install_size (L := Demo.library) (World Demo.repo [])
              (fst (package (L := Demo.library) Demo.root "1.0.0" None
                      (World Demo.repo [])))
              Demo.root "1.0.0" None eq_refl eq_refl)
    as (ms & data' & vs' & i & entry & Hzip & _ & Hvs & Hi & _ & Hsize).
  exists ms, data', vs', i, entry.
  split; [exact Hzip|]. split; [exact Hvs|]. split; [exact Hi | exact Hsize].
Defined.

Lemma create_zip_archive_distinct_names_witness :
  exists ms,
    create_zip_archive (L := Demo.library) DemoTrees.out Demo.root (World Demo.repo [])
    = (World (replace_entry DemoTrees.out (F (zip_archive ms)) DemoTrees.opened) [],
       Ok DemoTrees.out)
    /\ NoDup (map fst ms).
Proof.
  exact (create_zip_archive_distinct_names (L := Demo.library) (World Demo.repo [])
           (World DemoTrees.opened []) DemoTrees.out Demo.root eq_refl
           ltac:(apply (bool_decide_unpack _); vm_compute; exact I)
           ltac:(repeat constructor) ltac:(repeat constructor)).
Defined.

Lemma complete_tree_validates_witness :
  exists w1 (ms : list (@member Demo.library)),
    create_zip_archive (L := Demo.library) DemoTrees.out Demo.root
      (World DemoTrees.full_opened []) = (w1, Ok DemoTrees.out)
    /\ validate_zip DemoTrees.out w1
       = (World (fs w1)
            (stdout w1
             ++ [ newline +:+ "Validating ZIP structure...";
                  "  Archive contains " +:+ str_int (Z.of_nat (length ms)) +:+ " files";
                  "  Structure looks good!" ]), Ok tt).
Proof.
  destruct (complete_tree_validates (L := Demo.library) (HL := demo_laws)
              (World DemoTrees.full_opened [])
              (World DemoTrees.full_opened []) DemoTrees.out Demo.root
              _ _ _ "x.kicad_sym" "PULSAR.pretty" [] ["y.kicad_mod"]
              eq_refl eq_refl eq_refl eq_refl eq_refl eq_refl)
    as (w1 & ms & Hrun & _ & Hval).
  exists w1, ms. split; [exact Hrun | exact Hval].
Defined.

Lemma create_zip_archive_frame_witness :
  exists ms,
    create_zip_archive (L := Demo.library) DemoTrees.out Demo.root (World Demo.repo [])
    = (World (replace_entry DemoTrees.out (F (zip_archive ms)) DemoTrees.opened) [],
       Ok DemoTrees.out)
    /\ lookup_path (Demo.root ++ ["metadata.json"])
         (replace_entry DemoTrees.out (F (zip_archive ms)) DemoTrees.opened)
       = lookup_path (Demo.root ++ ["metadata.json"]) Demo.repo
    /\ create_zip_archive (L := Demo.library) ["repo"; "symbols"] Demo.root
         (World Demo.repo [])
       = (World Demo.repo [], Raise IsADirectoryError)
    /\ create_zip_archive (L := Demo.library) ["repo"; "dist"; "out.zip"] Demo.root
         (World Demo.repo [])
       = (World Demo.repo [], Raise FileNotFoundError)
    /\ create_zip_archive (L := Demo.library) ["repo"; "metadata.json"; "out.zip"]
         Demo.root (World Demo.repo [])
       = (World Demo.repo [], Raise NotADirectoryError).
Proof.
  exists (archive_members (L := Demo.library) DemoTrees.opened Demo.root).
  destruct (create_zip_archive_frame (L := Demo.library) (World Demo.repo [])
              DemoTrees.out Demo.root) as (Hok & _ & _).
  destruct (Hok (World (replace_entry DemoTrees.out
                          (F (zip_archive
                                (archive_members (L := Demo.library)
                                   DemoTrees.opened Demo.root)))
                          DemoTrees.opened) [])
              DemoTrees.out eq_refl) as (_ & _ & _ & Hframe).
  split; [reflexivity|].
  split; [exact (Hframe (Demo.root ++ ["metadata.json"])
                   ltac:(vm_compute; discriminate))|].
  split; [exact (proj1 (proj2 (create_zip_archive_frame (L := Demo.library)
                                 (World Demo.repo []) ["repo"; "symbols"] Demo.root))
                   eq_refl)|].
  split; [exact (proj2 (proj2 (create_zip_archive_frame (L := Demo.library)
                                 (World Demo.repo []) ["repo"; "dist"; "out.zip"]
                                 Demo.root))
                   eq_refl ltac:(vm_compute; discriminate))|].
  exact (proj2 (proj2 (create_zip_archive_frame (L := Demo.library)
                         (World Demo.repo []) ["repo"; "metadata.json"; "out.zip"]
                         Demo.root))
           eq_refl ltac:(vm_compute; discriminate)).
Defined.
